(** * cdxgen: component assembly, hash normalisation and BOM envelope

    A shallow embedding of the assembly engine of [index.js]
    ([listComponents], [addComponent], [processHashes], [addComponentHash],
    [addExternalReferences], [determinePackageType], [addMetadata],
    [addGlobalReferences], [buildBomString]), of [submitBom] and of the
    callback of the command line ([bin/cdxgen]), and the properties the
    specification states about them.

    JavaScript objects are references: the records produced by
    [read-installed] form an object graph in which a [dependencies] entry may
    point back at an ancestor.  Package records therefore live in a store (a
    list indexed by position) and a [dependencies] entry holds either a string
    or the position of a record.  The recursion of [addComponent] over such a
    graph is not structural, so the embedding gives it a depth budget and the
    development proves that a budget of the size of the store plus two is
    never exhausted.

    The component map [list] of the source is a plain object whose keys are
    package-URL strings; every such key starts with [pkg:], so it is neither
    an inherited property name nor an array index, and [Object.keys]
    enumerates the keys in insertion order: the model is an association list
    that grows at its end.

    The npm libraries ([parse-packagejson-name], [packageurl-js], [ssri],
    [xmlbuilder]), [utils.js] and [package.json] are not part of [index.js];
    the development is parametric in them (classes [Env] and [Serializer])
    and its theorems hold for every instance.  A library call is a function
    here: a record the libraries would reject with an exception (one without
    a name, say) is outside the model.  The module [Sample] gives one
    instance, to run the model on concrete inputs. *)

From Stdlib Require Import String Ascii List Bool Arith NArith ZArith Lia.
From Stdlib Require Import Strings.Byte.
Import ListNotations.
Open Scope string_scope.
Open Scope list_scope.

(** ** JavaScript helpers *)

(** Truthiness of a value that is [undefined]/[null] or a string. *)
Definition truthy (v : option string) : bool :=
  match v with
  | Some EmptyString => false
  | Some _ => true
  | None => false
  end.

(** [a || b] on such values. *)
Definition js_or (a b : option string) : option string :=
  if truthy a then a else b.

(** [a || ""]. *)
Definition or_empty (a : option string) : string :=
  match a with
  | Some s => s
  | None => ""
  end.

(** [arr.includes(x)] on an array of strings. *)
Definition includes (arr : list string) (x : string) : bool :=
  existsb (String.eqb x) arr.

(** [s.startsWith(p)]. *)
Definition startsWith (s p : string) : bool := String.prefix p s.

(** [s.includes(sub)] on strings. *)
Fixpoint str_includes (s sub : string) : bool :=
  String.prefix sub s ||
  match s with
  | EmptyString => false
  | String _ s' => str_includes s' sub
  end.

(** The two output encodings; every caller passes ["xml"] or ["json"]. *)
Inductive Format := xml | json.

(** ** Results of the external libraries *)

(** What [parse-packagejson-name] returns (the fields the engine reads). *)
Record PkgIdentifier := {
  id_scope : option string;
  id_fullName : option string
}.

(** The object [ssri.parse] returns: own properties named after algorithms,
    each holding a non-empty array of hash objects; only [digest] is read. *)
Definition Integrity := list (string * (string * list string)).

Fixpoint own (i : Integrity) (alg : string) : option (string * list string) :=
  match i with
  | [] => None
  | (k, v) :: rest => if String.eqb k alg then Some v else own rest alg
  end.

Definition Qualifiers := list (string * string).

(** The collaborators outside [index.js]: npm libraries, [utils.js],
    [package.json] and the string functions of the platform. *)
Class Env := {
  License : Type;
  Licenses : Type;
  parsePackageJsonName : string -> PkgIdentifier;
  (* new PackageURL(type, namespace, name, version, qualifiers, subpath).toString() *)
  PackageURL_toString :
    string -> string -> string -> option string -> option Qualifiers ->
    option string -> string;
  decodeURIComponent : string -> string;
  getLicenses : License -> Format -> Licenses;
  ssri_parse : string -> option Integrity;
  toLowerCase : string -> string;
  path_join : string -> string -> string;
  selfPjson_version : string;
  selfPjson_author : string
}.

(** ** Node's Buffer: base64 and hex *)

Module Buffer.

Definition code (c : ascii) : N := N_of_ascii c.

  (** Value of a base64 character; both the standard and the URL-safe
      alphabet are accepted by the decoder. *)
Definition unbase64 (c : ascii) : option N :=
    let n := code c in
    if (65 <=? n)%N && (n <=? 90)%N then Some (n - 65)%N
    else if (97 <=? n)%N && (n <=? 122)%N then Some (n - 71)%N
    else if (48 <=? n)%N && (n <=? 57)%N then Some (n + 4)%N
    else if (n =? 43)%N || (n =? 45)%N then Some 62%N
    else if (n =? 47)%N || (n =? 95)%N then Some 63%N
    else None.

Definition base64_char (n : N) : ascii :=
    if (n <? 26)%N then ascii_of_N (n + 65)
    else if (n <? 52)%N then ascii_of_N (n + 71)
    else if (n <? 62)%N then ascii_of_N (n - 4)
    else if (n =? 62)%N then "+"%char
    else "/"%char.

Definition byte_of_N (n : N) : byte :=
    match Byte.of_N (n mod 256) with
    | Some b => b
    | None => x00
    end.

  (** Characters outside the alphabet (padding included) are skipped. *)
Fixpoint sextets (s : string) : list N :=
    match s with
    | EmptyString => []
    | String c s' =>
        match unbase64 c with
        | Some n => n :: sextets s'
        | None => sextets s'
        end
    end.

Fixpoint decode_sextets (l : list N) : list byte :=
    match l with
    | a :: b :: c :: d :: rest =>
        byte_of_N (a * 4 + b / 16)
        :: byte_of_N ((b mod 16) * 16 + c / 4)
        :: byte_of_N ((c mod 4) * 64 + d)
        :: decode_sextets rest
    | [a; b; c] =>
        [byte_of_N (a * 4 + b / 16); byte_of_N ((b mod 16) * 16 + c / 4)]
    | [a; b] => [byte_of_N (a * 4 + b / 16)]
    | _ => []
    end.

  (** [Buffer.from(s, "base64")]. *)
Definition from_base64 (s : string) : list byte :=
    decode_sextets (sextets s).

  (** [buf.toString("base64")]: standard alphabet, padded. *)
Fixpoint to_base64 (bs : list byte) : string :=
    match bs with
    | [] => ""
    | [a] =>
        let a := Byte.to_N a in
        String (base64_char (a / 4))
          (String (base64_char ((a mod 4) * 16)) "==")
    | [a; b] =>
        let a := Byte.to_N a in
        let b := Byte.to_N b in
        String (base64_char (a / 4))
          (String (base64_char ((a mod 4) * 16 + b / 16))
             (String (base64_char ((b mod 16) * 4)) "="))
    | a :: b :: c :: rest =>
        let a := Byte.to_N a in
        let b := Byte.to_N b in
        let c := Byte.to_N c in
        String (base64_char (a / 4))
          (String (base64_char ((a mod 4) * 16 + b / 16))
             (String (base64_char ((b mod 16) * 4 + c / 64))
                (String (base64_char (c mod 64)) (to_base64 rest))))
    end.

Definition hex_digit (n : N) : ascii :=
    if (n <? 10)%N then ascii_of_N (n + 48) else ascii_of_N (n + 87).

  (** [buf.toString("hex")]: two lowercase digits per byte. *)
Fixpoint to_hex (bs : list byte) : string :=
    match bs with
    | [] => ""
    | b :: rest =>
        let n := Byte.to_N b in
        String (hex_digit (n / 16)) (String (hex_digit (n mod 16)) (to_hex rest))
    end.

End Buffer.

(** ** The hash pattern *)

(** [[a-fA-F0-9]]. *)
Definition is_hex_char (c : ascii) : bool :=
  let n := N_of_ascii c in
  ((48 <=? n)%N && (n <=? 57)%N) ||
  ((97 <=? n)%N && (n <=? 102)%N) ||
  ((65 <=? n)%N && (n <=? 70)%N).

Fixpoint all_chars (p : ascii -> bool) (s : string) : bool :=
  match s with
  | EmptyString => true
  | String c s' => p c && all_chars p s'
  end.

(** [new RegExp(HASH_PATTERN).test(digest)]: the whole string is 32, 40, 64,
    96 or 128 hexadecimal characters. *)
Definition HASH_PATTERN_test (digest : string) : bool :=
  all_chars is_hex_char digest &&
  let n := String.length digest in
  ((n =? 32) || (n =? 40) || (n =? 64) || (n =? 96) || (n =? 128))%nat.

(** ** Data model *)

Section Model.

Context `{Env}.

(** A value of a [dependencies] object: a string (never traversed) or a
    package record, held by its position in the store. *)
Inductive Dependency :=
  | DepString (s : string)
  | DepObject (r : nat).

(** A package record, with the fields [index.js] reads.  [pkg_dependencies]
    lists the entries of [pkg.dependencies] in [Object.keys] order. *)
Record PackageRecord := {
  pkg_extraneous : bool;
  pkg_name : string;
  pkg_group : option string;
  pkg_version : option string;
  pkg_qualifiers : option Qualifiers;
  pkg_subpath : option string;
  pkg_scope : option string;
  pkg_description : option string;
  pkg_homepage : option string;
  pkg_bugs_url : option string;
  pkg_repository_url : option string;
  pkg_keywords : option (list string);
  pkg_license : License;
  pkg_shasum : option string;
  pkg_integrity : option string;
  pkg_dependencies : option (list (string * Dependency))
}.

Definition Store := list PackageRecord.

(** [{ "@type": t, url: u }] wrapped in [reference] for XML, [{ type, url }]
    for JSON. *)
Inductive ExternalReference :=
  | XmlReference (type url : string)
  | JsonReference (type url : string).

(** [{ hash: { "@alg", "#text" } }] for XML, [{ alg, content }] for JSON. *)
Inductive HashEntry :=
  | XmlHash (alg text : string)
  | JsonHash (alg content : string).

Definition hash_alg (h : HashEntry) : string :=
  match h with XmlHash a _ | JsonHash a _ => a end.

Definition hash_value (h : HashEntry) : string :=
  match h with XmlHash _ v | JsonHash _ v => v end.

(** A component.  [c_format] records which shape the object has: for [xml]
    the type and reference are stored under ["@type"] and ["@bom-ref"] and
    the description under [{ "#cdata": _ }]; for [json] under ["type"],
    ["bom-ref"] and as a plain value.  A field that has been deleted, or was
    never set, is [None]. *)
Record Component := {
  c_format : Format;
  c_group : string;
  c_name : string;
  c_version : option string;
  c_hashes : option (list HashEntry);
  c_licenses : Licenses;
  c_purl : string;
  c_externalReferences : option (list ExternalReference);
  c_scope : option string;
  c_type : string;
  c_bom_ref : string;
  c_description : option string
}.

(** The object [list] of [listComponents], keyed by package-URL. *)
Definition ListObj := list (string * Component).

Fixpoint get (l : ListObj) (k : string) : option Component :=
  match l with
  | [] => None
  | (k', c) :: rest => if String.eqb k' k then Some c else get rest k
  end.

(** [list[k] = c] for a key that may or may not be there. *)
Fixpoint set (l : ListObj) (k : string) (c : Component) : ListObj :=
  match l with
  | [] => [(k, c)]
  | (k', c') :: rest =>
      if String.eqb k' k then (k', c) :: rest else (k', c') :: set rest k c
  end.

Definition Object_keys (l : ListObj) : list string := map fst l.

(** The import-usage map: imported name to usage count. *)
Definition ImportMap := list (string * nat).

(** ** addExternalReferences *)

Definition addExternalReferences (pkg : PackageRecord) (format : Format)
  : list ExternalReference :=
  let mk := match format with xml => XmlReference | json => JsonReference end in
  (if truthy (pkg_homepage pkg)
   then [mk "website" (or_empty (pkg_homepage pkg))] else [])
  ++ (if truthy (pkg_bugs_url pkg)
      then [mk "issue-tracker" (or_empty (pkg_bugs_url pkg))] else [])
  ++ (if truthy (pkg_repository_url pkg)
      then [mk "vcs" (or_empty (pkg_repository_url pkg))] else []).

(** ** determinePackageType *)

Definition determinePackageType (pkg : PackageRecord) : string :=
  match pkg_keywords pkg with
  | Some kws =>
      if existsb (fun keyword => String.eqb (toLowerCase keyword) "framework") kws
      then "framework" else "library"
  | None => "library"
  end.

(** ** addComponentHash *)

Definition normalizeDigest (digest : string) : string :=
  if HASH_PATTERN_test digest then digest
  else
    let isBase64Encoded :=
      String.eqb (Buffer.to_base64 (Buffer.from_base64 digest)) digest in
    if isBase64Encoded then Buffer.to_hex (Buffer.from_base64 digest)
    else digest.

Definition mkHash (format : Format) (alg hash : string) : HashEntry :=
  match format with
  | json => JsonHash alg hash
  | xml => XmlHash alg hash
  end.

(** [component.hashes.push(h)]; the only caller starts from [hashes: []]. *)
Definition push_hash (component : Component) (h : HashEntry) : Component :=
  {| c_format := c_format component;
     c_group := c_group component;
     c_name := c_name component;
     c_version := c_version component;
     c_hashes := option_map (fun hs => hs ++ [h]) (c_hashes component);
     c_licenses := c_licenses component;
     c_purl := c_purl component;
     c_externalReferences := c_externalReferences component;
     c_scope := c_scope component;
     c_type := c_type component;
     c_bom_ref := c_bom_ref component;
     c_description := c_description component |}.

Definition addComponentHash (alg digest : string) (component : Component)
    (format : Format) : Component :=
  let hash := normalizeDigest digest in
  push_hash component (mkHash format alg hash).

(** ** processHashes *)

(** [delete component.hashes] when the array is empty. *)
Definition delete_empty_hashes (component : Component) : Component :=
  match c_hashes component with
  | Some [] =>
      {| c_format := c_format component;
         c_group := c_group component;
         c_name := c_name component;
         c_version := c_version component;
         c_hashes := None;
         c_licenses := c_licenses component;
         c_purl := c_purl component;
         c_externalReferences := c_externalReferences component;
         c_scope := c_scope component;
         c_type := c_type component;
         c_bom_ref := c_bom_ref component;
         c_description := c_description component |}
  | _ => component
  end.

(** One [if (integrity.hasOwnProperty(key))] block. *)
Definition addIfOwn (integrity : Integrity) (key alg : string)
    (component : Component) (format : Format) : Component :=
  match own integrity key with
  | Some (digest, _) => addComponentHash alg digest component format
  | None => component
  end.

Definition processHashes (pkg : PackageRecord) (component : Component)
    (format : Format) : Component :=
  let component :=
    if truthy (pkg_shasum pkg) then
      push_hash component (mkHash format "SHA-1" (or_empty (pkg_shasum pkg)))
    else if truthy (pkg_integrity pkg) then
      let integrity :=
        match ssri_parse (or_empty (pkg_integrity pkg)) with
        | Some i => i
        | None => []
        end in
      let component := addIfOwn integrity "sha512" "SHA-512" component format in
      let component := addIfOwn integrity "sha384" "SHA-384" component format in
      let component := addIfOwn integrity "sha256" "SHA-256" component format in
      addIfOwn integrity "sha1" "SHA-1" component format
    else component in
  delete_empty_hashes component.

(** ** addComponent *)

(** [pkg.group || pkgIdentifier.scope], then [group || ""]. *)
Definition resolveGroup (pkg : PackageRecord) : string :=
  or_empty (js_or (pkg_group pkg) (id_scope (parsePackageJsonName (pkg_name pkg)))).

(** [pkgIdentifier.fullName || pkg.name]. *)
Definition resolveName (pkg : PackageRecord) : string :=
  or_empty (js_or (id_fullName (parsePackageJsonName (pkg_name pkg)))
              (Some (pkg_name pkg))).

(** The test guarding the [@types] return. *)
Definition isTypesPackage (ptype : string) (pkg : PackageRecord) : bool :=
  String.eqb ptype "npm" &&
  (String.eqb (resolveGroup pkg) "types" || startsWith (resolveName pkg) "@types").

Definition purlString (ptype : string) (pkg : PackageRecord) : string :=
  decodeURIComponent
    (PackageURL_toString ptype (resolveGroup pkg) (resolveName pkg)
       (pkg_version pkg) (pkg_qualifiers pkg) (pkg_subpath pkg)).

(** The value of [compScope] after the import check. *)
Definition compScope (allImports : option ImportMap) (pkg : PackageRecord)
  : option string :=
  let group := resolveGroup pkg in
  let name := resolveName pkg in
  match allImports with
  | Some imports =>
      let impPkgs := map fst imports in
      if includes impPkgs name
         || includes impPkgs (group ++ "/" ++ name)%string
         || includes impPkgs ("@" ++ group ++ "/" ++ name)%string
         || includes impPkgs group
         || includes impPkgs ("@" ++ group)%string
      then Some "required"
      else if negb (Nat.eqb (List.length impPkgs) 0) then Some "optional"
      else pkg_scope pkg
  | None => pkg_scope pkg
  end.

(** The component [addComponent] builds for a record that is neither
    extraneous, nor the root, nor a [@types] package: the object literal, the
    scope, the format-specific fields, the deletion of empty
    [externalReferences], and [processHashes]. *)
Definition newComponent (allImports : option ImportMap) (pkg : PackageRecord)
    (ptype : string) (format : Format) : Component :=
  let purl := purlString ptype pkg in
  let scope := compScope allImports pkg in
  let refs := addExternalReferences pkg format in
  let component :=
    {| c_format := format;
       c_group := resolveGroup pkg;
       c_name := resolveName pkg;
       c_version := pkg_version pkg;
       c_hashes := Some [];
       c_licenses := getLicenses (pkg_license pkg) format;
       c_purl := purl;
       c_externalReferences :=
         match refs with [] => None | _ => Some refs end;
       c_scope := if truthy scope then scope else None;
       c_type := determinePackageType pkg;
       c_bom_ref := purl;
       c_description := pkg_description pkg |} in
  processHashes pkg component format.

Definition is_string (d : Dependency) : bool :=
  match d with
  | DepString _ => true
  | DepObject _ => false
  end.

(** The object a non-string dependency value denotes.  A position outside
    the store denotes no object; the walk finds nothing to visit there. *)
Definition deref (store : Store) (d : Dependency) : option PackageRecord :=
  match d with
  | DepString _ => None
  | DepObject r => nth_error store r
  end.

(** The values of [pkg.dependencies] that survive the [typeof x !== "string"]
    filter, in [Object.keys] order. *)
Definition dependencyObjects (pkg : PackageRecord) : list Dependency :=
  match pkg_dependencies pkg with
  | Some deps => filter (fun x => negb (is_string x)) (map snd deps)
  | None => []
  end.

(** [addComponent]: the recursion of the source runs on an object graph, so
    the walk carries a depth budget; [None] means the budget ran out. *)
Fixpoint addComponent (fuel : nat) (store : Store)
    (allImports : option ImportMap) (pkg : PackageRecord) (ptype : string)
    (list : ListObj) (isRootPkg : bool) (format : Format) : option ListObj :=
  match fuel with
  | 0 => None
  | S fuel' =>
      let traverse (list : ListObj) : option ListObj :=
        fold_left
          (fun acc x =>
             match acc with
             | Some list =>
                 match deref store x with
                 | Some p =>
                     addComponent fuel' store allImports p ptype list false format
                 | None => Some list
                 end
             | None => None
             end)
          (dependencyObjects pkg) (Some list) in
      if pkg_extraneous pkg then Some list
      else if isRootPkg then traverse list
      else if isTypesPackage ptype pkg then Some list
      else
        let component := newComponent allImports pkg ptype format in
        match get list (c_purl component) with
        | Some _ => Some list
        | None => traverse (set list (c_purl component) component)
        end
  end.

(** ** listComponents *)

(** The [pkg] argument: an array of records or a single one. *)
Inductive PkgInfo :=
  | PkgArray (ps : list PackageRecord)
  | PkgSingle (p : PackageRecord).

(** An element of the result: [{ component: c }] for XML, [c] for JSON. *)
Inductive Item :=
  | Wrapped (component : Component)
  | Plain (component : Component).

Definition item_component (i : Item) : Component :=
  match i with Wrapped c | Plain c => c end.

(** The walk of [listComponents]: the state of [list] before the final map. *)
Definition collect (fuel : nat) (store : Store)
    (allImports : option ImportMap) (pkg : PkgInfo) (ptype : string)
    (format : Format) : option ListObj :=
  let isRootPkg := String.eqb ptype "npm" in
  match pkg with
  | PkgArray ps =>
      fold_left
        (fun acc p =>
           match acc with
           | Some list => addComponent fuel store allImports p ptype list false format
           | None => None
           end)
        ps (Some [])
  | PkgSingle p => addComponent fuel store allImports p ptype [] isRootPkg format
  end.

(** [Object.keys(list).map(...)]. *)
Definition items (format : Format) (list : ListObj) : Datatypes.list Item :=
  map (fun k_c =>
         match format with
         | xml => Wrapped (snd k_c)
         | json => Plain (snd k_c)
         end) list.

Definition listComponents_fuel (fuel : nat) (store : Store)
    (allImports : option ImportMap) (pkg : PkgInfo) (ptype : string)
    (format : Format) : option (list Item) :=
  option_map (items format) (collect fuel store allImports pkg ptype format).

(** A budget no walk over [store] exhausts (see [addComponent_total]). *)
Definition walk_fuel (store : Store) : nat := S (S (List.length store)).

Definition listComponents (store : Store) (allImports : option ImportMap)
    (pkg : PkgInfo) (ptype : string) (format : Format) : option (list Item) :=
  listComponents_fuel (walk_fuel store) store allImports pkg ptype format.

(** ** addGlobalReferences *)

(** [{ reference: { "@type": "other", url, comment } }]. *)
Record GlobalReference := {
  gr_type : string;
  gr_url : string;
  gr_comment : string
}.

Definition addGlobalReferences (src filename : string) : list GlobalReference :=
  let packageFileMeta :=
    if negb (str_includes filename src) then path_join src filename
    else filename in
  [ {| gr_type := "other"; gr_url := src; gr_comment := "Base path" |};
    {| gr_type := "other"; gr_url := packageFileMeta;
       gr_comment := "Package file" |} ].

(** ** addMetadata *)

Record Metadata := {
  timestamp : string;
  tool_vendor : string;
  tool_name : string;
  tool_version : string;
  author_name : string;
  author_email : string
}.

(** What one run draws from outside the program: [uuidv4()] and
    [new Date().toISOString()]. *)
Record World := {
  uuidv4 : string;
  Date_toISOString : string
}.

Definition addMetadata (w : World) (deterministicForTests : bool) : Metadata :=
  let now :=
    if deterministicForTests then "2022-06-03T09:34:10.062Z"
    else Date_toISOString w in
  {| timestamp := now;
     tool_vendor := "AppThreat";
     tool_name := "cdxgen";
     tool_version := selfPjson_version;
     author_name := selfPjson_author;
     author_email := "cloud@appthreat.com" |}.

(** ** buildBomString *)

Definition NsMapping := list (string * list string).

Record BomContext := {
  ctx_src : option string;
  ctx_filename : option string;
  ctx_allImports : option ImportMap;
  ctx_nsMapping : option NsMapping
}.

(** The document handed to xmlbuilder: the attributes and children of [bom]. *)
Record XmlBom := {
  x_xmlns : string;
  x_serialNumber : option string;
  x_version : nat;
  x_externalReferences : option (list GlobalReference);
  x_metadata : Metadata;
  x_components : list Item
}.

(** [jsonTpl]. *)
Record JsonBom := {
  j_bomFormat : string;
  j_specVersion : string;
  j_serialNumber : string;
  j_version : nat;
  j_metadata : Metadata;
  j_components : list Item
}.

(** The two printers: [bom.end(...)] of xmlbuilder and
    [JSON.stringify(_, null, 2)]. *)
Class Serializer := {
  bom_end : XmlBom -> string;
  JSON_stringify : JsonBom -> string
}.

Context `{Serializer}.

(** The arguments the callback receives. *)
Inductive CallbackArgs :=
  | NoArguments
  | BomArguments (bomString jsonString : string) (nsMapping : NsMapping).

(** The attributes and children added to [bom] before [bom.end]. *)
Definition xmlDocument (w : World) (deterministicForTests : bool)
    (context : BomContext) (components : list Item) : XmlBom :=
  let serialNum := ("urn:uuid:" ++ uuidv4 w)%string in
  let ctxFilename :=
    if negb deterministicForTests then ctx_filename context
    else Some "/some/full/path" in
  {| x_xmlns := "http://cyclonedx.org/schema/bom/1.2";
     x_serialNumber :=
       if negb deterministicForTests then Some serialNum else None;
     x_version := 1;
     x_externalReferences :=
       if truthy (ctx_src context) && truthy (ctx_filename context)
       then Some (addGlobalReferences (or_empty (ctx_src context))
                    (or_empty ctxFilename))
       else None;
     x_metadata := addMetadata w deterministicForTests;
     x_components := components |}.

(** The object literal [jsonTpl]. *)
Definition jsonTpl (w : World) (deterministicForTests : bool)
    (jsonComponents : list Item) : JsonBom :=
  let serialNum := ("urn:uuid:" ++ uuidv4 w)%string in
  {| j_bomFormat := "CycloneDX";
     j_specVersion := "1.2";
     j_serialNumber := serialNum;
     j_version := 1;
     j_metadata := addMetadata w deterministicForTests;
     j_components := jsonComponents |}.

(** [allImports] of [buildBomString]: [{}] unless the context brings one. *)
Definition contextImports (context : BomContext) : ImportMap :=
  match ctx_allImports context with
  | Some imports => imports
  | None => []
  end.

Definition buildBomString (w : World) (store : Store)
    (deterministicForTests : bool) (pkgInfo : PkgInfo) (ptype : string)
    (context : BomContext) : option CallbackArgs :=
  let allImports := contextImports context in
  let nsMapping :=
    match ctx_nsMapping context with
    | Some m => m
    | None => []
    end in
  match listComponents store (Some allImports) pkgInfo ptype xml with
  | None => None
  | Some [] => Some NoArguments
  | Some components =>
      let bomString :=
        bom_end (xmlDocument w deterministicForTests context components) in
      match listComponents store (Some allImports) pkgInfo ptype json with
      | None => None
      | Some jsonComponents =>
          Some (BomArguments bomString
                  (JSON_stringify (jsonTpl w deterministicForTests jsonComponents))
                  nsMapping)
      end
  end.

End Model.

(** * The command line ([bin/cdxgen]) and [submitBom] *)

(** [s.replace(pattern, replacement)] with a string pattern: the first
    occurrence only.  (The two replacements of the program, [".json"] and
    [".xml"], hold no [$], so they are inserted as they are.) *)
Fixpoint String_replace (s pattern replacement : string) : string :=
  if String.prefix pattern s
  then (replacement
        ++ String.substring (String.length pattern)
             (String.length s - String.length pattern) s)%string
  else match s with
       | EmptyString => EmptyString
       | String c s' => String c (String_replace s' pattern replacement)
       end.

(** What the callback of [createBom] receives as [bomData] and
    [bomJsonData]: nothing, a document, or (for a multi-module Java project)
    the array of the files produced. *)
Inductive Value :=
  | Undefined
  | Str (s : string)
  | Arr (files : list string).

Definition value_truthy (v : Value) : bool :=
  match v with
  | Undefined => false
  | Str s => truthy (Some s)
  | Arr _ => true
  end.

(** The options of the command line that the callback and [submitBom]
    read. *)
Record CliArgs := {
  args_output : option string;
  args_serverUrl : option string;
  args_apiKey : option string;
  args_projectName : option string;
  args_projectVersion : option string;
  args_projectId : option string
}.

(** [args.projectName = name]. *)
Definition set_projectName (args : CliArgs) (name : string) : CliArgs :=
  {| args_output := args_output args;
     args_serverUrl := args_serverUrl args;
     args_apiKey := args_apiKey args;
     args_projectName := Some name;
     args_projectVersion := args_projectVersion args;
     args_projectId := args_projectId args |}.

(** [formData] of [submitBom]. *)
Record FormData := {
  form_bom_value : Value;
  form_bom_filename : string;
  form_bom_contentType : string;
  form_project : option string;
  form_projectName : option string;
  form_projectVersion : option string;
  form_autoCreate : option string
}.

(** [options] of [submitBom]. *)
Record RequestOptions := {
  req_method : string;
  req_url : string;
  req_port : nat;
  req_json : bool;
  req_X_Api_Key : option string;
  req_Content_Type : string;
  req_formData : FormData
}.

(** What the program does to the outside, in the order of the calls:
    [fs.writeFile(file, data, ...)], [console.log(...)] and
    [request(options, ...)]. *)
Inductive Effect :=
  | writeFile (file : string) (data : Value)
  | console_log (values : list Value)
  | request (options : RequestOptions).

(** The functions of the platform the command line calls.  [request]
    posts [options] and calls its callback once, with an error (or [null])
    and the body of the answer. *)
Class Node := {
  path_basename : string -> string;
  path_resolve : string -> string;
  (* JSON.stringify(nsMapping) *)
  JSON_stringify_mapping : NsMapping -> string;
  (* Buffer.from(data).toString() *)
  Buffer_from_toString : Value -> string;
  (* the (err, body) that request(options, callback) hands to callback *)
  request_answer : RequestOptions -> Value * Value
}.

Section Cli.

Context `{Node}.

(** [undefined + "..."] prints [undefined]. *)
Definition String_of (v : option string) : string :=
  match v with
  | Some s => s
  | None => "undefined"
  end.

(** [exports.submitBom]: the request, then what [callback] does with the
    answer. *)
Definition submitBom (args : CliArgs) (bom : Value)
    (callback : Value -> Value -> list Effect) : list Effect :=
  let serverUrl := (String_of (args_serverUrl args) ++ "/api/v1/bom")%string in
  let formData :=
    {| form_bom_value := bom;
       form_bom_filename :=
         if truthy (args_output args)
         then path_basename (or_empty (args_output args))
         else "bom.xml";
       form_bom_contentType := "text/xml";
       form_project :=
         if truthy (args_projectId args) then args_projectId args else None;
       form_projectName :=
         if truthy (args_projectId args) then None
         else if truthy (args_projectName args) then args_projectName args
         else None;
       form_projectVersion :=
         if truthy (args_projectId args) then None
         else if truthy (args_projectName args) then args_projectVersion args
         else None;
       form_autoCreate :=
         if truthy (args_projectId args) then None
         else if truthy (args_projectName args) then Some "true"
         else None |} in
  let options :=
    {| req_method := "POST";
       req_url := serverUrl;
       req_port := 443;
       req_json := true;
       req_X_Api_Key := args_apiKey args;
       req_Content_Type := "multipart/form-data";
       req_formData := formData |} in
  request options
    :: callback (fst (request_answer options)) (snd (request_answer options)).

(** The function [bin/cdxgen] hands to [submitBom]:
    [function (err, res, body) { if (err) console.log(err);
    console.log("Response from server", body); }]. *)
Definition submitBom_callback (err body : Value) : list Effect :=
  (if value_truthy err then [console_log [err]] else [])
  ++ [console_log [Str "Response from server"; body]].

(** The callback [bin/cdxgen] passes to [createBom]: the options as it
    leaves them and what it does, in order. *)
Definition createBom_callback (args : CliArgs) (filePath : string)
    (bomData bomJsonData : Value) (nsMapping : option NsMapping)
  : CliArgs * list Effect :=
  let args :=
    if negb (truthy (args_projectName args)) then
      if negb (String.eqb filePath ".")
      then set_projectName args (path_basename filePath)
      else set_projectName args (path_basename (path_resolve filePath))
    else args in
  let produced :=
    if truthy (args_output args) then
      let output := or_empty (args_output args) in
      match bomData with
      | Arr _ => [console_log [Str "BOM files produced:"; bomData]]
      | _ =>
          let jsonFile := String_replace output ".xml" ".json" in
          (if value_truthy bomJsonData
           then [writeFile jsonFile bomJsonData] else [])
          ++ (if value_truthy bomData
              then
                let xmlFile := String_replace output ".json" ".xml" in
                [writeFile xmlFile bomData;
                 console_log [Str "BOM file written to"; Str output]]
              else [])
          ++ (match nsMapping with
              | Some (_ :: _ as m) =>
                  let nsFile := (jsonFile ++ ".map")%string in
                  [writeFile nsFile (Str (JSON_stringify_mapping m));
                   console_log [Str "Namespace mapping file written to"; Str nsFile]]
              | _ => []
              end)
      end
    else if value_truthy bomJsonData
    then [console_log [Str (Buffer_from_toString bomJsonData)]]
    else if value_truthy bomData
    then [console_log [Str (Buffer_from_toString bomData)]]
    else [console_log [Str "Unable to produce BOM for"; Str filePath]] in
  let submitted :=
    if truthy (args_serverUrl args) && truthy (args_apiKey args)
    then submitBom args bomData submitBom_callback else [] in
  (args, produced ++ submitted).

(** The files the callback writes, in order. *)
Definition written (effects : list Effect) : list (string * Value) :=
  flat_map (fun e => match e with
                     | writeFile file data => [(file, data)]
                     | _ => []
                     end) effects.

(** The requests it posts. *)
Definition requests (effects : list Effect) : list RequestOptions :=
  flat_map (fun e => match e with
                     | request options => [options]
                     | _ => []
                     end) effects.

(** What it prints. *)
Definition printed (effects : list Effect) : list (list Value) :=
  flat_map (fun e => match e with
                     | console_log values => [values]
                     | _ => []
                     end) effects.

End Cli.

(** ** A concrete environment for running the model *)

Module Sample.

Fixpoint split_at (sep : ascii) (s : string) : option (string * string) :=
    match s with
    | EmptyString => None
    | String c s' =>
        if Ascii.eqb c sep then Some (EmptyString, s')
        else match split_at sep s' with
             | Some (a, b) => Some (String c a, b)
             | None => None
             end
    end.

  (** A stand-in for [parse-packagejson-name], an npm library: as the
      specification describes it, [@scope/name] is split into the scope and
      the name, and any other string is a name without scope. *)
Definition parseName (name : string) : PkgIdentifier :=
    match name with
    | String "@"%char rest =>
        match split_at "/"%char rest with
        | Some (scope, full) =>
            {| id_scope := Some scope; id_fullName := Some full |}
        | None => {| id_scope := None; id_fullName := Some name |}
        end
    | _ => {| id_scope := None; id_fullName := Some name |}
    end.

  (** A stand-in for [packageurl-js], an npm library, with the shape the
      specification gives, [pkg:<ecosystem>/<group>/<name>@<version>]; an
      empty group and an absent version leave no trace, and qualifiers and
      subpath are left out. *)
Definition purl (type namespace name : string) (version : option string)
      (qualifiers : option Qualifiers) (subpath : option string) : string :=
    ("pkg:" ++ type ++ "/"
       ++ (if truthy (Some namespace) then namespace ++ "/" else "")
       ++ name
       ++ (if truthy version then "@" ++ or_empty version else ""))%string.

Definition lower_char (c : ascii) : ascii :=
    let n := N_of_ascii c in
    if (65 <=? n)%N && (n <=? 90)%N then ascii_of_N (n + 32) else c.

Fixpoint lower (s : string) : string :=
    match s with
    | EmptyString => EmptyString
    | String c s' => String (lower_char c) (lower s')
    end.

  (** A single [alg-digest] integrity string. *)
Definition parseIntegrity (s : string) : option Integrity :=
    match split_at "-"%char s with
    | Some (alg, digest) => Some [(alg, (digest, []))]
    | None => None
    end.

#[export] Instance env : Env := {|
    License := option string;
    Licenses := list string;
    parsePackageJsonName := parseName;
    PackageURL_toString := purl;
    decodeURIComponent := fun s => s;
    getLicenses := fun l _ => match l with Some x => [x] | None => [] end;
    ssri_parse := parseIntegrity;
    toLowerCase := lower;
    path_join := fun a b => (a ++ "/" ++ b)%string;
    selfPjson_version := "2.0.0";
    selfPjson_author := "cdxgen"
  |}.

#[export] Instance printers : Serializer := {|
    bom_end := fun b =>
      ("<bom serialNumber=" ++ or_empty (x_serialNumber b)
         ++ " timestamp=" ++ timestamp (x_metadata b) ++ ">")%string;
    JSON_stringify := fun j =>
      ("{serialNumber: " ++ j_serialNumber j
         ++ ", timestamp: " ++ timestamp (j_metadata j) ++ "}")%string
  |}.

  (** A record with only a name, a version and dependencies. *)
Definition package (name version : string)
      (deps : option (list (string * Dependency))) : PackageRecord :=
    {| pkg_extraneous := false;
       pkg_name := name;
       pkg_group := None;
       pkg_version := Some version;
       pkg_qualifiers := None;
       pkg_subpath := None;
       pkg_scope := None;
       pkg_description := None;
       pkg_homepage := None;
       pkg_bugs_url := None;
       pkg_repository_url := None;
       pkg_keywords := None;
       pkg_license := None;
       pkg_shasum := None;
       pkg_integrity := None;
       pkg_dependencies := deps |}.

Definition with_extraneous (p : PackageRecord) : PackageRecord :=
    {| pkg_extraneous := true;
       pkg_name := pkg_name p;
       pkg_group := pkg_group p;
       pkg_version := pkg_version p;
       pkg_qualifiers := pkg_qualifiers p;
       pkg_subpath := pkg_subpath p;
       pkg_scope := pkg_scope p;
       pkg_description := pkg_description p;
       pkg_homepage := pkg_homepage p;
       pkg_bugs_url := pkg_bugs_url p;
       pkg_repository_url := pkg_repository_url p;
       pkg_keywords := pkg_keywords p;
       pkg_license := pkg_license p;
       pkg_shasum := pkg_shasum p;
       pkg_integrity := pkg_integrity p;
       pkg_dependencies := pkg_dependencies p |}.

Definition with_scope (sc : string) (p : PackageRecord) : PackageRecord :=
    {| pkg_extraneous := pkg_extraneous p;
       pkg_name := pkg_name p;
       pkg_group := pkg_group p;
       pkg_version := pkg_version p;
       pkg_qualifiers := pkg_qualifiers p;
       pkg_subpath := pkg_subpath p;
       pkg_scope := Some sc;
       pkg_description := pkg_description p;
       pkg_homepage := pkg_homepage p;
       pkg_bugs_url := pkg_bugs_url p;
       pkg_repository_url := pkg_repository_url p;
       pkg_keywords := pkg_keywords p;
       pkg_license := pkg_license p;
       pkg_shasum := pkg_shasum p;
       pkg_integrity := pkg_integrity p;
       pkg_dependencies := pkg_dependencies p |}.

Definition with_hashes (shasum integrity : option string) (p : PackageRecord)
    : PackageRecord :=
    {| pkg_extraneous := pkg_extraneous p;
       pkg_name := pkg_name p;
       pkg_group := pkg_group p;
       pkg_version := pkg_version p;
       pkg_qualifiers := pkg_qualifiers p;
       pkg_subpath := pkg_subpath p;
       pkg_scope := pkg_scope p;
       pkg_description := pkg_description p;
       pkg_homepage := pkg_homepage p;
       pkg_bugs_url := pkg_bugs_url p;
       pkg_repository_url := pkg_repository_url p;
       pkg_keywords := pkg_keywords p;
       pkg_license := pkg_license p;
       pkg_shasum := shasum;
       pkg_integrity := integrity;
       pkg_dependencies := pkg_dependencies p |}.

Definition with_group (g : string) (p : PackageRecord) : PackageRecord :=
    {| pkg_extraneous := pkg_extraneous p;
       pkg_name := pkg_name p;
       pkg_group := Some g;
       pkg_version := pkg_version p;
       pkg_qualifiers := pkg_qualifiers p;
       pkg_subpath := pkg_subpath p;
       pkg_scope := pkg_scope p;
       pkg_description := pkg_description p;
       pkg_homepage := pkg_homepage p;
       pkg_bugs_url := pkg_bugs_url p;
       pkg_repository_url := pkg_repository_url p;
       pkg_keywords := pkg_keywords p;
       pkg_license := pkg_license p;
       pkg_shasum := pkg_shasum p;
       pkg_integrity := pkg_integrity p;
       pkg_dependencies := pkg_dependencies p |}.

  (** [app -> a -> app]: the only dependency of [a] is the project itself. *)
Definition app : PackageRecord := package "app" "1.0.0" (Some [("a", DepObject 1)]).
Definition a_pkg : PackageRecord := package "a" "1.0.0" (Some [("app", DepObject 0)]).
Definition cyclic_store : Store := [app; a_pkg].

  (** A diamond: [left] and [right] both depend on [base]; [peer] is
      declared but missing, so its entry is a string. *)
Definition diamond_store : Store :=
    [ package "left" "1.0.0" (Some [("base", DepObject 2); ("peer", DepString "^2.0.0")]);
      package "right" "1.0.0" (Some [("base", DepObject 2)]);
      package "base" "3.1.0" None ].
Definition diamond_root : PackageRecord :=
    package "proj" "0.1.0" (Some [("left", DepObject 0); ("right", DepObject 1)]).

  (** A package that depends on itself. *)
Definition selfish_store : Store :=
    [ package "loop" "1.0.0" (Some [("loop", DepObject 0)]) ].

  (** The part of a path after its last [/]. *)
Fixpoint basename_from (acc s : string) : string :=
    match s with
    | EmptyString => acc
    | String c s' =>
        if Ascii.eqb c "/" then basename_from s' s' else basename_from acc s'
    end.

#[export] Instance node : Node := {
    path_basename := fun s => basename_from s s;
    path_resolve := fun s => s;
    JSON_stringify_mapping := fun _ => "{...}";
    Buffer_from_toString := fun v => match v with Str s => s | _ => "" end;
    request_answer := fun _ => (Undefined, Str "{token: 1}")
}.

End Sample.

(** ** Vocabulary of the statements *)

Section Vocabulary.

Context `{Env}.

(** One step of the [.map] over the dependency objects, and the whole
    traversal of lines 264-269, as [addComponent] performs them. *)
Definition visit (fuel : nat) (store : Store) (allImports : option ImportMap)
    (ptype : string) (format : Format) (acc : option ListObj) (x : Dependency)
  : option ListObj :=
  match acc with
  | Some list =>
      match deref store x with
      | Some p => addComponent fuel store allImports p ptype list false format
      | None => Some list
      end
  | None => None
  end.

Definition traverse (fuel : nat) (store : Store) (allImports : option ImportMap)
    (ptype : string) (format : Format) (pkg : PackageRecord) (list : ListObj)
  : option ListObj :=
  fold_left (visit fuel store allImports ptype format)
    (dependencyObjects pkg) (Some list).

(** A record that passes both early returns of a non-root call. *)
Definition admissible (ptype : string) (pkg : PackageRecord) : bool :=
  negb (pkg_extraneous pkg) && negb (isTypesPackage ptype pkg).

(** The number of store records whose package-URL is not yet a key. *)
Definition pending (store : Store) (ptype : string) (list : ListObj) : nat :=
  List.length
    (filter (fun p => match get list (purlString ptype p) with
                      | None => true
                      | Some _ => false
                      end) store).


(** [q] is the object behind a non-string dependency entry of [p]. *)
Definition child (store : Store) (p q : PackageRecord) : Prop :=
  exists d, In d (dependencyObjects p) /\ deref store d = Some q.

(** [q] can be reached from [p] along dependency edges through admissible
    records whose package-URL is not a key of [list]. *)
Inductive reach (store : Store) (ptype : string) (list : ListObj)
  : PackageRecord -> PackageRecord -> Prop :=
  | reach_here p :
      admissible ptype p = true ->
      get list (purlString ptype p) = None ->
      reach store ptype list p p
  | reach_step p c q :
      admissible ptype p = true ->
      get list (purlString ptype p) = None ->
      child store p c ->
      reach store ptype list c q ->
      reach store ptype list p q.

(** The objects behind a list of dependency values. *)
Definition objects (store : Store) (ds : list Dependency) : list PackageRecord :=
  flat_map (fun d => match deref store d with
                     | Some p => [p]
                     | None => []
                     end) ds.

(** The records a call of [listComponents] starts from. *)
Definition tops (pkg : PkgInfo) : list PackageRecord :=
  match pkg with
  | PkgArray ps => ps
  | PkgSingle p => [p]
  end.

(** The records a walk of [listComponents] can turn into components: those
    reached from the top-level records; a root is only a starting point for
    its dependencies, and an extraneous root starts nothing. *)
Definition reachable (store : Store) (ptype : string) (pkg : PkgInfo)
    (q : PackageRecord) : Prop :=
  match pkg with
  | PkgArray ps => exists p, In p ps /\ reach store ptype [] p q
  | PkgSingle p =>
      if String.eqb ptype "npm"
      then pkg_extraneous p = false /\
           exists c, child store p c /\ reach store ptype [] c q
      else reach store ptype [] p q
  end.

(** Records are identified by their package-URL. *)
Definition purl_identifies (ptype : string) (ps : list PackageRecord) : Prop :=
  forall p q, In p ps -> In q ps -> purlString ptype p = purlString ptype q -> p = q.


Definition item_purls (out : list Item) : list string :=
  map (fun i => c_purl (item_component i)) out.

(** Every entry of [l] is the component of an admissible record satisfying
    [Q], filed under that record's package-URL. *)
Definition from_records (allImports : option ImportMap) (ptype : string)
    (format : Format) (Q : PackageRecord -> Prop) (l : ListObj) : Prop :=
  forall k c,
    In (k, c) l ->
    exists p,
      Q p /\ admissible ptype p = true /\ k = purlString ptype p /\
      c = newComponent allImports p ptype format.

(** The keys of [l1] are those of [l] and the package-URLs of the records
    reached from a record in [S] without crossing a key of [l]. *)
Definition keys_after (store : Store) (ptype : string) (l l1 : ListObj)
    (S : PackageRecord -> Prop) : Prop :=
  forall k,
    In k (Object_keys l1) <->
    In k (Object_keys l) \/
    exists p q, S p /\ reach store ptype l p q /\ k = purlString ptype q.

(** [Object.keys(allImports)], empty when there is no map. *)
Definition importKeys (allImports : option ImportMap) : list string :=
  match allImports with
  | Some imports => map fst imports
  | None => []
  end.

(** The five strings looked up among the import keys. *)
Definition scopeCandidates (pkg : PackageRecord) : list string :=
  let group := resolveGroup pkg in
  let name := resolveName pkg in
  [ name; (group ++ "/" ++ name)%string; ("@" ++ group ++ "/" ++ name)%string;
    group; ("@" ++ group)%string ].

(** [[0-9a-f]]. *)
Definition is_lower_hex (c : ascii) : bool :=
  let n := N_of_ascii c in
  ((48 <=? n)%N && (n <=? 57)%N) || ((97 <=? n)%N && (n <=? 102)%N).

(** The sextets [to_base64] writes for a byte sequence, padding aside. *)
Fixpoint encode_sextets (bs : list byte) : list N :=
  match bs with
  | [] => []
  | [a] =>
      let a := Byte.to_N a in
      [a / 4; (a mod 4) * 16]%N
  | [a; b] =>
      let a := Byte.to_N a in
      let b := Byte.to_N b in
      [a / 4; (a mod 4) * 16 + b / 16; (b mod 16) * 4]%N
  | a :: b :: c :: rest =>
      let a := Byte.to_N a in
      let b := Byte.to_N b in
      let c := Byte.to_N c in
      (a / 4 :: (a mod 4) * 16 + b / 16 :: (b mod 16) * 4 + c / 64 :: c mod 64
         :: encode_sextets rest)%N
  end.

(** The algorithms of the specification, in its priority order, with the
    property names [ssri] files them under. *)
Definition hashPriority : list (string * string) :=
  [("sha512", "SHA-512"); ("sha384", "SHA-384"); ("sha256", "SHA-256");
   ("sha1", "SHA-1")].

(** A field that is omitted when its list is empty. *)
Definition omit_if_empty {A : Type} (l : list A) : option (list A) :=
  match l with
  | [] => None
  | _ => Some l
  end.

(** The hash entries the specification asks for: the raw SHA-1 digest alone
    when there is one, otherwise one entry per algorithm found in the parsed
    integrity string, in priority order. *)
Definition hashes_by_precedence (pkg : PackageRecord) (format : Format)
  : list HashEntry :=
  if truthy (pkg_shasum pkg) then
    [mkHash format "SHA-1" (or_empty (pkg_shasum pkg))]
  else if truthy (pkg_integrity pkg) then
    flat_map
      (fun key_alg =>
         match own (match ssri_parse (or_empty (pkg_integrity pkg)) with
                    | Some i => i
                    | None => []
                    end) (fst key_alg) with
         | Some (digest, _) => [mkHash format (snd key_alg) (normalizeDigest digest)]
         | None => []
         end)
      hashPriority
  else [].

(** ** Vocabulary of the further properties *)

(** [a] with its [scope] field set to [s]. *)
Definition withScope (s : option string) (c : Component) : Component :=
  {| c_format := c_format c;
     c_group := c_group c;
     c_name := c_name c;
     c_version := c_version c;
     c_hashes := c_hashes c;
     c_licenses := c_licenses c;
     c_purl := c_purl c;
     c_externalReferences := c_externalReferences c;
     c_scope := s;
     c_type := c_type c;
     c_bom_ref := c_bom_ref c;
     c_description := c_description c |}.

(** [c] with its [hashes] field set to [hs]. *)
Definition withHashes (hs : option (list HashEntry)) (c : Component) : Component :=
  {| c_format := c_format c;
     c_group := c_group c;
     c_name := c_name c;
     c_version := c_version c;
     c_hashes := hs;
     c_licenses := c_licenses c;
     c_purl := c_purl c;
     c_externalReferences := c_externalReferences c;
     c_scope := c_scope c;
     c_type := c_type c;
     c_bom_ref := c_bom_ref c;
     c_description := c_description c |}.

Definition ref_type (r : ExternalReference) : string :=
  match r with XmlReference t _ | JsonReference t _ => t end.

Definition ref_url (r : ExternalReference) : string :=
  match r with XmlReference _ u | JsonReference _ u => u end.

(** The entry has the shape of the encoding. *)
Definition hash_shape (format : Format) (h : HashEntry) : bool :=
  match format, h with
  | xml, XmlHash _ _ | json, JsonHash _ _ => true
  | _, _ => false
  end.

Definition ref_shape (format : Format) (r : ExternalReference) : bool :=
  match format, r with
  | xml, XmlReference _ _ | json, JsonReference _ _ => true
  | _, _ => false
  end.

(** What two components say, whatever their encoding: every field but
    [licenses], hashes as (algorithm, value) and references as (type, url). *)
Definition same_content (c1 c2 : Component) : Prop :=
  c_group c1 = c_group c2 /\
  c_name c1 = c_name c2 /\
  c_version c1 = c_version c2 /\
  c_purl c1 = c_purl c2 /\
  c_bom_ref c1 = c_bom_ref c2 /\
  c_scope c1 = c_scope c2 /\
  c_type c1 = c_type c2 /\
  c_description c1 = c_description c2 /\
  option_map (map (fun h => (hash_alg h, hash_value h))) (c_hashes c1)
  = option_map (map (fun h => (hash_alg h, hash_value h))) (c_hashes c2) /\
  option_map (map (fun r => (ref_type r, ref_url r))) (c_externalReferences c1)
  = option_map (map (fun r => (ref_type r, ref_url r))) (c_externalReferences c2).

(** Two maps with the same keys in the same order, whose components are
    related by [R]. *)
Definition related (R : Component -> Component -> Prop) (l1 l2 : ListObj) : Prop :=
  Forall2 (fun x y => fst x = fst y /\ R (snd x) (snd y)) l1 l2.

(** Both results are there and related, or both are missing. *)
Definition both {A : Type} (R : A -> A -> Prop) (o1 o2 : option A) : Prop :=
  match o1, o2 with
  | Some a, Some b => R a b
  | None, None => True
  | _, _ => False
  end.

(** The records of an array that become components when none of them has a
    dependency object: the admissible ones whose package-URL was not seen
    before, in order. *)
Fixpoint firstRecords (ptype : string) (seen : list string)
    (ps : list PackageRecord) : list PackageRecord :=
  match ps with
  | [] => []
  | p :: ps' =>
      if admissible ptype p && negb (includes seen (purlString ptype p))
      then p :: firstRecords ptype (purlString ptype p :: seen) ps'
      else firstRecords ptype seen ps'
  end.

(** The element [listComponents] returns for a component. *)
Definition item (format : Format) (c : Component) : Item :=
  match format with
  | xml => Wrapped c
  | json => Plain c
  end.

(** The invariants every listed component satisfies. *)
Definition well_formed (format : Format) (c : Component) : Prop :=
  c_format c = format /\
  c_bom_ref c = c_purl c /\
  c_hashes c <> Some [] /\
  c_externalReferences c <> Some [] /\
  c_scope c <> Some "" /\
  (c_type c = "framework" \/ c_type c = "library").

(** At most one hash per algorithm, at most four, all in the shape of the
    encoding. *)
Definition hashes_ok (format : Format) (c : Component) : Prop :=
  match c_hashes c with
  | None => True
  | Some hs =>
      NoDup (map hash_alg hs) /\ List.length hs <= 4 /\
      forallb (hash_shape format) hs = true
  end.

(** At most one reference per kind, of the three kinds the engine knows,
    each with a non-empty URL and in the shape of the encoding. *)
Definition references_ok (format : Format) (c : Component) : Prop :=
  match c_externalReferences c with
  | None => True
  | Some rs =>
      NoDup (map ref_type rs) /\
      incl (map ref_type rs) ["website"; "issue-tracker"; "vcs"] /\
      Forall (fun r => ref_url r <> "") rs /\
      forallb (ref_shape format) rs = true
  end.

(** [q] is the object behind an entry of [p.dependencies] that is not a
    string, as the record itself holds it. *)
Definition dependency_object (store : Store) (p q : PackageRecord) : Prop :=
  exists deps name r,
    pkg_dependencies p = Some deps /\ In (name, DepObject r) deps /\
    nth_error store r = Some q.

(** The entry [(k, c)] of a map is the component of an admissible record
    satisfying [Q], filed under that record's package-URL, and every
    admissible dependency object of that record has its package-URL among
    the keys of [l]. *)
Definition closed_entry (store : Store) (allImports : option ImportMap)
    (ptype : string) (format : Format) (Q : PackageRecord -> Prop)
    (l : ListObj) (k : string) (c : Component) : Prop :=
  exists p,
    Q p /\ admissible ptype p = true /\ k = purlString ptype p /\
    c = newComponent allImports p ptype format /\
    forall q,
      dependency_object store p q -> admissible ptype q = true ->
      exists c', get l (purlString ptype q) = Some c'.

End Vocabulary.

(** * Properties *)

(** ** The component map *)

Section ComponentMap.

Context `{Env}.

Lemma get_app (l1 l2 : ListObj) (k : string) :
  get (l1 ++ l2) k =
  match get l1 k with
  | Some c => Some c
  | None => get l2 k
  end.
Proof.
  induction l1 as [|[k' c'] l1 IH]; simpl; [reflexivity|].
  destruct (String.eqb k' k); [reflexivity|exact IH].
Qed.

Lemma set_fresh (l : ListObj) (k : string) (c : Component) :
  get l k = None -> set l k c = l ++ [(k, c)].
Proof.
  induction l as [|[k' c'] l IH]; simpl; intros Hg; [reflexivity|].
  destruct (String.eqb k' k); [discriminate|].
  now rewrite IH.
Qed.

Lemma get_None_iff (l : ListObj) (k : string) :
  get l k = None <-> ~ In k (Object_keys l).
Proof.
  unfold Object_keys.
  induction l as [|[k' c'] l IH]; simpl; [tauto|].
  destruct (String.eqb_spec k' k) as [->|Hne].
  - split; [discriminate|]. intros Hn. exfalso. apply Hn. now left.
  - rewrite IH. tauto.
Qed.

Lemma get_Some_In (l : ListObj) (k : string) (c : Component) :
  get l k = Some c -> In (k, c) l.
Proof.
  induction l as [|[k' c'] l IH]; simpl; [discriminate|].
  destruct (String.eqb_spec k' k) as [->|Hne].
  - intros [= ->]. now left.
  - intros Hg. right. now apply IH.
Qed.

Lemma get_prefix (l ext : ListObj) (k : string) (c : Component) :
  get l k = Some c -> get (l ++ ext) k = Some c.
Proof. intros Hg. now rewrite get_app, Hg. Qed.

Lemma keys_app (l1 l2 : ListObj) :
  Object_keys (l1 ++ l2) = Object_keys l1 ++ Object_keys l2.
Proof. apply map_app. Qed.

Lemma NoDup_keys_snoc (l : ListObj) (k : string) (c : Component) :
  NoDup (Object_keys l) -> get l k = None -> NoDup (Object_keys (l ++ [(k, c)])).
Proof.
  intros Hnd Hg. rewrite keys_app. simpl.
  apply NoDup_app; [exact Hnd|repeat constructor; simpl; tauto|].
  intros x Hin [<-|[]]. now apply get_None_iff in Hg.
Qed.

(** ** Hashes leave the rest of the component alone *)

Lemma push_hash_purl (c : Component) (h : HashEntry) :
  c_purl (push_hash c h) = c_purl c.
Proof. reflexivity. Qed.

Lemma delete_empty_hashes_purl (c : Component) :
  c_purl (delete_empty_hashes c) = c_purl c.
Proof. unfold delete_empty_hashes. now destruct (c_hashes c) as [[|]|]. Qed.

Lemma addIfOwn_purl (i : Integrity) (key alg : string) (c : Component) (f : Format) :
  c_purl (addIfOwn i key alg c f) = c_purl c.
Proof. unfold addIfOwn. now destruct (own i key) as [[d ?]|]. Qed.

Lemma processHashes_purl (pkg : PackageRecord) (c : Component) (f : Format) :
  c_purl (processHashes pkg c f) = c_purl c.
Proof.
  unfold processHashes. rewrite delete_empty_hashes_purl.
  destruct (truthy (pkg_shasum pkg)); [reflexivity|].
  destruct (truthy (pkg_integrity pkg)); [|reflexivity].
  now rewrite !addIfOwn_purl.
Qed.

Lemma newComponent_purl (allImports : option ImportMap) (pkg : PackageRecord)
    (ptype : string) (f : Format) :
  c_purl (newComponent allImports pkg ptype f) = purlString ptype pkg.
Proof. unfold newComponent. now rewrite processHashes_purl. Qed.

(** [processHashes] touches [hashes] only. *)
Lemma processHashes_fields (pkg : PackageRecord) (c : Component) (f : Format) :
  c_group (processHashes pkg c f) = c_group c /\
  c_name (processHashes pkg c f) = c_name c /\
  c_scope (processHashes pkg c f) = c_scope c /\
  c_format (processHashes pkg c f) = c_format c.
Proof.
  assert (Hdel : forall c0,
             c_group (delete_empty_hashes c0) = c_group c0 /\
             c_name (delete_empty_hashes c0) = c_name c0 /\
             c_scope (delete_empty_hashes c0) = c_scope c0 /\
             c_format (delete_empty_hashes c0) = c_format c0).
  { intros c0. unfold delete_empty_hashes. now destruct (c_hashes c0) as [[|]|]. }
  assert (Hown : forall i key alg c0,
             c_group (addIfOwn i key alg c0 f) = c_group c0 /\
             c_name (addIfOwn i key alg c0 f) = c_name c0 /\
             c_scope (addIfOwn i key alg c0 f) = c_scope c0 /\
             c_format (addIfOwn i key alg c0 f) = c_format c0).
  { intros i key alg c0. unfold addIfOwn. now destruct (own i key) as [[d ?]|]. }
  unfold processHashes.
  match goal with
  | |- context [delete_empty_hashes ?x] => destruct (Hdel x) as (-> & -> & -> & ->)
  end.
  destruct (truthy (pkg_shasum pkg)); [now repeat split|].
  destruct (truthy (pkg_integrity pkg)); [|now repeat split].
  repeat match goal with
         | |- context [addIfOwn ?i ?k ?a ?x f] =>
             destruct (Hown i k a x) as (-> & -> & -> & ->)
         end.
  now repeat split.
Qed.

Lemma newComponent_identity (allImports : option ImportMap) (pkg : PackageRecord)
    (ptype : string) (f : Format) :
  c_group (newComponent allImports pkg ptype f) = resolveGroup pkg /\
  c_name (newComponent allImports pkg ptype f) = resolveName pkg.
Proof.
  unfold newComponent.
  match goal with
  | |- context [processHashes pkg ?c f] =>
      destruct (processHashes_fields pkg c f) as (-> & -> & _ & _)
  end.
  now split.
Qed.

Lemma newComponent_scope (allImports : option ImportMap) (pkg : PackageRecord)
    (ptype : string) (f : Format) :
  c_scope (newComponent allImports pkg ptype f) =
  if truthy (compScope allImports pkg) then compScope allImports pkg else None.
Proof.
  unfold newComponent.
  match goal with
  | |- context [processHashes pkg ?c f] =>
      destruct (processHashes_fields pkg c f) as (_ & _ & -> & _)
  end.
  reflexivity.
Qed.

End ComponentMap.

(** ** The walk *)

Section Walk.

Context `{Env}.
Variables (store : Store) (allImports : option ImportMap) (ptype : string)
  (format : Format).

Local Abbreviation add fuel p l r := (addComponent fuel store allImports p ptype l r format).
Local Abbreviation purl_of := (purlString ptype).
Local Abbreviation comp_of p := (newComponent allImports p ptype format).

(** One unfolding of [addComponent], read off its definition. *)
Lemma addComponent_S fuel pkg l isRootPkg :
  addComponent (S fuel) store allImports pkg ptype l isRootPkg format =
  if pkg_extraneous pkg then Some l
  else if isRootPkg then traverse fuel store allImports ptype format pkg l
  else if isTypesPackage ptype pkg then Some l
  else match get l (purl_of pkg) with
       | Some _ => Some l
       | None =>
           traverse fuel store allImports ptype format pkg
             (l ++ [(purl_of pkg, comp_of pkg)])
       end.
Proof.
  cbn [addComponent]. rewrite newComponent_purl.
  destruct (pkg_extraneous pkg); [reflexivity|].
  destruct isRootPkg; [reflexivity|].
  destruct (isTypesPackage ptype pkg); [reflexivity|].
  destruct (get l (purl_of pkg)) eqn:Hg; [reflexivity|].
  now rewrite (set_fresh _ _ _ Hg).
Qed.

Lemma fold_visit_None fuel ds :
  fold_left (visit fuel store allImports ptype format) ds None = None.
Proof. induction ds; simpl; auto. Qed.

Lemma deref_store d p : deref store d = Some p -> In p store.
Proof.
  destruct d as [s|r]; simpl; [discriminate|]. apply nth_error_In.
Qed.

(** *** Invariants carried by every run *)

Section Invariant.

Variable Q : PackageRecord -> Prop.
Variable I : ListObj -> Prop.
Hypothesis Q_store : forall p, In p store -> Q p.
Hypothesis I_insert :
    forall l p,
      I l -> Q p -> admissible ptype p = true -> get l (purl_of p) = None ->
      I (l ++ [(purl_of p, comp_of p)]).

Lemma traverse_invariant fuel :
    (forall p l r l', Q p -> I l -> add fuel p l r = Some l' -> I l') ->
    forall ds l l',
      I l ->
      fold_left (visit fuel store allImports ptype format) ds (Some l) = Some l' ->
      I l'.
  Proof.
    intros IHf ds. induction ds as [|d ds IHds]; simpl; intros l l' Hl Hrun.
    - now injection Hrun as <-.
    - destruct (deref store d) as [p|] eqn:Hd.
      + destruct (addComponent fuel store allImports p ptype l false format)
          as [l1|] eqn:Hcall.
        * eapply IHds; [|exact Hrun].
          eapply IHf; [|exact Hl|exact Hcall].
          apply Q_store. eapply deref_store; eauto.
        * now rewrite fold_visit_None in Hrun.
      + eapply IHds; eauto.
  Qed.

Lemma addComponent_invariant fuel :
    forall p l r l', Q p -> I l -> add fuel p l r = Some l' -> I l'.
  Proof.
    induction fuel as [|fuel IH]; intros p l r l' Hq Hl Hrun; [discriminate|].
    rewrite addComponent_S in Hrun.
    destruct (pkg_extraneous p) eqn:Hex; [now injection Hrun as <-|].
    destruct r.
    { eapply traverse_invariant; eauto. }
    destruct (isTypesPackage ptype p) eqn:Hty; [now injection Hrun as <-|].
    destruct (get l (purl_of p)) eqn:Hg; [now injection Hrun as <-|].
    eapply traverse_invariant; [exact IH| |exact Hrun].
    apply I_insert; auto. unfold admissible. now rewrite Hex, Hty.
  Qed.

End Invariant.

(** A run only appends to [list]. *)
Lemma addComponent_extends fuel p l r l' :
  add fuel p l r = Some l' -> exists ext, l' = l ++ ext.
Proof.
  intros Hrun.
  apply (addComponent_invariant (fun _ => True) (fun l' => exists ext, l' = l ++ ext))
    with (fuel := fuel) (p := p) (l := l) (r := r); auto.
  - intros l0 p0 [ext ->] _ _ _. rewrite <- app_assoc. eauto.
  - exists []. now rewrite app_nil_r.
Qed.


(** *** Termination *)

Lemma pending_le_store l : pending store ptype l <= List.length store.
Proof. unfold pending. apply filter_length_le. Qed.

Lemma pending_app_le l ext : pending store ptype (l ++ ext) <= pending store ptype l.
Proof.
  unfold pending. induction store as [|p s IH]; simpl; [lia|].
  rewrite get_app.
  destruct (get l (purl_of p)); simpl; [exact IH|].
  destruct (get ext (purl_of p)); simpl; lia.
Qed.

Lemma pending_insert_lt l p c :
  In p store -> get l (purl_of p) = None ->
  pending store ptype (l ++ [(purl_of p, c)]) < pending store ptype l.
Proof.
  unfold pending. induction store as [|q s IH]; simpl; [tauto|].
  intros [->|Hin] Hg.
  - rewrite get_app, Hg. simpl. rewrite String.eqb_refl. simpl.
    pose proof (pending_app_le l [(purl_of p, c)]) as Hle.
    unfold pending in Hle.
    assert (Hs : List.length
              (filter (fun p0 => match get (l ++ [(purl_of p, c)]) (purl_of p0) with
                                 | Some _ => false | None => true end) s)
            <= List.length
              (filter (fun p0 => match get l (purl_of p0) with
                                 | Some _ => false | None => true end) s)).
    { clear. induction s as [|x s IHs]; simpl; [lia|].
      rewrite get_app. destruct (get l (purl_of x)); simpl; [exact IHs|].
      destruct (String.eqb (purl_of p) (purl_of x)); simpl; lia. }
    lia.
  - specialize (IH Hin Hg). rewrite get_app.
    destruct (get l (purl_of q)); simpl; [exact IH|].
    destruct (String.eqb (purl_of p) (purl_of q)); simpl; lia.
Qed.

(** A non-root call on a store record needs one unit of budget per pending
    record, plus one. *)
Lemma addComponent_store_total fuel :
  forall p l,
    In p store -> pending store ptype l < fuel ->
    exists l', add fuel p l false = Some l'.
Proof.
  induction fuel as [|fuel IH]; intros p l Hin Hfuel; [lia|].
  assert (Htrav : forall ds l0,
             pending store ptype l0 < fuel ->
             exists l', fold_left (visit fuel store allImports ptype format) ds
                          (Some l0) = Some l').
  { intros ds. induction ds as [|d ds IHds]; simpl; intros l0 Hl0; [eauto|].
    destruct (deref store d) as [q|] eqn:Hd; [|now apply IHds].
    destruct (IH q l0 (deref_store _ _ Hd) Hl0) as [l1 Hl1].
    rewrite Hl1. apply IHds.
    destruct (addComponent_extends _ _ _ _ _ Hl1) as [ext ->].
    pose proof (pending_app_le l0 ext). lia. }
  rewrite addComponent_S.
  destruct (pkg_extraneous p); [eauto|].
  destruct (isTypesPackage ptype p); [eauto|].
  destruct (get l (purl_of p)) eqn:Hg; [eauto|].
  apply Htrav.
  pose proof (pending_insert_lt l p (comp_of p) Hin Hg). lia.
Qed.

(** Any call, root or not, on any record: one more unit suffices. *)
Lemma addComponent_total fuel p l r :
  S (pending store ptype l) < fuel ->
  exists l', add fuel p l r = Some l'.
Proof.
  destruct fuel as [|fuel]; [lia|]. intros Hfuel.
  assert (Htrav : forall ds l0,
             pending store ptype l0 < fuel ->
             exists l', fold_left (visit fuel store allImports ptype format) ds
                          (Some l0) = Some l').
  { intros ds. induction ds as [|d ds IHds]; simpl; intros l0 Hl0; [eauto|].
    destruct (deref store d) as [q|] eqn:Hd; [|now apply IHds].
    destruct (addComponent_store_total fuel q l0 (deref_store _ _ Hd) Hl0)
      as [l1 Hl1].
    rewrite Hl1. apply IHds.
    destruct (addComponent_extends _ _ _ _ _ Hl1) as [ext ->].
    pose proof (pending_app_le l0 ext). lia. }
  rewrite addComponent_S.
  destruct (pkg_extraneous p); [eauto|].
  destruct r; [apply Htrav; lia|].
  destruct (isTypesPackage ptype p); [eauto|].
  destruct (get l (purl_of p)) eqn:Hg; [eauto|].
  apply Htrav.
  pose proof (pending_app_le l [(purl_of p, comp_of p)]). lia.
Qed.


(** *** What a call leaves behind *)

Lemma addComponent_keeps fuel p l r l' k c :
  add fuel p l r = Some l' -> get l k = Some c -> get l' k = Some c.
Proof.
  intros Hrun Hg. destruct (addComponent_extends _ _ _ _ _ Hrun) as [ext ->].
  now apply get_prefix.
Qed.

Lemma fold_visit_keeps fuel ds :
  forall l l' k c,
    fold_left (visit fuel store allImports ptype format) ds (Some l) = Some l' ->
    get l k = Some c -> get l' k = Some c.
Proof.
  induction ds as [|d ds IHds]; simpl; intros l l' k c Hf Hk.
  - now injection Hf as <-.
  - destruct (deref store d) as [q|]; [|eauto].
    destruct (addComponent fuel store allImports q ptype l false format)
      as [l2|] eqn:Hq; [|now rewrite fold_visit_None in Hf].
    eapply IHds; [exact Hf|]. eapply addComponent_keeps; eauto.
Qed.

(** After a non-root call on an admissible record its package-URL is a key,
    bound to the component that was already there or else to the new one. *)
Lemma addComponent_stores fuel p l l' :
  admissible ptype p = true ->
  add fuel p l false = Some l' ->
  get l' (purl_of p) =
  Some (match get l (purl_of p) with
        | Some c => c
        | None => comp_of p
        end).
Proof.
  unfold admissible. intros Had Hrun.
  apply andb_prop in Had. destruct Had as [Hex Hty].
  apply negb_true_iff in Hex. apply negb_true_iff in Hty.
  destruct fuel as [|fuel]; [discriminate|].
  rewrite addComponent_S, Hex, Hty in Hrun.
  destruct (get l (purl_of p)) eqn:Hg.
  - now injection Hrun as <-.
  - eapply fold_visit_keeps; [exact Hrun|].
    rewrite get_app, Hg. simpl. now rewrite String.eqb_refl.
Qed.

(** A record whose package-URL is already a key is dropped: nothing is
    added and nothing below it is visited. *)
Lemma addComponent_drops fuel p l c :
  get l (purl_of p) = Some c -> add (S fuel) p l false = Some l.
Proof.
  intros Hg. rewrite addComponent_S, Hg.
  destruct (pkg_extraneous p); [reflexivity|].
  now destruct (isTypesPackage ptype p).
Qed.

(** Every admissible object among the dependencies has its package-URL
    among the keys once the traversal is over. *)
Lemma traverse_covers_children fuel pkg l l' d q :
  traverse fuel store allImports ptype format pkg l = Some l' ->
  In d (dependencyObjects pkg) -> deref store d = Some q ->
  admissible ptype q = true ->
  exists c, get l' (purl_of q) = Some c.
Proof.
  unfold traverse. revert l.
  induction (dependencyObjects pkg) as [|d0 ds IHds]; simpl; intros l Hf Hin Hd Had;
    [tauto|].
  destruct Hin as [->|Hin].
  - rewrite Hd in Hf.
    destruct (addComponent fuel store allImports q ptype l false format)
      as [l2|] eqn:Hq; [|now rewrite fold_visit_None in Hf].
    pose proof (addComponent_stores _ _ _ _ Had Hq) as Hst.
    eexists. eapply fold_visit_keeps; [exact Hf|exact Hst].
  - destruct (deref store d0) as [q0|]; [|eauto].
    destruct (addComponent fuel store allImports q0 ptype l false format)
      as [l2|] eqn:Hq; [|now rewrite fold_visit_None in Hf].
    eauto.
Qed.

(** The keys of a walked map are the package-URLs of its components. *)
Lemma from_records_purls (Q : PackageRecord -> Prop) l :
  from_records allImports ptype format Q l -> map (fun kc => c_purl (snd kc)) l = Object_keys l.
Proof.
  unfold Object_keys. induction l as [|[k c] l IH]; simpl; intros Hl; [reflexivity|].
  f_equal.
  - destruct (Hl k c (or_introl eq_refl)) as (p & _ & _ & -> & ->).
    apply newComponent_purl.
  - apply IH. intros k' c' Hin. apply Hl. now right.
Qed.

Lemma fold_add_None fuel ps :
  fold_left
    (fun acc p =>
       match acc with
       | Some l => addComponent fuel store allImports p ptype l false format
       | None => None
       end) ps None = None.
Proof. induction ps; simpl; auto. Qed.

(** *** Which records a walk reaches *)

Section Reach.

Variable U : PackageRecord -> Prop.
Hypothesis U_store : forall p, In p store -> U p.
Hypothesis purl_inj : forall p q, U p -> U q -> purl_of p = purl_of q -> p = q.

Local Abbreviation step fuel :=
    (fun acc p =>
       match acc with
       | Some l => addComponent fuel store allImports p ptype l false format
       | None => None
       end).

Lemma fold_visit_objects fuel ds acc :
    fold_left (visit fuel store allImports ptype format) ds acc =
    fold_left (step fuel) (objects store ds) acc.
  Proof.
    revert acc. induction ds as [|d ds IHds]; simpl; intros acc; [reflexivity|].
    rewrite fold_left_app, <- IHds. f_equal.
    unfold visit. destruct acc as [l|]; destruct (deref store d); reflexivity.
  Qed.

Lemma In_objects ds q :
    In q (objects store ds) <-> exists d, In d ds /\ deref store d = Some q.
  Proof.
    unfold objects. rewrite in_flat_map. split; intros (d & Hd & Hq); exists d.
    - destruct (deref store d) as [q'|]; simpl in Hq; [|tauto].
      destruct Hq as [->|[]]. auto.
    - rewrite Hq. simpl. auto.
  Qed.

Lemma objects_store ds q : In q (objects store ds) -> In q store.
  Proof. rewrite In_objects. intros (d & _ & Hd). eapply deref_store; eauto. Qed.

Lemma child_store p c : child store p c -> In c store.
  Proof. intros (d & _ & Hd). eapply deref_store; eauto. Qed.

Lemma key_dec l k : {c | get l k = Some c} + {get l k = None}.
  Proof. destruct (get l k) as [c|]; eauto. Qed.

Lemma In_keys_iff l k : In k (Object_keys l) <-> exists c, get l k = Some c.
  Proof.
    split.
    - intros Hin. destruct (get l k) as [c|] eqn:Hg; [eauto|].
      apply get_None_iff in Hg. tauto.
    - intros [c Hc]. apply get_Some_In in Hc.
      change k with (fst (k, c)). now apply in_map.
  Qed.

Lemma reach_start l p q :
    reach store ptype l p q ->
    admissible ptype p = true /\ get l (purl_of p) = None.
  Proof. intros Hr. destruct Hr; auto. Qed.

Lemma reach_trans l p q r :
    reach store ptype l p q -> reach store ptype l q r -> reach store ptype l p r.
  Proof.
    intros Hpq Hqr. induction Hpq as [p Ha Hg|p c q Ha Hg Hc Hcq IH]; [exact Hqr|].
    eapply reach_step; eauto.
  Qed.

Lemma reach_U l p q : U p -> reach store ptype l p q -> U q.
  Proof.
    intros Hp Hr. induction Hr as [p Ha Hg|p c q Ha Hg Hc Hcq IH]; [exact Hp|].
    apply IH. apply U_store. eapply child_store; eauto.
  Qed.

  (** Fewer keys, more paths. *)
Lemma reach_mono l l1 p q :
    (forall k, get l1 k = None -> get l k = None) ->
    reach store ptype l1 p q -> reach store ptype l p q.
  Proof.
    intros Hsub Hr. induction Hr as [p Ha Hg|p c q Ha Hg Hc Hcq IH].
    - apply reach_here; auto.
    - eapply reach_step; eauto.
  Qed.

  (** A path that avoids the keys of [l] either also avoids [p], or ends at
      [p], or leaves [p] for the last time through one of its children. *)
Lemma reach_split l p c0 x q :
    U p -> U x ->
    reach store ptype l x q ->
    reach store ptype (l ++ [(purl_of p, c0)]) x q
    \/ purl_of q = purl_of p
    \/ exists c, child store p c /\ reach store ptype (l ++ [(purl_of p, c0)]) c q.
  Proof.
    intros Hp Hx Hr. induction Hr as [x Ha Hg|x c q Ha Hg Hc Hcq IH].
    - destruct (String.eqb_spec (purl_of p) (purl_of x)) as [Heq|Hne]; [now auto|].
      left. apply reach_here; [exact Ha|].
      rewrite get_app, Hg. simpl.
      destruct (String.eqb_spec (purl_of p) (purl_of x)); [contradiction|reflexivity].
    - assert (Hc' : U c) by (apply U_store; eapply child_store; eauto).
      destruct (IH Hc') as [Hleft|[Hmid|Hright]]; [|now auto|now auto].
      destruct (String.eqb_spec (purl_of p) (purl_of x)) as [Heq|Hne].
      + assert (x = p) by (apply purl_inj; auto). subst x. right. right. eauto.
      + left. eapply reach_step; eauto.
        rewrite get_app, Hg. simpl.
        destruct (String.eqb_spec (purl_of p) (purl_of x)); [contradiction|reflexivity].
  Qed.

  (** Once the walk from [c] is over, a path from anywhere else either
      still avoids all keys or ends at a key. *)
Lemma reach_absorb l l1 c x q :
    U c -> U x ->
    keys_after store ptype l l1 (eq c) ->
    reach store ptype l x q ->
    reach store ptype l1 x q \/ In (purl_of q) (Object_keys l1).
  Proof.
    intros Hc Hx Hkeys Hr.
    induction Hr as [x Ha Hg|x c1 q Ha Hg Hch Hcq IH].
    - destruct (key_dec l1 (purl_of x)) as [[c' Hc']|Hnone].
      + right. apply In_keys_iff. eauto.
      + left. now apply reach_here.
    - assert (Hc1 : U c1) by (apply U_store; eapply child_store; eauto).
      destruct (IH Hc1) as [Hleft|Hright]; [|now auto].
      destruct (key_dec l1 (purl_of x)) as [[c' Hc']|Hnone].
      + right.
        assert (Hin : In (purl_of x) (Object_keys l1)) by (apply In_keys_iff; eauto).
        apply Hkeys in Hin. destruct Hin as [Hin|(p0 & q0 & Hp0 & Hr0 & Heq)].
        * apply get_None_iff in Hg. contradiction.
        * subst p0.
          assert (x = q0).
          { apply purl_inj; [exact Hx| |exact Heq]. exact (reach_U l c q0 Hc Hr0). }
          subst q0. apply Hkeys. right. exists c, q. repeat split.
          eapply reach_trans; [exact Hr0|]. eapply reach_step; eauto.
      + left. eapply reach_step; eauto.
  Qed.

Lemma keys_after_sub l l1 S k :
    keys_after store ptype l l1 S -> get l1 k = None -> get l k = None.
  Proof.
    intros Hkeys Hnone. apply get_None_iff. intros Hin.
    apply get_None_iff in Hnone. apply Hnone. apply Hkeys. now left.
  Qed.

  (** Walking a list of records one after the other. *)
Lemma fold_step_keys fuel :
    (forall p l l', U p -> add fuel p l false = Some l' -> keys_after store ptype l l' (eq p)) ->
    forall ps l l',
      (forall p, In p ps -> U p) ->
      fold_left (step fuel) ps (Some l) = Some l' ->
      keys_after store ptype l l' (fun p => In p ps).
  Proof.
    intros Hcall ps. induction ps as [|p ps IHps]; simpl; intros l l' HU Hf.
    - injection Hf as <-. intros k. split; [auto|].
      intros [Hin|(p & q & [] & _)]. exact Hin.
    - destruct (addComponent fuel store allImports p ptype l false format)
        as [l1|] eqn:Hp; [|now rewrite fold_add_None in Hf].
      assert (Hk1 : keys_after store ptype l l1 (eq p)) by (apply Hcall; auto).
      assert (Hk2 : keys_after store ptype l1 l' (fun p => In p ps)) by (apply IHps; auto).
      intros k. rewrite (Hk2 k). split.
      + intros [Hin|(p' & q & Hin & Hr & ->)].
        * apply Hk1 in Hin. destruct Hin as [Hin|(p' & q & <- & Hr & ->)]; [now left|].
          right. exists p, q. auto.
        * right. exists p', q. repeat split; auto.
          eapply reach_mono; [|exact Hr]. intros k. eapply keys_after_sub; eauto.
      + intros [Hin|(p' & q & [<-|Hin] & Hr & ->)].
        * left. apply Hk1. now left.
        * left. apply Hk1. right. exists p, q. auto.
        * destruct (reach_absorb l l1 p p' q) as [Hr1|Hkey]; auto.
          right. exists p', q. auto.
  Qed.

  (** The keys a non-root call adds are the package-URLs of the records it
      can reach without crossing an existing key. *)
Lemma addComponent_keys fuel :
    forall p l l', U p -> add fuel p l false = Some l' -> keys_after store ptype l l' (eq p).
  Proof.
    induction fuel as [|fuel IH]; intros p l l' Hp Hrun; [discriminate|].
    rewrite addComponent_S in Hrun.
    assert (Hstay : (admissible ptype p = false \/ exists c, get l (purl_of p) = Some c) ->
                    keys_after store ptype l l (eq p)).
    { intros Hno k. split; [auto|]. intros [Hin|(p0 & q & <- & Hr & _)]; [exact Hin|].
      apply reach_start in Hr. destruct Hr as [Ha Hg].
      destruct Hno as [Hna|[c Hc]]; congruence. }
    unfold admissible in Hstay.
    destruct (pkg_extraneous p) eqn:Hex.
    { injection Hrun as <-. apply Hstay. now left. }
    destruct (isTypesPackage ptype p) eqn:Hty.
    { injection Hrun as <-. apply Hstay. now left. }
    destruct (get l (purl_of p)) as [c|] eqn:Hg.
    { injection Hrun as <-. apply Hstay. eauto. }
    clear Hstay. unfold traverse in Hrun. rewrite fold_visit_objects in Hrun.
    set (l1 := l ++ [(purl_of p, comp_of p)]) in *.
    assert (Hk : keys_after store ptype l1 l' (fun c => In c (objects store (dependencyObjects p)))).
    { eapply fold_step_keys; [exact IH| |exact Hrun].
      intros c Hc. apply U_store. eapply objects_store; eauto. }
    assert (Had : admissible ptype p = true) by (unfold admissible; now rewrite Hex, Hty).
    assert (Hsub : forall k, get l1 k = None -> get l k = None).
    { intros k. unfold l1. rewrite get_app. now destruct (get l k). }
    intros k. rewrite (Hk k). unfold l1 at 1. rewrite keys_app. simpl. rewrite in_app_iff.
    simpl. split.
    - intros [[Hin|[<-|[]]]|(c & q & Hc & Hr & ->)].
      + now left.
      + right. exists p, p. repeat split. now apply reach_here.
      + right. exists p, q. repeat split.
        eapply reach_step; eauto.
        * apply In_objects in Hc. exact Hc.
        * eapply reach_mono; eauto.
    - intros [Hin|(p0 & q & <- & Hr & ->)]; [now auto|].
      destruct (reach_split l p (comp_of p) p q Hp Hp Hr) as [H1|[H2|(c & Hc & H3)]].
      + apply reach_start in H1. destruct H1 as [_ H1]. fold l1 in H1.
        unfold l1 in H1. rewrite get_app, Hg in H1. simpl in H1.
        rewrite String.eqb_refl in H1. discriminate.
      + left. right. left. now symmetry.
      + right. exists c, q. repeat split; auto. apply In_objects. exact Hc.
  Qed.

End Reach.

(** *** The walk of [listComponents] *)

(** Every admissible record of a walked array has its package-URL among the
    keys. *)
Lemma fold_add_keeps fuel ps :
  forall l l' k c,
    fold_left
      (fun acc p =>
         match acc with
         | Some l => addComponent fuel store allImports p ptype l false format
         | None => None
         end) ps (Some l) = Some l' ->
    get l k = Some c -> get l' k = Some c.
Proof.
  induction ps as [|p ps IHps]; simpl; intros l l' k c Hf Hk.
  - now injection Hf as <-.
  - destruct (addComponent fuel store allImports p ptype l false format)
      as [l1|] eqn:Hp; [|now rewrite fold_add_None in Hf].
    eapply IHps; [exact Hf|]. eapply addComponent_keeps; eauto.
Qed.

Lemma collect_covers_array fuel ps l p :
  collect fuel store allImports (PkgArray ps) ptype format = Some l ->
  In p ps -> admissible ptype p = true ->
  exists c, get l (purl_of p) = Some c.
Proof.
  simpl. generalize (@nil (string * Component)).
  induction ps as [|p0 ps IHps]; simpl; intros l0 Hf Hin Had; [tauto|].
  destruct (addComponent fuel store allImports p0 ptype l0 false format)
    as [l1|] eqn:Hp0; [|now rewrite fold_add_None in Hf].
  destruct Hin as [->|Hin].
  - pose proof (addComponent_stores _ _ _ _ Had Hp0) as Hst.
    eexists. eapply fold_add_keeps; [exact Hf|exact Hst].
  - eapply IHps; eauto.
Qed.

Lemma collect_invariant (Q : PackageRecord -> Prop) (I : ListObj -> Prop)
    fuel pkg l :
  (forall p, In p store -> Q p) ->
  (match pkg with
   | PkgArray ps => forall p, In p ps -> Q p
   | PkgSingle p => Q p
   end) ->
  (forall l p,
      I l -> Q p -> admissible ptype p = true -> get l (purl_of p) = None ->
      I (l ++ [(purl_of p, comp_of p)])) ->
  I [] ->
  collect fuel store allImports pkg ptype format = Some l -> I l.
Proof.
  intros HQs HQp Hins Hnil. destruct pkg as [ps|p]; simpl.
  - assert (Hgen : forall l0 l1,
               (forall p, In p ps -> Q p) -> I l0 ->
               fold_left
                 (fun acc p =>
                    match acc with
                    | Some l => addComponent fuel store allImports p ptype l false format
                    | None => None
                    end) ps (Some l0) = Some l1 -> I l1).
    { clear HQp. induction ps as [|p ps IHps]; simpl; intros l0 l1 Hall Hl0 Hf.
      - now injection Hf as <-.
      - destruct (addComponent fuel store allImports p ptype l0 false format)
          as [l2|] eqn:Hp.
        + eapply IHps; [| |exact Hf]; auto.
          eapply (addComponent_invariant Q I); eauto.
        + now rewrite fold_add_None in Hf. }
    intros Hf. eapply Hgen; eauto.
  - intros Hf. eapply (addComponent_invariant Q I); eauto.
Qed.

Lemma collect_total fuel pkg :
  walk_fuel store <= fuel ->
  exists l, collect fuel store allImports pkg ptype format = Some l.
Proof.
  unfold walk_fuel. intros Hfuel. destruct pkg as [ps|p]; simpl.
  - assert (Hgen : forall l0,
               exists l1,
                 fold_left
                   (fun acc p =>
                      match acc with
                      | Some l => addComponent fuel store allImports p ptype l false format
                      | None => None
                      end) ps (Some l0) = Some l1).
    { induction ps as [|p ps IHps]; simpl; intros l0; [eauto|].
      destruct (addComponent_total fuel p l0 false) as [l2 ->]; [|apply IHps].
      pose proof (pending_le_store l0). lia. }
    apply Hgen.
  - apply addComponent_total. pose proof (pending_le_store []). lia.
Qed.


(** The keys of the walked map are the package-URLs of the reachable
    records, when package-URLs identify records. *)
Lemma collect_keys fuel pkg l :
  purl_identifies ptype (tops pkg ++ store) ->
  collect fuel store allImports pkg ptype format = Some l ->
  forall k,
    In k (Object_keys l) <-> exists q, reachable store ptype pkg q /\ k = purl_of q.
Proof.
  intros Hinj Hrun.
  set (U := fun p => In p (tops pkg ++ store)).
  assert (HUs : forall p, In p store -> U p)
    by (intros p Hp; apply in_or_app; now right).
  assert (HUt : forall p, In p (tops pkg) -> U p)
    by (intros p Hp; apply in_or_app; now left).
  assert (Hcall : forall fuel p l l',
             U p -> add fuel p l false = Some l' -> keys_after store ptype l l' (eq p)).
  { intros f. apply (addComponent_keys U HUs Hinj). }
  destruct pkg as [ps|p]; simpl in Hrun; unfold reachable.
  - pose proof (fold_step_keys U HUs Hinj fuel (Hcall fuel) ps [] l HUt Hrun) as Hk.
    intros k. rewrite (Hk k). simpl. split.
    + intros [[]|(p & q & Hp & Hr & ->)]. eauto.
    + intros (q & (p & Hp & Hr) & ->). right. eauto.
  - destruct (String.eqb ptype "npm") eqn:Hnpm.
    + destruct fuel as [|fuel]; [discriminate|].
      rewrite addComponent_S in Hrun.
      destruct (pkg_extraneous p) eqn:Hex.
      * injection Hrun as <-. intros k. simpl. split; [tauto|].
        intros (q & (Hne & _) & _). discriminate.
      * unfold traverse in Hrun. rewrite fold_visit_objects in Hrun.
        assert (Hk : keys_after store ptype [] l (fun c => In c (objects store (dependencyObjects p)))).
        { eapply (fold_step_keys U HUs Hinj); [apply Hcall| |exact Hrun].
          intros c Hc. apply HUs. eapply objects_store; eauto. }
        intros k. rewrite (Hk k). simpl. split.
        -- intros [[]|(c & q & Hc & Hr & ->)]. exists q. repeat split; auto.
           exists c. split; [|exact Hr]. apply In_objects in Hc. exact Hc.
        -- intros (q & (_ & c & Hc & Hr) & ->). right. exists c, q.
           repeat split; auto. apply In_objects. exact Hc.
    + assert (Hk : keys_after store ptype [] l (eq p)).
      { apply (Hcall fuel); [|exact Hrun]. apply HUt. simpl. now left. }
      intros k. rewrite (Hk k). simpl. split.
      * intros [[]|(p0 & q & <- & Hr & ->)]. eauto.
      * intros (q & Hr & ->). right. eauto.
Qed.

End Walk.

(** ** String entries of [dependencies] *)

Section Strings.

Context `{Env}.





End Strings.

(** ** listComponents *)

Section ListComponents.

Context `{Env}.
Variables (store : Store) (allImports : option ImportMap) (pkg : PkgInfo)
  (ptype : string) (format : Format).

Lemma item_purls_items l :
  item_purls (items format l) = map (fun kc => c_purl (snd kc)) l.
Proof.
  unfold item_purls, items. rewrite map_map.
  apply map_ext. intros [k c]. now destruct format.
Qed.

(** [listComponents] always returns; what it returns is the walked map, in
    order, whose keys are distinct and whose entries are the components of
    admissible records of the input. *)
Lemma listComponents_walked :
  exists l,
    collect (walk_fuel store) store allImports pkg ptype format = Some l /\
    listComponents store allImports pkg ptype format = Some (items format l) /\
    NoDup (Object_keys l) /\
    from_records allImports ptype format (fun p => In p (tops pkg ++ store)) l /\
    item_purls (items format l) = Object_keys l.
Proof.
  destruct (collect_total store allImports ptype format (walk_fuel store) pkg
              (le_n _)) as [l Hl].
  assert (Hfrom : from_records allImports ptype format
                    (fun p => In p (tops pkg ++ store)) l).
  { apply (collect_invariant store allImports ptype format
             (fun p => In p (tops pkg ++ store))
             (from_records allImports ptype format (fun p => In p (tops pkg ++ store)))
             (walk_fuel store) pkg l); auto.
    - intros p Hp. apply in_or_app. now right.
    - destruct pkg as [ps|p]; simpl.
      + intros p Hp. apply in_or_app. now left.
      + now left.
    - intros l0 p0 Hl0 Hq0 Had _ k c Hin.
      apply in_app_or in Hin. destruct Hin as [Hin|[Heq|[]]]; [now apply Hl0|].
      injection Heq as <- <-. exists p0. auto.
    - intros k c []. }
  exists l. repeat split; auto.
  - unfold listComponents, listComponents_fuel. now rewrite Hl.
  - apply (collect_invariant store allImports ptype format (fun _ => True)
             (fun l => NoDup (Object_keys l)) (walk_fuel store) pkg l); auto.
    + now destruct pkg.
    + intros l0 p0 Hl0 _ _ Hg. now apply NoDup_keys_snoc.
    + constructor.
  - rewrite item_purls_items. eapply from_records_purls; eauto.
Qed.


(** Every listed component is the component of an admissible record of the
    input. *)
Lemma listComponents_provenance out i :
  listComponents store allImports pkg ptype format = Some out ->
  In i out ->
  exists p,
    In p (tops pkg ++ store) /\ admissible ptype p = true /\
    item_component i = newComponent allImports p ptype format.
Proof.
  intros Hout Hin.
  destruct listComponents_walked as (l & _ & Hout' & _ & Hfrom & _).
  rewrite Hout' in Hout. injection Hout as <-.
  unfold items in Hin. apply in_map_iff in Hin. destruct Hin as ([k c] & Hi & Hin).
  destruct (Hfrom k c Hin) as (p & Hp & Had & _ & ->).
  exists p. repeat split; auto. subst i. now destruct format.
Qed.

End ListComponents.


(** ** Scope *)

Section Scope.

Context `{Env}.

Lemma includes_In (arr : list string) (x : string) :
  includes arr x = true <-> In x arr.
Proof.
  unfold includes. rewrite existsb_exists. split.
  - intros (y & Hin & Heq). apply String.eqb_eq in Heq. now subst.
  - intros Hin. exists x. split; [exact Hin|apply String.eqb_refl].
Qed.

(** [compScope] by cases on the import keys. *)
Lemma compScope_cases (allImports : option ImportMap) (pkg : PackageRecord) :
  compScope allImports pkg =
  if existsb (includes (importKeys allImports)) (scopeCandidates pkg)
  then Some "required"
  else match importKeys allImports with
       | [] => pkg_scope pkg
       | _ => Some "optional"
       end.
Proof.
  unfold compScope, importKeys, scopeCandidates.
  destruct allImports as [imports|]; simpl.
  - rewrite orb_false_r, !orb_assoc.
    destruct (_ || _ || _ || _ || _); [reflexivity|].
    now destruct (map fst imports).
  - reflexivity.
Qed.

End Scope.

(** ** Base64 and hex *)

Section Base64.

Local Ltac nlia := zify; Z.to_euclidean_division_equations; lia.

Lemma unbase64_base64_char (n : N) :
  (n < 64)%N -> Buffer.unbase64 (Buffer.base64_char n) = Some n.
Proof.
  intros Hn.
  assert (Hall : forallb
                   (fun m => match Buffer.unbase64 (Buffer.base64_char m) with
                             | Some k => N.eqb k m
                             | None => false
                             end)
                   (map N.of_nat (seq 0 64)) = true) by (vm_compute; reflexivity).
  rewrite forallb_forall in Hall.
  specialize (Hall n).
  destruct (Buffer.unbase64 (Buffer.base64_char n)) as [k|].
  - f_equal. apply N.eqb_eq. apply Hall.
    rewrite <- (N2Nat.id n). apply in_map. apply in_seq. lia.
  - assert (false = true); [|discriminate]. apply Hall.
    rewrite <- (N2Nat.id n). apply in_map. apply in_seq. lia.
Qed.

Lemma byte_of_N_eq (n : N) (b : byte) :
  (n mod 256 = Byte.to_N b)%N -> Buffer.byte_of_N n = b.
Proof. unfold Buffer.byte_of_N. intros ->. now rewrite Byte.of_to_N. Qed.

(** Lists, three elements at a time. *)
Lemma list_ind3 {A : Type} (P : list A -> Prop) :
  P [] -> (forall a, P [a]) -> (forall a b, P [a; b]) ->
  (forall a b c rest, P rest -> P (a :: b :: c :: rest)) ->
  forall l, P l.
Proof.
  intros H0 H1 H2 H3 l.
  assert (Hlen : forall n l, List.length l <= n -> P l).
  { clear l. induction n as [|n IH]; intros l Hl.
    - destruct l; [exact H0|simpl in Hl; lia].
    - destruct l as [|a [|b [|c rest]]]; auto.
      apply H3. apply IH. simpl in Hl. lia. }
  apply (Hlen (List.length l)). lia.
Qed.

Lemma sextets_to_base64 (bs : list byte) :
  Buffer.sextets (Buffer.to_base64 bs) = encode_sextets bs.
Proof.
  induction bs as [|a|a b|a b c rest IH] using list_ind3.
  - reflexivity.
  - pose proof (Byte.to_N_bounded a).
    cbn [Buffer.to_base64 Buffer.sextets encode_sextets].
    rewrite !unbase64_base64_char by nlia. reflexivity.
  - pose proof (Byte.to_N_bounded a). pose proof (Byte.to_N_bounded b).
    cbn [Buffer.to_base64 Buffer.sextets encode_sextets].
    rewrite !unbase64_base64_char by nlia. reflexivity.
  - pose proof (Byte.to_N_bounded a). pose proof (Byte.to_N_bounded b).
    pose proof (Byte.to_N_bounded c).
    cbn [Buffer.to_base64 Buffer.sextets encode_sextets].
    rewrite !unbase64_base64_char by nlia. now rewrite IH.
Qed.

Lemma decode_encode_sextets (bs : list byte) :
  Buffer.decode_sextets (encode_sextets bs) = bs.
Proof.
  induction bs as [|a|a b|a b c rest IH] using list_ind3.
  - reflexivity.
  - pose proof (Byte.to_N_bounded a).
    cbn [Buffer.decode_sextets encode_sextets].
    f_equal. apply byte_of_N_eq. nlia.
  - pose proof (Byte.to_N_bounded a). pose proof (Byte.to_N_bounded b).
    cbn [Buffer.decode_sextets encode_sextets].
    f_equal; [|f_equal]; apply byte_of_N_eq; nlia.
  - pose proof (Byte.to_N_bounded a). pose proof (Byte.to_N_bounded b).
    pose proof (Byte.to_N_bounded c).
    cbn [Buffer.decode_sextets encode_sextets].
    rewrite IH. f_equal; [|f_equal; [|f_equal]]; apply byte_of_N_eq; nlia.
Qed.

(** Decoding what [to_base64] wrote gives the bytes back. *)
Lemma from_base64_to_base64 (bs : list byte) :
  Buffer.from_base64 (Buffer.to_base64 bs) = bs.
Proof.
  unfold Buffer.from_base64. now rewrite sextets_to_base64, decode_encode_sextets.
Qed.

(** [to_hex] writes lowercase hexadecimal digits only. *)
Lemma to_hex_lower (bs : list byte) :
  all_chars is_lower_hex (Buffer.to_hex bs) = true.
Proof.
  induction bs as [|b bs IH]; [reflexivity|].
  cbn [Buffer.to_hex all_chars]. rewrite IH.
  destruct b; reflexivity.
Qed.

End Base64.

(** ** Hashes *)

Section Hashes.

Context `{Env}.

Lemma push_hash_hashes (c : Component) (h : HashEntry) :
  c_hashes (push_hash c h) = option_map (fun hs => hs ++ [h]) (c_hashes c).
Proof. reflexivity. Qed.

Lemma delete_empty_hashes_hashes (c : Component) :
  c_hashes (delete_empty_hashes c) =
  match c_hashes c with
  | Some hs => omit_if_empty hs
  | None => None
  end.
Proof.
  unfold delete_empty_hashes.
  destruct (c_hashes c) as [[|h hs]|] eqn:Hc; simpl; auto.
Qed.

Lemma addIfOwn_hashes (i : Integrity) (key alg : string) (c : Component)
    (format : Format) :
  c_hashes (addIfOwn i key alg c format) =
  option_map
    (fun hs =>
       hs ++ match own i key with
             | Some (digest, _) => [mkHash format alg (normalizeDigest digest)]
             | None => []
             end)
    (c_hashes c).
Proof.
  unfold addIfOwn, addComponentHash.
  destruct (own i key) as [[digest others]|].
  - apply push_hash_hashes.
  - destruct (c_hashes c); simpl; [now rewrite app_nil_r|reflexivity].
Qed.

Lemma processHashes_hashes (pkg : PackageRecord) (c : Component) (format : Format) :
  c_hashes (processHashes pkg c format) =
  match c_hashes c with
  | Some before => omit_if_empty (before ++ hashes_by_precedence pkg format)
  | None => None
  end.
Proof.
  unfold processHashes, hashes_by_precedence.
  rewrite delete_empty_hashes_hashes.
  destruct (truthy (pkg_shasum pkg)).
  - rewrite push_hash_hashes. now destruct (c_hashes c).
  - destruct (truthy (pkg_integrity pkg)).
    + rewrite !addIfOwn_hashes. unfold hashPriority. simpl.
      destruct (c_hashes c) as [before|]; simpl; [|reflexivity].
      now rewrite app_nil_r, <- !app_assoc.
    + destruct (c_hashes c) as [before|]; [|reflexivity].
      now rewrite app_nil_r.
Qed.

End Hashes.

(** ** The envelope *)

Section Envelope.

Context {E : Env} {P : Serializer}.

(** In deterministic mode the XML document does not depend on the draws of
    the run: no serial number, the fixed timestamp. *)
Lemma xmlDocument_deterministic (w1 w2 : World) (context : BomContext)
    (components : list Item) :
  xmlDocument w1 true context components = xmlDocument w2 true context components
  /\ x_serialNumber (xmlDocument w1 true context components) = None
  /\ timestamp (x_metadata (xmlDocument w1 true context components))
     = "2022-06-03T09:34:10.062Z".
Proof. repeat split. Qed.

(** So the XML string and the namespace mapping of two deterministic runs
    over the same input agree. *)
Lemma buildBomString_deterministic_xml (w1 w2 : World) (store : Store)
    (pkgInfo : PkgInfo) (ptype : string) (context : BomContext)
    (x1 x2 j1 j2 : string) (n1 n2 : NsMapping) :
  buildBomString w1 store true pkgInfo ptype context = Some (BomArguments x1 j1 n1) ->
  buildBomString w2 store true pkgInfo ptype context = Some (BomArguments x2 j2 n2) ->
  x1 = x2 /\ n1 = n2.
Proof.
  unfold buildBomString.
  destruct (listComponents store (Some (contextImports context)) pkgInfo ptype xml)
    as [[|c comps]|]; try discriminate.
  destruct (listComponents store (Some (contextImports context)) pkgInfo ptype json);
    try discriminate.
  intros [= <- _ <-] [= <- _ <-]. split; [|reflexivity].
  apply (f_equal bom_end). apply xmlDocument_deterministic.
Qed.

End Envelope.

(** ** The listed records are closed under dependency *)

Section Closure.

Context `{Env}.
Variables (store : Store) (allImports : option ImportMap) (ptype : string)
  (format : Format).
Variable Q : PackageRecord -> Prop.
Hypothesis Q_store : forall q, In q store -> Q q.

Local Abbreviation closed l k c :=
  (closed_entry store allImports ptype format Q l k c).

(** The dependency objects of a record are the objects the walk visits. *)
Lemma child_dependency_object (p q : PackageRecord) :
  child store p q <-> dependency_object store p q.
Proof.
  unfold child, dependency_object, dependencyObjects. split.
  - intros (d & Hin & Hd).
    destruct (pkg_dependencies p) as [deps|]; [|contradiction].
    apply filter_In in Hin. destruct Hin as [Hin Hns].
    apply in_map_iff in Hin. destruct Hin as ([name d'] & Hsnd & Hin).
    simpl in Hsnd. subst d'.
    destruct d as [v|r]; [discriminate|].
    exists deps, name, r. auto.
  - intros (deps & name & r & Hdeps & Hin & Hr).
    exists (DepObject r). rewrite Hdeps. split; [|exact Hr].
    apply filter_In. split; [|reflexivity].
    apply in_map_iff. exists (name, DepObject r). auto.
Qed.

Lemma closed_entry_mono (l l' : ListObj) (k : string) (c : Component) :
  (forall k0 c0, get l k0 = Some c0 -> get l' k0 = Some c0) ->
  closed l k c -> closed l' k c.
Proof.
  intros Hkeep (p & Hq & Had & Hk & Hc & Hdeps).
  exists p. repeat split; auto.
  intros q Hdep Hadq. destruct (Hdeps q Hdep Hadq) as [c' Hc']. eauto.
Qed.

(** What a traversal adds is closed, when every call below is. *)
Lemma traverse_closed fuel :
  (forall p l r l',
      Q p -> addComponent fuel store allImports p ptype l r format = Some l' ->
      forall k c, In (k, c) l' -> In (k, c) l \/ closed l' k c) ->
  forall ds l l',
    fold_left (visit fuel store allImports ptype format) ds (Some l) = Some l' ->
    forall k c, In (k, c) l' -> In (k, c) l \/ closed l' k c.
Proof.
  intros IH ds. induction ds as [|d ds IHds]; simpl; intros l l' Hf k c Hin.
  - injection Hf as <-. now left.
  - destruct (deref store d) as [q|] eqn:Hd; [|eauto].
    destruct (addComponent fuel store allImports q ptype l false format)
      as [l2|] eqn:Hq; [|now rewrite fold_visit_None in Hf].
    destruct (IHds l2 l' Hf k c Hin) as [Hin2|Hcl]; [|now right].
    destruct (IH q l false l2 (Q_store q (deref_store store d q Hd)) Hq k c Hin2)
      as [Hinl|Hcl]; [now left|right].
    apply (closed_entry_mono l2 l'); [|exact Hcl].
    intros k0 c0. now apply (fold_visit_keeps store allImports ptype format fuel ds).
Qed.

(** Every entry a call adds is closed once the call is over. *)
Lemma addComponent_closed fuel :
  forall p l r l',
    Q p -> addComponent fuel store allImports p ptype l r format = Some l' ->
    forall k c, In (k, c) l' -> In (k, c) l \/ closed l' k c.
Proof.
  induction fuel as [|fuel IH]; intros p l r l' Hp Hrun k c Hin; [discriminate|].
  rewrite addComponent_S in Hrun.
  destruct (pkg_extraneous p) eqn:Hex; [injection Hrun as <-; now left|].
  destruct r.
  { eapply traverse_closed; eauto. }
  destruct (isTypesPackage ptype p) eqn:Hty; [injection Hrun as <-; now left|].
  destruct (get l (purlString ptype p)) eqn:Hg; [injection Hrun as <-; now left|].
  destruct (traverse_closed fuel IH _ _ _ Hrun k c Hin) as [Hin1|Hcl]; [|now right].
  apply in_app_or in Hin1. destruct Hin1 as [Hin1|[Heq|[]]]; [now left|right].
  injection Heq as <- <-.
  assert (Had : admissible ptype p = true)
    by (unfold admissible; now rewrite Hex, Hty).
  exists p. repeat split; auto.
  intros q Hdep Hadq. apply child_dependency_object in Hdep.
  destruct Hdep as (d & Hd & Hq).
  exact (traverse_covers_children store allImports ptype format fuel p _ l' d q
           Hrun Hd Hq Hadq).
Qed.

End Closure.

(** Every entry of the walked map of [listComponents] is closed. *)
Lemma collect_closed `{Env} (store : Store) (allImports : option ImportMap)
    (ptype : string) (format : Format) (fuel : nat) (pkg : PkgInfo) (l : ListObj) :
  collect fuel store allImports pkg ptype format = Some l ->
  forall k c,
    In (k, c) l ->
    closed_entry store allImports ptype format
      (fun p => In p (tops pkg ++ store)) l k c.
Proof.
  set (Q := fun p => In p (tops pkg ++ store)).
  assert (HQs : forall q, In q store -> Q q)
    by (intros q Hq; apply in_or_app; now right).
  intros Hrun k c Hin. destruct pkg as [ps|p]; unfold collect in Hrun.
  - assert (Hgen : forall qs l0 l1,
               (forall q, In q qs -> Q q) ->
               fold_left
                 (fun acc p =>
                    match acc with
                    | Some l => addComponent fuel store allImports p ptype l false format
                    | None => None
                    end) qs (Some l0) = Some l1 ->
               forall k c, In (k, c) l1 ->
                 In (k, c) l0 \/ closed_entry store allImports ptype format Q l1 k c).
    { induction qs as [|q qs IHqs]; simpl; intros l0 l1 Hqs Hf k0 c0 Hin0.
      - injection Hf as <-. now left.
      - destruct (addComponent fuel store allImports q ptype l0 false format)
          as [l2|] eqn:Hq; [|now rewrite fold_add_None in Hf].
        destruct (IHqs l2 l1 (fun x Hx => Hqs x (or_intror Hx)) Hf k0 c0 Hin0)
          as [Hin2|Hcl]; [|now right].
        destruct (addComponent_closed store allImports ptype format Q HQs fuel
                    q l0 false l2 (Hqs q (or_introl eq_refl)) Hq k0 c0 Hin2)
          as [Hinl|Hcl]; [now left|right].
        apply (closed_entry_mono store allImports ptype format Q l2 l1); [|exact Hcl].
        intros k1 c1. now apply (fold_add_keeps store allImports ptype format fuel qs). }
    destruct (Hgen ps [] l (fun q Hq => in_or_app _ _ _ (or_introl Hq)) Hrun k c Hin)
      as [[]|Hcl]. exact Hcl.
  - assert (Hp : Q p) by (unfold Q; simpl; now left).
    destruct (addComponent_closed store allImports ptype format Q HQs fuel p [] _ l
                Hp Hrun k c Hin) as [[]|Hcl]. exact Hcl.
Qed.

(** ** Hex digests read as base64 *)

Section HexAsBase64.

Local Ltac nlia := zify; Z.to_euclidean_division_equations; lia.

(** A hexadecimal character is a character of the base64 alphabet. *)
Lemma hex_char_base64 (c : ascii) :
  is_hex_char c = true ->
  exists n, Buffer.unbase64 c = Some n /\ (n < 64)%N /\ Buffer.base64_char n = c.
Proof.
  intros Hc.
  destruct c as [[] [] [] [] [] [] [] []]; vm_compute in Hc; try discriminate Hc;
    eexists; (split; [vm_compute; reflexivity|split; reflexivity]).
Qed.

Lemma to_N_byte_of_N (n : N) : (n < 256)%N -> Byte.to_N (Buffer.byte_of_N n) = n.
Proof.
  intros Hn. unfold Buffer.byte_of_N. rewrite N.mod_small by exact Hn.
  destruct (Byte.of_N n) as [b|] eqn:Hb.
  - now apply Byte.to_of_N.
  - apply Byte.of_N_None_iff in Hb. lia.
Qed.

(** Four sextets make three bytes, which make the four sextets again. *)
Lemma sextets_bytes_sextets (n1 n2 n3 n4 : N) :
  (n1 < 64)%N -> (n2 < 64)%N -> (n3 < 64)%N -> (n4 < 64)%N ->
  let b1 := Byte.to_N (Buffer.byte_of_N (n1 * 4 + n2 / 16)) in
  let b2 := Byte.to_N (Buffer.byte_of_N ((n2 mod 16) * 16 + n3 / 4)) in
  let b3 := Byte.to_N (Buffer.byte_of_N ((n3 mod 4) * 64 + n4)) in
  (b1 / 4 = n1 /\ (b1 mod 4) * 16 + b2 / 16 = n2 /\
   (b2 mod 16) * 4 + b3 / 64 = n3 /\ b3 mod 64 = n4)%N.
Proof.
  intros H1 H2 H3 H4. cbv zeta.
  rewrite !to_N_byte_of_N by nlia. repeat split; nlia.
Qed.

(** Text made of hexadecimal characters, a multiple of four of them, is the
    base64 text of the bytes it decodes to. *)
Lemma to_base64_from_base64_hex (k : nat) :
  forall s,
    String.length s = 4 * k ->
    all_chars is_hex_char s = true ->
    Buffer.to_base64 (Buffer.from_base64 s) = s.
Proof.
  induction k as [|k IH]; intros s Hlen Hhex.
  - destruct s; [reflexivity|discriminate].
  - destruct s as [|c1 [|c2 [|c3 [|c4 s]]]]; try (simpl in Hlen; lia).
    cbn [all_chars] in Hhex. rewrite !andb_true_iff in Hhex.
    destruct Hhex as (Hc1 & Hc2 & Hc3 & Hc4 & Hs).
    destruct (hex_char_base64 c1 Hc1) as (n1 & Hu1 & Hn1 & Hb1).
    destruct (hex_char_base64 c2 Hc2) as (n2 & Hu2 & Hn2 & Hb2).
    destruct (hex_char_base64 c3 Hc3) as (n3 & Hu3 & Hn3 & Hb3).
    destruct (hex_char_base64 c4 Hc4) as (n4 & Hu4 & Hn4 & Hb4).
    unfold Buffer.from_base64. cbn [Buffer.sextets].
    rewrite Hu1, Hu2, Hu3, Hu4.
    cbn [Buffer.decode_sextets Buffer.to_base64].
    destruct (sextets_bytes_sextets n1 n2 n3 n4 Hn1 Hn2 Hn3 Hn4)
      as (E1 & E2 & E3 & E4).
    rewrite E1, E2, E3, E4, Hb1, Hb2, Hb3, Hb4.
    do 4 f_equal. apply IH; [|exact Hs].
    cbn [String.length] in Hlen. lia.
Qed.

(** So a digest that matches the hex pattern also passes the test for
    base64: its length is a multiple of four. *)
Lemma HASH_PATTERN_base64 (digest : string) :
  HASH_PATTERN_test digest = true ->
  Buffer.to_base64 (Buffer.from_base64 digest) = digest.
Proof.
  unfold HASH_PATTERN_test. intros Hpat.
  apply andb_prop in Hpat. destruct Hpat as [Hhex Hlen].
  rewrite !orb_true_iff, !Nat.eqb_eq in Hlen.
  destruct Hlen as [[[[Hlen|Hlen]|Hlen]|Hlen]|Hlen].
  - now apply (to_base64_from_base64_hex 8).
  - now apply (to_base64_from_base64_hex 10).
  - now apply (to_base64_from_base64_hex 16).
  - now apply (to_base64_from_base64_hex 24).
  - now apply (to_base64_from_base64_hex 32).
Qed.

End HexAsBase64.

(** * The claims *)

(** C1.  The component list [listComponents] returns holds exactly one
    component per package-URL the walk meets.  At most one: it always
    returns, and the package-URLs of the returned components are pairwise
    distinct.  The first encounter of a package-URL wins: a call of
    [addComponent] never changes or moves an entry that is already in
    [list]; a later record whose package-URL is already a key is dropped,
    leaving [list] as it was (its own dependencies are not visited either);
    and a record that passes the filters has, after its call, its
    package-URL bound to the component that was there before or, failing
    that, to its own; so every record of an array that passes the filters
    has its package-URL in the list.  At least one, also for the records
    met through [dependencies]: every listed component is the component of a
    record of the input that passes the filters, and every dependency object
    of that record that passes the filters has its package-URL in the list
    too (diamonds and cycles back to an ancestor included); the walk starts
    from the dependency objects of the root for [npm], and from the record
    itself otherwise.  So, when package-URLs identify the records, the
    package-URLs of the list are exactly those of the records that can be
    reached. *)
Theorem listComponents_first_purl_wins `{Env}
    (store : Store) (allImports : option ImportMap) (ptype : string)
    (format : Format) :
  (forall pkg,
      exists out,
        listComponents store allImports pkg ptype format = Some out /\
        NoDup (item_purls out))
  /\ (forall fuel p l r l' k c,
         addComponent fuel store allImports p ptype l r format = Some l' ->
         get l k = Some c ->
         get l' k = Some c /\ exists ext, l' = l ++ ext)
  /\ (forall fuel p l c,
         get l (purlString ptype p) = Some c ->
         addComponent (S fuel) store allImports p ptype l false format = Some l)
  /\ (forall fuel p l l',
         admissible ptype p = true ->
         addComponent fuel store allImports p ptype l false format = Some l' ->
         get l' (purlString ptype p) =
         Some (match get l (purlString ptype p) with
               | Some c => c
               | None => newComponent allImports p ptype format
               end))
  /\ (forall ps out p,
         listComponents store allImports (PkgArray ps) ptype format = Some out ->
         In p ps -> admissible ptype p = true ->
         In (purlString ptype p) (item_purls out))
  /\ (forall pkg out i,
         listComponents store allImports pkg ptype format = Some out ->
         In i out ->
         exists p,
           In p (tops pkg ++ store) /\ admissible ptype p = true /\
           item_component i = newComponent allImports p ptype format /\
           c_purl (item_component i) = purlString ptype p /\
           forall q,
             dependency_object store p q -> admissible ptype q = true ->
             In (purlString ptype q) (item_purls out))
  /\ (forall root out,
         listComponents store allImports (PkgSingle root) ptype format = Some out ->
         (String.eqb ptype "npm" = true -> pkg_extraneous root = false ->
          forall q,
            dependency_object store root q -> admissible ptype q = true ->
            In (purlString ptype q) (item_purls out)) /\
         (String.eqb ptype "npm" = false -> admissible ptype root = true ->
          In (purlString ptype root) (item_purls out)))
  /\ (forall pkg out,
         listComponents store allImports pkg ptype format = Some out ->
         purl_identifies ptype (tops pkg ++ store) ->
         forall k,
           In k (item_purls out) <->
           exists q, reachable store ptype pkg q /\ k = purlString ptype q).
Proof.
  assert (Hkey : forall (l : ListObj) k c,
             get l k = Some c -> In k (Object_keys l)).
  { intros l k c Hc. apply get_Some_In in Hc.
    change k with (fst (k, c)). now apply in_map. }
  split; [|split; [|split; [|split; [|split; [|split; [|split]]]]]].
  - intros pkg.
    destruct (listComponents_walked store allImports pkg ptype format)
      as (l & _ & Hout & Hnd & _ & Hkeys).
    exists (items format l). split; [exact Hout|]. now rewrite Hkeys.
  - intros fuel p l r l' k c Hrun Hk. split.
    + eapply addComponent_keeps; eauto.
    + eapply addComponent_extends; eauto.
  - intros fuel p l c. apply addComponent_drops.
  - intros fuel p l l'. apply addComponent_stores.
  - intros ps out p Hout Hin Had.
    destruct (listComponents_walked store allImports (PkgArray ps) ptype format)
      as (l & Hl & Hout' & _ & _ & Hkeys).
    rewrite Hout' in Hout. injection Hout as <-. rewrite Hkeys.
    destruct (collect_covers_array store allImports ptype format _ ps l p Hl Hin Had)
      as [c Hc].
    now apply (Hkey l _ c).
  - intros pkg out i Hout Hin.
    destruct (listComponents_walked store allImports pkg ptype format)
      as (l & Hl & Hout' & _ & _ & Hkeys).
    rewrite Hout' in Hout. injection Hout as <-. rewrite Hkeys.
    unfold items in Hin. apply in_map_iff in Hin. destruct Hin as ([k c] & Hi & Hin).
    destruct (collect_closed store allImports ptype format _ pkg l Hl k c Hin)
      as (p & Hp & Had & Hk & Hc & Hdeps).
    assert (Hic : item_component i = c) by (subst i; now destruct format).
    exists p. rewrite Hic. repeat split; auto.
    + rewrite Hc. apply newComponent_purl.
    + intros q Hdep Hadq. destruct (Hdeps q Hdep Hadq) as [c' Hc'].
      now apply (Hkey l _ c').
  - intros root out Hout.
    destruct (listComponents_walked store allImports (PkgSingle root) ptype format)
      as (l & Hl & Hout' & _ & _ & Hkeys).
    rewrite Hout' in Hout. injection Hout as <-. rewrite Hkeys.
    unfold collect, walk_fuel in Hl. split.
    + intros Hnpm Hex q Hdep Hadq. rewrite Hnpm, addComponent_S, Hex in Hl.
      apply child_dependency_object in Hdep. destruct Hdep as (d & Hd & Hq).
      destruct (traverse_covers_children store allImports ptype format _ root
                  [] l d q Hl Hd Hq Hadq) as [c Hc].
      now apply (Hkey l _ c).
    + intros Hnpm Had. rewrite Hnpm in Hl.
      pose proof (addComponent_stores store allImports ptype format _ root [] l
                    Had Hl) as Hc.
      now apply (Hkey l _ _ Hc).
  - intros pkg out Hout Hid k.
    destruct (listComponents_walked store allImports pkg ptype format)
      as (l & Hl & Hout' & _ & _ & Hkeys).
    rewrite Hout' in Hout. injection Hout as <-. rewrite Hkeys.
    exact (collect_keys store allImports ptype format (walk_fuel store) pkg l
             Hid Hl k).
Qed.

(** C1 on a diamond: [left] and [right] both depend on [base].  The theorem
    puts [base], met through [left] only, into the list, and lists no
    package-URL twice. *)
Lemma diamond_base_listed_once :
  exists out,
    listComponents Sample.diamond_store None (PkgSingle Sample.diamond_root)
      "npm" json = Some out
    /\ NoDup (item_purls out)
    /\ In "pkg:npm/left@1.0.0" (item_purls out)
    /\ In "pkg:npm/base@3.1.0" (item_purls out).
Proof.
  destruct (listComponents_first_purl_wins Sample.diamond_store None "npm" json)
    as (Hone & _ & _ & _ & _ & Hclosed & Hroot & _).
  destruct (Hone (PkgSingle Sample.diamond_root)) as (out & Hout & Hnd).
  exists out. split; [exact Hout|]. split; [exact Hnd|].
  assert (Hleft : In "pkg:npm/left@1.0.0" (item_purls out)).
  { destruct (Hroot Sample.diamond_root out Hout) as [Hdeps _].
    apply (Hdeps eq_refl eq_refl
             (Sample.package "left" "1.0.0"
                (Some [("base", DepObject 2); ("peer", DepString "^2.0.0")]))).
    - exists [("left", DepObject 0); ("right", DepObject 1)], "left", 0.
      repeat split. now left.
    - reflexivity. }
  split; [exact Hleft|].
  unfold item_purls in Hleft. apply in_map_iff in Hleft.
  destruct Hleft as (i & Hpurl & Hin).
  destruct (Hclosed (PkgSingle Sample.diamond_root) out i Hout Hin)
    as (p & Hp & _ & _ & Hk & Hdeps).
  rewrite Hk in Hpurl.
  assert (Hpl : p = Sample.package "left" "1.0.0"
                      (Some [("base", DepObject 2); ("peer", DepString "^2.0.0")])).
  { simpl in Hp.
    destruct Hp as [<-|[<-|[<-|[<-|[]]]]]; try reflexivity;
      vm_compute in Hpurl; discriminate. }
  subst p.
  apply (Hdeps (Sample.package "base" "3.1.0" None)).
  - exists [("base", DepObject 2); ("peer", DepString "^2.0.0")], "base", 2.
    repeat split. now left.
  - reflexivity.
Defined.

(** C1 at work on a diamond: [left] and [right] both depend on [base],
    which is listed once, at the place of its first encounter. *)
Example diamond_listComponents :
  option_map item_purls
    (listComponents Sample.diamond_store None (PkgSingle Sample.diamond_root)
       "npm" json)
  = Some ["pkg:npm/left@1.0.0"; "pkg:npm/base@3.1.0"; "pkg:npm/right@1.0.0"].
Proof. reflexivity. Qed.


(** A package that depends on itself, and a pair that depend on each other. *)
Example self_reference_listComponents :
  option_map item_purls
    (listComponents Sample.selfish_store None (PkgArray Sample.selfish_store)
       "npm" xml)
  = Some ["pkg:npm/loop@1.0.0"].
Proof. reflexivity. Qed.

Example mutual_reference_listComponents :
  option_map item_purls
    (listComponents Sample.cyclic_store None (PkgArray [Sample.a_pkg]) "npm" xml)
  = Some ["pkg:npm/a@1.0.0"; "pkg:npm/app@1.0.0"].
Proof. reflexivity. Qed.


(** C3 at a failing input.  Two runs in deterministic mode over the same
    package set and context, differing only in what [uuidv4()] and the clock
    return: the XML strings agree, but the JSON template carries
    [serialNumber], built from the fresh UUID, in deterministic mode too, so
    the JSON documents, and the strings printed from them, differ. *)
Theorem buildBomString_deterministic_json_differs :
  (forall (E : Env) w (comps : list Item),
      j_serialNumber (jsonTpl w true comps) = ("urn:uuid:" ++ uuidv4 w)%string)
  /\ (forall (E : Env) w1 w2 (comps : list Item),
         uuidv4 w1 <> uuidv4 w2 -> jsonTpl w1 true comps <> jsonTpl w2 true comps)
  /\ @buildBomString Sample.env Sample.printers
       {| uuidv4 := "11111111-1111-4111-8111-111111111111";
          Date_toISOString := "2021-01-01T00:00:00.000Z" |}
       Sample.diamond_store true (PkgSingle Sample.diamond_root) "npm"
       {| ctx_src := Some "/proj"; ctx_filename := Some "package.json";
          ctx_allImports := None; ctx_nsMapping := None |}
     = Some (BomArguments
               "<bom serialNumber= timestamp=2022-06-03T09:34:10.062Z>"
               "{serialNumber: urn:uuid:11111111-1111-4111-8111-111111111111, timestamp: 2022-06-03T09:34:10.062Z}"
               [])
  /\ @buildBomString Sample.env Sample.printers
       {| uuidv4 := "22222222-2222-4222-8222-222222222222";
          Date_toISOString := "2021-02-02T00:00:00.000Z" |}
       Sample.diamond_store true (PkgSingle Sample.diamond_root) "npm"
       {| ctx_src := Some "/proj"; ctx_filename := Some "package.json";
          ctx_allImports := None; ctx_nsMapping := None |}
     = Some (BomArguments
               "<bom serialNumber= timestamp=2022-06-03T09:34:10.062Z>"
               "{serialNumber: urn:uuid:22222222-2222-4222-8222-222222222222, timestamp: 2022-06-03T09:34:10.062Z}"
               []).
Proof.
  split; [|split; [|split]]; try reflexivity.
  intros E w1 w2 comps Hne Heq. apply Hne.
  apply (f_equal j_serialNumber) in Heq. simpl in Heq. now injection Heq.
Qed.

(** C4 as stated fails: with the import map [{ babel: 1 }] the component of
    group [babel] and name [core] is "required", although neither [core] nor
    [@babel/core] is a key of the map (the group alone is). *)
Lemma scope_required_by_group_alone :
  option_map (map (fun i => (c_group (item_component i), c_name (item_component i),
                             c_scope (item_component i))))
    (listComponents [] (Some [("babel", 1)])
       (PkgArray [Sample.with_group "babel" (Sample.package "core" "7.0.0" None)])
       "npm" json)
  = Some [("babel", "core", Some "required")]
  /\ includes (importKeys (Some [("babel", 1)])) "core" = false
  /\ includes (importKeys (Some [("babel", 1)])) "@babel/core" = false.
Proof. repeat split. Qed.

(** With no import map, the scope hint of the record itself is kept. *)
Example scope_hint_without_imports :
  c_scope
    (newComponent None
       (Sample.with_scope "optional" (Sample.package "mocha" "8.0.0" None))
       "npm" json)
  = Some "optional".
Proof. reflexivity. Qed.

(** C4, amended.  The component [addComponent] files for a non-root record
    has, when the import map is supplied and non-empty, the scope
    "required" exactly when one of [name], [group/name], [@group/name],
    [group], [@group] is a key of the map, and "optional" otherwise; when
    the map is absent or empty, its scope is the scope hint of the record if
    that is a non-empty string, and there is no [scope] field otherwise. *)
Theorem addComponent_scope `{Env}
    (store : Store) (allImports : option ImportMap) (ptype : string)
    (format : Format) (fuel : nat) (p : PackageRecord) (l l' : ListObj) :
  admissible ptype p = true ->
  get l (purlString ptype p) = None ->
  addComponent fuel store allImports p ptype l false format = Some l' ->
  exists c,
    get l' (purlString ptype p) = Some c
    /\ (importKeys allImports <> [] ->
        (c_scope c = Some "required" <->
         exists x, In x (scopeCandidates p) /\ In x (importKeys allImports))
        /\ (c_scope c = Some "optional" <->
            ~ exists x, In x (scopeCandidates p) /\ In x (importKeys allImports)))
    /\ (importKeys allImports = [] ->
        c_scope c = if truthy (pkg_scope p) then pkg_scope p else None).
Proof.
  intros Had Hg Hrun.
  exists (newComponent allImports p ptype format). split.
  { rewrite (addComponent_stores store allImports ptype format fuel p l l' Had Hrun).
    now rewrite Hg. }
  rewrite newComponent_scope, compScope_cases.
  destruct (existsb (includes (importKeys allImports)) (scopeCandidates p)) eqn:Hex.
  - apply existsb_exists in Hex. destruct Hex as (x & Hx & Hinc).
    apply includes_In in Hinc. split.
    + intros _. cbv [truthy]. split.
      * split; [intros _; eauto|reflexivity].
      * split; [discriminate|]. intros Hno. exfalso. apply Hno. eauto.
    + intros Hnil. rewrite Hnil in Hinc. destruct Hinc.
  - assert (Hno : ~ exists x, In x (scopeCandidates p) /\ In x (importKeys allImports)).
    { intros (x & Hx & Hin). apply includes_In in Hin.
      assert (Ht : existsb (includes (importKeys allImports)) (scopeCandidates p) = true)
        by (apply existsb_exists; eauto).
      congruence. }
    split.
    + intros Hne. destruct (importKeys allImports) as [|k ks]; [contradiction|].
      cbv [truthy]. split.
      * split; [discriminate|]. intros Hyes. contradiction.
      * split; [auto|reflexivity].
    + intros ->. reflexivity.
Qed.

(** The amended C4 on [left-pad] with the import map [{ "left-pad": 1 }]. *)
Lemma addComponent_scope_left_pad :
  admissible "npm" (Sample.package "left-pad" "1.3.0" None) = true
  /\ @get Sample.env [] (purlString "npm" (Sample.package "left-pad" "1.3.0" None))
     = None
  /\ exists l',
       @addComponent Sample.env 1 [] (Some [("left-pad", 1)])
         (Sample.package "left-pad" "1.3.0" None) "npm" [] false json = Some l'
       /\ exists c,
            get l' "pkg:npm/left-pad@1.3.0" = Some c /\ c_scope c = Some "required".
Proof.
  split; [reflexivity|]. split; [reflexivity|].
  eexists. split; [reflexivity|].
  destruct (addComponent_scope [] (Some [("left-pad", 1)]) "npm" json 1
              (Sample.package "left-pad" "1.3.0" None) [] _
              eq_refl eq_refl eq_refl) as (c & Hc & Hreq & _).
  exists c. split; [exact Hc|].
  apply Hreq; [discriminate|].
  exists "left-pad". split; simpl; auto.
Defined.

(** The scope classification of the specification: [left-pad] is imported,
    [right-pad] is not. *)
Example scope_classification :
  option_map (map (fun i => (c_name (item_component i), c_scope (item_component i))))
    (listComponents [] (Some [("left-pad", 1)])
       (PkgArray [Sample.package "left-pad" "1.3.0" None;
                  Sample.package "right-pad" "1.0.1" None]) "npm" json)
  = Some [("left-pad", Some "required"); ("right-pad", Some "optional")]
  /\ option_map (map (fun i => (c_name (item_component i), c_scope (item_component i))))
       (listComponents [] None
          (PkgArray [Sample.package "left-pad" "1.3.0" None]) "npm" json)
     = Some [("left-pad", None)].
Proof. repeat split. Qed.

(** C5.  [processHashes] resolves hashes by precedence: what it leaves in
    [hashes] is what was there followed by the entries the specification
    asks for, namely the raw SHA-1 digest alone when [_shasum] is present
    (the integrity string is then not looked at), otherwise one entry per
    algorithm found in the parsed integrity string, in the order SHA-512,
    SHA-384, SHA-256, SHA-1; and when the result is empty the field is
    deleted.  For the component [addComponent] builds, which starts from
    [hashes: []], the field is exactly those entries, or absent. *)
Theorem processHashes_precedence `{Env} (pkg : PackageRecord) (c : Component)
    (format : Format) :
  c_hashes (processHashes pkg c format) =
  match c_hashes c with
  | Some before => omit_if_empty (before ++ hashes_by_precedence pkg format)
  | None => None
  end
  /\ (forall allImports ptype,
         c_hashes (newComponent allImports pkg ptype format)
         = omit_if_empty (hashes_by_precedence pkg format))
  /\ (truthy (pkg_shasum pkg) = true ->
      hashes_by_precedence pkg format
      = [mkHash format "SHA-1" (or_empty (pkg_shasum pkg))])
  /\ (forall h,
         In h (hashes_by_precedence pkg format) ->
         In (hash_alg h) (map snd hashPriority)).
Proof.
  split; [apply processHashes_hashes|]. split; [|split].
  - intros allImports ptype. unfold newComponent. now rewrite processHashes_hashes.
  - intros Hsha. unfold hashes_by_precedence. now rewrite Hsha.
  - intros h. unfold hashes_by_precedence.
    destruct (truthy (pkg_shasum pkg)).
    + intros [<-|[]]. destruct format; simpl; auto.
    + destruct (truthy (pkg_integrity pkg)); [|intros []].
      rewrite in_flat_map. intros ([key alg] & Hka & Hh). simpl in Hh.
      destruct (own _ key) as [[digest others]|]; [|destruct Hh].
      destruct Hh as [<-|[]].
      replace (hash_alg (mkHash format alg (normalizeDigest digest))) with alg
        by now destruct format.
      change alg with (snd (key, alg)). now apply in_map.
Qed.

(** C5 at work: the raw digest wins over the integrity string; without it
    the integrity string is parsed; without either there is no field. *)
Example processHashes_shasum_first :
  c_hashes
    (newComponent None
       (Sample.with_hashes (Some "da39a3ee5e6b4b0d3255bfef95601890afd80709")
          (Some "sha512-z4PhNX7vuL3xVChQ1m2AB9Yg5AULVxXcg/SpIdNs6c5H0NE8XYXysP+DGNKHfuwvY7kxvUdBeoGlODJ6+SfaPg==")
          (Sample.package "empty" "1.0.0" None)) "npm" json)
  = Some [JsonHash "SHA-1" "da39a3ee5e6b4b0d3255bfef95601890afd80709"]
  /\ c_hashes
       (newComponent None
          (Sample.with_hashes None (Some "sha1-2jmj7l5rSw0yVb/vlWAYkK/YBwk=")
             (Sample.package "empty" "1.0.0" None)) "npm" xml)
     = Some [XmlHash "SHA-1" "da39a3ee5e6b4b0d3255bfef95601890afd80709"]
  /\ c_hashes
       (newComponent None (Sample.package "empty" "1.0.0" None) "npm" xml)
     = None.
Proof. repeat split. Qed.

(** C6.  [addComponentHash] appends one entry carrying the algorithm and
    the normalised digest.  The digest is detected by the hex pattern: one
    that matches it (only hexadecimal characters, 32, 40, 64, 96 or 128 of
    them) is emitted unchanged; one that does not match it and is
    base64-encoded (decoding and re-encoding gives it back) is emitted as
    the hex digits of its bytes, all lowercase; in particular the base64
    encoding of any byte sequence, unless it has the shape of a hex digest,
    is emitted as the lowercase hex of those bytes.  The order of the two
    tests matters: every digest that matches the hex pattern would also pass
    the test for base64, and it is the hex pattern that decides. *)
Theorem addComponentHash_normalizes `{Env} (alg digest : string) (c : Component)
    (format : Format) :
  c_hashes (addComponentHash alg digest c format)
  = option_map (fun hs => hs ++ [mkHash format alg (normalizeDigest digest)])
      (c_hashes c)
  /\ hash_alg (mkHash format alg (normalizeDigest digest)) = alg
  /\ hash_value (mkHash format alg (normalizeDigest digest)) = normalizeDigest digest
  /\ (HASH_PATTERN_test digest = true <->
      all_chars is_hex_char digest = true /\
      In (String.length digest) [32; 40; 64; 96; 128])
  /\ (HASH_PATTERN_test digest = true -> normalizeDigest digest = digest)
  /\ (HASH_PATTERN_test digest = false ->
      Buffer.to_base64 (Buffer.from_base64 digest) = digest ->
      normalizeDigest digest = Buffer.to_hex (Buffer.from_base64 digest)
      /\ all_chars is_lower_hex (normalizeDigest digest) = true)
  /\ (forall bytes,
         HASH_PATTERN_test (Buffer.to_base64 bytes) = false ->
         normalizeDigest (Buffer.to_base64 bytes) = Buffer.to_hex bytes)
  /\ (HASH_PATTERN_test digest = true ->
      Buffer.to_base64 (Buffer.from_base64 digest) = digest).
Proof.
  split; [reflexivity|].
  split; [now destruct format|].
  split; [now destruct format|].
  split; [|split; [|split; [|split]]].
  - unfold HASH_PATTERN_test. rewrite andb_true_iff. simpl.
    rewrite !orb_true_iff, !Nat.eqb_eq. intuition auto.
  - unfold normalizeDigest. intros ->. reflexivity.
  - intros Hno Hb64.
    assert (Hn : normalizeDigest digest = Buffer.to_hex (Buffer.from_base64 digest)).
    { unfold normalizeDigest. now rewrite Hno, Hb64, String.eqb_refl. }
    split; [exact Hn|]. rewrite Hn. apply to_hex_lower.
  - intros bytes Hno. unfold normalizeDigest.
    now rewrite Hno, from_base64_to_base64, String.eqb_refl.
  - apply HASH_PATTERN_base64.
Qed.

(** A digest that neither matches the hex pattern nor is base64-encoded is
    passed on as it came. *)
Lemma normalizeDigest_other (digest : string) :
  HASH_PATTERN_test digest = false ->
  Buffer.to_base64 (Buffer.from_base64 digest) <> digest ->
  normalizeDigest digest = digest.
Proof.
  intros Hno Hne. unfold normalizeDigest. rewrite Hno.
  destruct (String.eqb_spec (Buffer.to_base64 (Buffer.from_base64 digest)) digest);
    [contradiction|reflexivity].
Qed.

(** Where the two tests overlap: sixty-four [a]s match the hex pattern and
    are also the base64 encoding of 48 bytes; the hex pattern decides, and
    the digest is emitted unchanged. *)
Example base64_digest_of_hex_shape_unchanged :
  HASH_PATTERN_test
    "aaaaaaaaaaaaaaaaaaaaaaaaaaaaaaaaaaaaaaaaaaaaaaaaaaaaaaaaaaaaaaaa" = true
  /\ Buffer.to_base64
       (Buffer.from_base64
          "aaaaaaaaaaaaaaaaaaaaaaaaaaaaaaaaaaaaaaaaaaaaaaaaaaaaaaaaaaaaaaaa")
     = "aaaaaaaaaaaaaaaaaaaaaaaaaaaaaaaaaaaaaaaaaaaaaaaaaaaaaaaaaaaaaaaa"
  /\ c_hashes
       (newComponent None
          (Sample.with_hashes None
             (Some "sha384-aaaaaaaaaaaaaaaaaaaaaaaaaaaaaaaaaaaaaaaaaaaaaaaaaaaaaaaaaaaaaaaa")
             (Sample.package "pkg" "1.0.0" None)) "npm" json)
     = Some [JsonHash "SHA-384"
               "aaaaaaaaaaaaaaaaaaaaaaaaaaaaaaaaaaaaaaaaaaaaaaaaaaaaaaaaaaaaaaaa"].
Proof. repeat split. Qed.

(** The SHA-1 digest of the empty input: base64 becomes lowercase hex, and
    hex of either case is left as it is. *)
Example normalizeDigest_sha1_empty :
  normalizeDigest "2jmj7l5rSw0yVb/vlWAYkK/YBwk="
  = "da39a3ee5e6b4b0d3255bfef95601890afd80709"
  /\ normalizeDigest "da39a3ee5e6b4b0d3255bfef95601890afd80709"
     = "da39a3ee5e6b4b0d3255bfef95601890afd80709"
  /\ normalizeDigest "DA39A3EE5E6B4B0D3255BFEF95601890AFD80709"
     = "DA39A3EE5E6B4B0D3255BFEF95601890AFD80709".
Proof. repeat split. Qed.

(** C7 as stated fails: the test is made on the group and the name the
    engine resolves, not on the fields of the record.  A record named
    [@typescript-eslint/parser] has a name that starts with [@types], but
    its resolved group is [typescript-eslint] and its resolved name
    [parser]: it becomes a component.  So does a record named
    [@types/react] that brings a group of its own. *)
Lemma types_prefixed_names_listed :
  startsWith "@typescript-eslint/parser" "@types" = true
  /\ option_map item_purls
       (listComponents [] None
          (PkgArray [Sample.package "@typescript-eslint/parser" "5.0.0" None])
          "npm" json)
     = Some ["pkg:npm/typescript-eslint/parser@5.0.0"]
  /\ startsWith "@types/react" "@types" = true
  /\ option_map item_purls
       (listComponents [] None
          (PkgArray [Sample.with_group "dt"
                       (Sample.package "@types/react" "17.0.0" None)])
          "npm" json)
     = Some ["pkg:npm/dt/react@17.0.0"].
Proof. repeat split. Qed.

(** C7, amended.  With ecosystem [npm], the filter looks at the resolved
    group (the record's own [group] if it is not empty, otherwise the scope
    parsed from its name) and the resolved name (the full name parsed from
    its name, or the name itself if the parser gives none).  A non-root
    record whose resolved group is [types] (in particular one whose own
    [group] is [types]) or whose resolved name starts with [@types] makes
    [addComponent] return with [list] untouched; no component of the list
    [listComponents] returns has such a group or name; a record named
    [@types/node] without a group of its own is such a record as soon as the
    name parser reports the scope [types] (or no full name at all); and any
    other record that is not flagged extraneous has its package-URL among
    the keys after its call, whatever its name starts with. *)
Theorem addComponent_skips_types `{Env}
    (store : Store) (allImports : option ImportMap) (format : Format) :
  (forall fuel p l,
      resolveGroup p = "types" \/ startsWith (resolveName p) "@types" = true ->
      addComponent (S fuel) store allImports p "npm" l false format = Some l)
  /\ (forall p, pkg_group p = Some "types" -> resolveGroup p = "types")
  /\ (forall pkg out i,
         listComponents store allImports pkg "npm" format = Some out ->
         In i out ->
         String.eqb (c_group (item_component i)) "types" = false /\
         startsWith (c_name (item_component i)) "@types" = false)
  /\ (forall p,
         pkg_name p = "@types/node" ->
         truthy (pkg_group p) = false ->
         id_scope (parsePackageJsonName "@types/node") = Some "types" \/
         truthy (id_fullName (parsePackageJsonName "@types/node")) = false ->
         isTypesPackage "npm" p = true)
  /\ (forall fuel p l l',
         pkg_extraneous p = false ->
         String.eqb (resolveGroup p) "types" = false ->
         startsWith (resolveName p) "@types" = false ->
         addComponent fuel store allImports p "npm" l false format = Some l' ->
         exists c, get l' (purlString "npm" p) = Some c).
Proof.
  split; [|split; [|split; [|split]]].
  - intros fuel p l Hty. rewrite addComponent_S.
    destruct (pkg_extraneous p); [reflexivity|].
    unfold isTypesPackage. simpl.
    destruct Hty as [-> | ->]; simpl; [reflexivity|].
    now rewrite orb_true_r.
  - intros p Hg. unfold resolveGroup, js_or. now rewrite Hg.
  - intros pkg out i Hout Hin.
    destruct (listComponents_provenance store allImports pkg "npm" format out i
                Hout Hin) as (p & _ & Had & ->).
    destruct (newComponent_identity allImports p "npm" format) as [-> ->].
    unfold admissible, isTypesPackage in Had. simpl in Had.
    apply andb_prop in Had. destruct Had as [_ Had].
    apply negb_true_iff, orb_false_iff in Had. exact Had.
  - intros p Hname Hgroup Hparse. unfold isTypesPackage. simpl.
    unfold resolveGroup, resolveName, js_or. rewrite Hname, Hgroup.
    destruct Hparse as [-> | ->]; simpl; [reflexivity|].
    now rewrite orb_true_r.
  - intros fuel p l l' Hex Hgroup Hname Hrun.
    assert (Had : admissible "npm" p = true).
    { unfold admissible, isTypesPackage. now rewrite Hex, Hgroup, Hname. }
    rewrite (addComponent_stores store allImports "npm" format fuel p l l' Had Hrun).
    eauto.
Qed.

(** [@types/node] under the sample parser: the call leaves the list as it
    was. *)
Lemma addComponent_skips_types_node :
  resolveGroup (Sample.package "@types/node" "14.0.0" None) = "types"
  /\ @addComponent Sample.env 1 [] None
       (Sample.package "@types/node" "14.0.0" None) "npm"
       [("pkg:npm/left-pad@1.3.0",
         newComponent None (Sample.package "left-pad" "1.3.0" None) "npm" json)]
       false json
     = Some [("pkg:npm/left-pad@1.3.0",
              newComponent None (Sample.package "left-pad" "1.3.0" None) "npm" json)].
Proof.
  split; [reflexivity|].
  destruct (@addComponent_skips_types Sample.env [] None json) as (Hskip & _).
  apply Hskip. left. reflexivity.
Defined.

(** [@types/node] next to a runtime dependency, under the sample parser. *)
Example types_node_listComponents :
  option_map item_purls
    (listComponents [] None
       (PkgArray [Sample.package "@types/node" "14.0.0" None;
                  Sample.package "left-pad" "1.3.0" None]) "npm" json)
  = Some ["pkg:npm/left-pad@1.3.0"].
Proof. reflexivity. Qed.

(** C8.  A record flagged extraneous makes [addComponent] return with
    [list] untouched, root or not, so nothing below it is visited through
    it; every component [listComponents] returns is the component of a
    record of the input that is not extraneous; and a package-URL that only
    extraneous records carry is no component's package-URL. *)
Theorem addComponent_skips_extraneous `{Env}
    (store : Store) (allImports : option ImportMap) (ptype : string)
    (format : Format) :
  (forall fuel p l r,
      pkg_extraneous p = true ->
      addComponent (S fuel) store allImports p ptype l r format = Some l)
  /\ (forall pkg out i,
         listComponents store allImports pkg ptype format = Some out ->
         In i out ->
         exists p,
           In p (tops pkg ++ store) /\ pkg_extraneous p = false /\
           item_component i = newComponent allImports p ptype format /\
           c_purl (item_component i) = purlString ptype p)
  /\ (forall pkg out k,
         listComponents store allImports pkg ptype format = Some out ->
         (forall p, In p (tops pkg ++ store) -> purlString ptype p = k ->
                    pkg_extraneous p = true) ->
         ~ In k (item_purls out)).
Proof.
  assert (Hprov : forall pkg out i,
             listComponents store allImports pkg ptype format = Some out ->
             In i out ->
             exists p,
               In p (tops pkg ++ store) /\ pkg_extraneous p = false /\
               item_component i = newComponent allImports p ptype format /\
               c_purl (item_component i) = purlString ptype p).
  { intros pkg out i Hout Hin.
    destruct (listComponents_provenance store allImports pkg ptype format out i
                Hout Hin) as (p & Hp & Had & Hc).
    exists p. split; [exact Hp|]. split; [|split; [exact Hc|]].
    - unfold admissible in Had. apply andb_prop in Had.
      destruct Had as [Had _]. now apply negb_true_iff in Had.
    - rewrite Hc. apply newComponent_purl. }
  split; [|split; [exact Hprov|]].
  - intros fuel p l r Hex. now rewrite addComponent_S, Hex.
  - intros pkg out k Hout Hall Hin.
    unfold item_purls in Hin. apply in_map_iff in Hin. destruct Hin as (i & Hk & Hin).
    destruct (Hprov pkg out i Hout Hin) as (p & Hp & Hex & _ & Hpurl).
    rewrite (Hall p Hp) in Hex; [discriminate|congruence].
Qed.

(** An extraneous record referenced by an included package: neither it nor
    what is below it is listed. *)
Example extraneous_dependency_listComponents :
  option_map item_purls
    (listComponents
       [ Sample.package "kept" "1.0.0" (Some [("dev-tool", DepObject 1)]);
         Sample.with_extraneous
           (Sample.package "dev-tool" "2.0.0" (Some [("below", DepObject 2)]));
         Sample.package "below" "0.1.0" None ]
       None
       (PkgSingle (Sample.package "proj" "0.0.1" (Some [("kept", DepObject 0)])))
       "npm" xml)
  = Some ["pkg:npm/kept@1.0.0"].
Proof. reflexivity. Qed.



(** The amended C9 on the diamond: the project itself is not listed, its
    dependencies are. *)
Example root_listComponents :
  option_map item_purls
    (listComponents Sample.diamond_store None (PkgSingle Sample.diamond_root)
       "npm" xml)
  = Some ["pkg:npm/left@1.0.0"; "pkg:npm/base@3.1.0"; "pkg:npm/right@1.0.0"]
  /\ purlString "npm" Sample.diamond_root = "pkg:npm/proj@0.1.0".
Proof. repeat split. Qed.

(** C10.  [buildBomString] always reaches its callback.  When the assembled
    component list is empty the callback receives no arguments; it receives
    the two BOM strings and the namespace mapping only when the list has at
    least one component, and receiving no arguments means the list was
    empty. *)
Theorem buildBomString_empty_list_no_arguments {E : Env} {P : Serializer}
    (w : World) (store : Store) (deterministicForTests : bool)
    (pkgInfo : PkgInfo) (ptype : string) (context : BomContext) :
  (exists args,
      buildBomString w store deterministicForTests pkgInfo ptype context = Some args)
  /\ (listComponents store (Some (contextImports context)) pkgInfo ptype xml = Some [] ->
      buildBomString w store deterministicForTests pkgInfo ptype context
      = Some NoArguments)
  /\ (buildBomString w store deterministicForTests pkgInfo ptype context
      = Some NoArguments ->
      listComponents store (Some (contextImports context)) pkgInfo ptype xml = Some [])
  /\ (forall bomString jsonString nsMapping,
         buildBomString w store deterministicForTests pkgInfo ptype context
         = Some (BomArguments bomString jsonString nsMapping) ->
         exists c components,
           listComponents store (Some (contextImports context)) pkgInfo ptype xml
           = Some (c :: components)
           /\ bomString
              = bom_end (xmlDocument w deterministicForTests context (c :: components))).
Proof.
  unfold buildBomString.
  destruct (listComponents_walked store (Some (contextImports context)) pkgInfo ptype xml)
    as (lx & _ & Hx & _).
  destruct (listComponents_walked store (Some (contextImports context)) pkgInfo ptype json)
    as (lj & _ & Hj & _).
  rewrite Hx, Hj.
  destruct (items xml lx) as [|c components] eqn:Hitems.
  - split; [eauto|]. split; [reflexivity|]. split; [reflexivity|]. discriminate.
  - split; [eauto|]. split; [discriminate|]. split; [discriminate|].
    intros bomString jsonString nsMapping Hargs. injection Hargs as <- _ _. eauto.
Qed.

(** A project whose only dependency is a type-annotation package: no BOM. *)
Example buildBomString_no_components :
  @buildBomString Sample.env Sample.printers
    {| uuidv4 := "0f0e"; Date_toISOString := "2021-01-01T00:00:00.000Z" |}
    [Sample.package "@types/node" "14.0.0" None] false
    (PkgSingle (Sample.package "proj" "0.0.1" (Some [("@types/node", DepObject 0)])))
    "npm"
    {| ctx_src := Some "/proj"; ctx_filename := Some "package.json";
       ctx_allImports := None; ctx_nsMapping := None |}
  = Some NoArguments.
Proof. reflexivity. Qed.

(** * Further properties of the assembly engine *)

(** ** Two walks over the same records *)

Section Related.

Context `{Env}.
Variables (store : Store) (ptype : string).
Variables (imports1 imports2 : option ImportMap) (format1 format2 : Format).
Variable R : Component -> Component -> Prop.
Hypothesis R_new :
  forall p,
    R (newComponent imports1 p ptype format1) (newComponent imports2 p ptype format2).

Lemma related_get (l1 l2 : ListObj) (k : string) :
  related R l1 l2 -> (get l1 k = None <-> get l2 k = None).
Proof.
  intros Hrel. induction Hrel as [|[k1 c1] [k2 c2] l1 l2 [Hk _] _ IH]; simpl;
    [tauto|].
  simpl in Hk. subst k2. now destruct (String.eqb k1 k).
Qed.

Lemma related_snoc (l1 l2 : ListObj) (k : string) (c1 c2 : Component) :
  related R l1 l2 -> R c1 c2 -> related R (l1 ++ [(k, c1)]) (l2 ++ [(k, c2)]).
Proof.
  intros Hrel Hc. apply Forall2_app; [exact Hrel|].
  constructor; [now split|constructor].
Qed.

(** The two walks take the same turns: they differ in the components they
    build, never in the keys. *)
Lemma addComponent_related fuel :
  forall p l1 l2 r,
    related R l1 l2 ->
    both (related R)
      (addComponent fuel store imports1 p ptype l1 r format1)
      (addComponent fuel store imports2 p ptype l2 r format2).
Proof.
  induction fuel as [|fuel IH]; intros p l1 l2 r Hrel; [exact I|].
  assert (Htrav : forall ds acc1 acc2,
             both (related R) acc1 acc2 ->
             both (related R)
               (fold_left (visit fuel store imports1 ptype format1) ds acc1)
               (fold_left (visit fuel store imports2 ptype format2) ds acc2)).
  { intros ds. induction ds as [|d ds IHds]; simpl; intros acc1 acc2 Hacc;
      [exact Hacc|].
    apply IHds. unfold visit.
    destruct acc1 as [a1|], acc2 as [a2|]; simpl in Hacc; try contradiction;
      [|exact I].
    destruct (deref store d) as [q|]; [now apply IH|exact Hacc]. }
  rewrite !addComponent_S.
  destruct (pkg_extraneous p); [exact Hrel|].
  destruct r; [now apply Htrav|].
  destruct (isTypesPackage ptype p); [exact Hrel|].
  pose proof (related_get l1 l2 (purlString ptype p) Hrel) as Hget.
  destruct (get l1 (purlString ptype p)) as [c1|] eqn:H1;
    destruct (get l2 (purlString ptype p)) as [c2|] eqn:H2.
  - exact Hrel.
  - destruct Hget as [_ Hget]. now specialize (Hget eq_refl).
  - destruct Hget as [Hget _]. now specialize (Hget eq_refl).
  - apply Htrav. simpl. now apply related_snoc.
Qed.

Lemma collect_related fuel pkg :
  both (related R)
    (collect fuel store imports1 pkg ptype format1)
    (collect fuel store imports2 pkg ptype format2).
Proof.
  destruct pkg as [ps|p]; simpl.
  - assert (Hgen : forall acc1 acc2,
               both (related R) acc1 acc2 ->
               both (related R)
                 (fold_left
                    (fun acc p =>
                       match acc with
                       | Some l => addComponent fuel store imports1 p ptype l false format1
                       | None => None
                       end) ps acc1)
                 (fold_left
                    (fun acc p =>
                       match acc with
                       | Some l => addComponent fuel store imports2 p ptype l false format2
                       | None => None
                       end) ps acc2)).
    { induction ps as [|p ps IHps]; simpl; intros acc1 acc2 Hacc; [exact Hacc|].
      apply IHps.
      destruct acc1 as [a1|], acc2 as [a2|]; simpl in Hacc; try contradiction;
        [|exact I].
      now apply addComponent_related. }
    apply Hgen. constructor.
  - apply addComponent_related. constructor.
Qed.

(** The lists of the two calls of [listComponents], element by element. *)
Lemma listComponents_related pkg :
  exists l1 l2,
    listComponents store imports1 pkg ptype format1 = Some (items format1 l1) /\
    listComponents store imports2 pkg ptype format2 = Some (items format2 l2) /\
    related R l1 l2.
Proof.
  destruct (listComponents_walked store imports1 pkg ptype format1)
    as (l1 & Hl1 & Hout1 & _).
  destruct (listComponents_walked store imports2 pkg ptype format2)
    as (l2 & Hl2 & Hout2 & _).
  exists l1, l2. split; [exact Hout1|]. split; [exact Hout2|].
  pose proof (collect_related (walk_fuel store) pkg) as Hrel.
  now rewrite Hl1, Hl2 in Hrel.
Qed.

End Related.

(** ** What [processHashes] and the encoding change in a component *)

Section Fields.

Context `{Env}.

Lemma push_hash_withHashes (c : Component) (h : HashEntry) :
  push_hash c h = withHashes (c_hashes (push_hash c h)) c.
Proof. reflexivity. Qed.

Lemma withHashes_same (c : Component) : withHashes (c_hashes c) c = c.
Proof. now destruct c. Qed.

Lemma withHashes_twice (hs hs' : option (list HashEntry)) (c : Component) :
  withHashes hs (withHashes hs' c) = withHashes hs c.
Proof. reflexivity. Qed.

Lemma delete_empty_hashes_withHashes (c : Component) :
  delete_empty_hashes c = withHashes (c_hashes (delete_empty_hashes c)) c.
Proof.
  unfold delete_empty_hashes.
  destruct (c_hashes c) as [[|h hs]|] eqn:Hc; simpl; try reflexivity;
    symmetry; apply withHashes_same.
Qed.

Lemma addIfOwn_withHashes (i : Integrity) (key alg : string) (c : Component)
    (f : Format) :
  addIfOwn i key alg c f = withHashes (c_hashes (addIfOwn i key alg c f)) c.
Proof.
  unfold addIfOwn, addComponentHash.
  destruct (own i key) as [[d others]|]; [reflexivity|].
  now rewrite withHashes_same.
Qed.

(** [processHashes] changes the [hashes] field and nothing else. *)
Lemma processHashes_withHashes (pkg : PackageRecord) (c : Component) (f : Format) :
  processHashes pkg c f = withHashes (c_hashes (processHashes pkg c f)) c.
Proof.
  unfold processHashes.
  rewrite delete_empty_hashes_withHashes.
  set (d := c_hashes (delete_empty_hashes _)). clearbody d.
  destruct (truthy (pkg_shasum pkg)); [reflexivity|].
  destruct (truthy (pkg_integrity pkg)); [|reflexivity].
  set (i := match ssri_parse _ with Some i => i | None => [] end).
  rewrite (addIfOwn_withHashes i "sha1" "SHA-1").
  rewrite (addIfOwn_withHashes i "sha256" "SHA-256").
  rewrite (addIfOwn_withHashes i "sha384" "SHA-384").
  rewrite (addIfOwn_withHashes i "sha512" "SHA-512").
  reflexivity.
Qed.

Lemma newComponent_hashes (allImports : option ImportMap) (pkg : PackageRecord)
    (ptype : string) (f : Format) :
  c_hashes (newComponent allImports pkg ptype f)
  = omit_if_empty (hashes_by_precedence pkg f).
Proof. unfold newComponent. now rewrite processHashes_hashes. Qed.

(** The component, field by field. *)
Lemma newComponent_fields (allImports : option ImportMap) (pkg : PackageRecord)
    (ptype : string) (f : Format) :
  newComponent allImports pkg ptype f =
  {| c_format := f;
     c_group := resolveGroup pkg;
     c_name := resolveName pkg;
     c_version := pkg_version pkg;
     c_hashes := omit_if_empty (hashes_by_precedence pkg f);
     c_licenses := getLicenses (pkg_license pkg) f;
     c_purl := purlString ptype pkg;
     c_externalReferences := omit_if_empty (addExternalReferences pkg f);
     c_scope := if truthy (compScope allImports pkg)
                then compScope allImports pkg else None;
     c_type := determinePackageType pkg;
     c_bom_ref := purlString ptype pkg;
     c_description := pkg_description pkg |}.
Proof.
  rewrite <- (newComponent_hashes allImports pkg ptype f).
  unfold newComponent at 1. rewrite processHashes_withHashes.
  unfold withHashes. cbn [c_format c_group c_name c_version c_licenses c_purl
                           c_externalReferences c_scope c_type c_bom_ref
                           c_description].
  reflexivity.
Qed.

Lemma hashes_by_precedence_values (pkg : PackageRecord) :
  map (fun h => (hash_alg h, hash_value h)) (hashes_by_precedence pkg xml)
  = map (fun h => (hash_alg h, hash_value h)) (hashes_by_precedence pkg json).
Proof.
  unfold hashes_by_precedence.
  destruct (truthy (pkg_shasum pkg)); [reflexivity|].
  destruct (truthy (pkg_integrity pkg)); [|reflexivity].
  induction hashPriority as [|[key alg] rest IH]; [reflexivity|].
  cbn [flat_map]. rewrite !map_app, IH. f_equal. cbn [fst snd].
  now destruct (own _ key) as [[d others]|].
Qed.

Lemma addExternalReferences_values (pkg : PackageRecord) :
  map (fun r => (ref_type r, ref_url r)) (addExternalReferences pkg xml)
  = map (fun r => (ref_type r, ref_url r)) (addExternalReferences pkg json).
Proof.
  unfold addExternalReferences.
  destruct (truthy (pkg_homepage pkg)), (truthy (pkg_bugs_url pkg)),
    (truthy (pkg_repository_url pkg)); reflexivity.
Qed.

Lemma omit_if_empty_map {A B : Type} (f : A -> B) (l : list A) :
  option_map (map f) (omit_if_empty l) = omit_if_empty (map f l).
Proof. now destruct l. Qed.

Lemma newComponent_same_content (allImports : option ImportMap)
    (pkg : PackageRecord) (ptype : string) :
  same_content (newComponent allImports pkg ptype xml)
    (newComponent allImports pkg ptype json).
Proof.
  rewrite !newComponent_fields. unfold same_content. simpl.
  repeat split.
  - now rewrite !omit_if_empty_map, hashes_by_precedence_values.
  - now rewrite !omit_if_empty_map, addExternalReferences_values.
Qed.

Lemma newComponent_withScope (imports1 imports2 : option ImportMap)
    (pkg : PackageRecord) (ptype : string) (f : Format) :
  newComponent imports1 pkg ptype f
  = withScope (c_scope (newComponent imports1 pkg ptype f))
      (newComponent imports2 pkg ptype f).
Proof. now rewrite !newComponent_fields. Qed.

End Fields.

(** X1.  The import-usage map decides the [scope] of a component and nothing
    else: for two maps (or none), [listComponents] returns lists of the same
    length in which corresponding components are equal up to their [scope]
    field; in particular the package-URLs are the same, in the same order. *)
Theorem listComponents_imports_only_scope `{Env}
    (store : Store) (imports1 imports2 : option ImportMap) (pkg : PkgInfo)
    (ptype : string) (format : Format) :
  exists out1 out2,
    listComponents store imports1 pkg ptype format = Some out1 /\
    listComponents store imports2 pkg ptype format = Some out2 /\
    Forall2
      (fun i1 i2 =>
         item_component i1
         = withScope (c_scope (item_component i1)) (item_component i2))
      out1 out2 /\
    item_purls out1 = item_purls out2.
Proof.
  destruct (listComponents_related store ptype imports1 imports2 format format
              (fun c1 c2 => c1 = withScope (c_scope c1) c2)
              (fun p => newComponent_withScope imports1 imports2 p ptype format) pkg)
    as (l1 & l2 & Hout1 & Hout2 & Hrel).
  exists (items format l1), (items format l2).
  split; [exact Hout1|]. split; [exact Hout2|].
  clear Hout1 Hout2. unfold related in Hrel.
  induction Hrel as [|[k1 c1] [k2 c2] l1' l2' [Hk Hc] _ IH]; simpl.
  - split; [constructor|reflexivity].
  - simpl in Hk, Hc. destruct IH as [IH1 IH2]. split.
    + constructor; [|exact IH1]. now destruct format.
    + unfold item_purls in *. simpl. f_equal; [|exact IH2].
      destruct format; simpl; rewrite Hc; reflexivity.
Qed.

(** X2.  The two encodings list the same components: the XML call and the
    JSON call of [listComponents] return lists of the same length, every XML
    element wrapped in [{ component: _ }] and every JSON element plain, and
    corresponding components agree on group, name, version, package-URL,
    bom-ref, scope, type and description, on their hashes as (algorithm,
    value) pairs and on their external references as (type, url) pairs. *)
Theorem listComponents_encodings_agree `{Env}
    (store : Store) (allImports : option ImportMap) (pkg : PkgInfo)
    (ptype : string) :
  exists outx outj,
    listComponents store allImports pkg ptype xml = Some outx /\
    listComponents store allImports pkg ptype json = Some outj /\
    Forall2
      (fun ix ij =>
         exists cx cj,
           ix = Wrapped cx /\ ij = Plain cj /\
           c_format cx = xml /\ c_format cj = json /\ same_content cx cj)
      outx outj.
Proof.
  destruct (listComponents_related store ptype allImports allImports xml json
              (fun c1 c2 => c_format c1 = xml /\ c_format c2 = json /\
                            same_content c1 c2)) with (pkg := pkg)
    as (l1 & l2 & Hout1 & Hout2 & Hrel).
  { intros p. split; [|split].
    - now rewrite newComponent_fields.
    - now rewrite newComponent_fields.
    - apply newComponent_same_content. }
  exists (items xml l1), (items json l2).
  split; [exact Hout1|]. split; [exact Hout2|].
  clear Hout1 Hout2. unfold related in Hrel.
  induction Hrel as [|[k1 c1] [k2 c2] l1' l2' [Hk (Hx & Hj & Hc)] _ IH]; simpl;
    constructor; [|exact IH].
  exists c1, c2. simpl in *. auto.
Qed.

(** ** Arrays of records *)

Section Arrays.

Context `{Env}.
Variables (store : Store) (allImports : option ImportMap) (ptype : string)
  (format : Format).

Local Abbreviation step fuel :=
  (fun acc p =>
     match acc with
     | Some l => addComponent fuel store allImports p ptype l false format
     | None => None
     end).
Local Abbreviation entry p :=
  (purlString ptype p, newComponent allImports p ptype format).

Lemma fold_add_extends fuel ps :
  forall l l', fold_left (step fuel) ps (Some l) = Some l' -> exists ext, l' = l ++ ext.
Proof.
  induction ps as [|p ps IHps]; simpl; intros l l' Hf.
  - injection Hf as <-. exists []. now rewrite app_nil_r.
  - destruct (addComponent fuel store allImports p ptype l false format)
      as [l1|] eqn:Hp; [|now rewrite fold_add_None in Hf].
    destruct (addComponent_extends _ _ _ _ _ _ _ _ _ Hp) as [e1 ->].
    destruct (IHps _ _ Hf) as [e2 ->]. exists (e1 ++ e2). now rewrite app_assoc.
Qed.

Lemma items_app (l1 l2 : ListObj) :
  items format (l1 ++ l2) = items format l1 ++ items format l2.
Proof. apply map_app. Qed.

Lemma items_entries (rs : list PackageRecord) :
  items format (map (fun p => entry p) rs)
  = map (fun p => item format (newComponent allImports p ptype format)) rs.
Proof.
  unfold items. rewrite map_map. apply map_ext. intros p. now destruct format.
Qed.

(** A record without dependency objects is a leaf of the walk. *)
Lemma traverse_leaf fuel p l :
  objects store (dependencyObjects p) = [] ->
  traverse fuel store allImports ptype format p l = Some l.
Proof.
  intros Hleaf. unfold traverse. now rewrite fold_visit_objects, Hleaf.
Qed.

Lemma fold_add_flat fuel ps :
  forall l seen,
    (forall k, includes seen k = false <-> get l k = None) ->
    Forall (fun p => objects store (dependencyObjects p) = []) ps ->
    fold_left (step (S fuel)) ps (Some l)
    = Some (l ++ map (fun p => entry p) (firstRecords ptype seen ps)).
Proof.
  induction ps as [|p ps IHps]; intros l seen Hseen Hflat.
  - simpl. now rewrite app_nil_r.
  - inversion Hflat as [|? ? Hp Hps]; subst.
    cbn [fold_left firstRecords]. rewrite addComponent_S.
    unfold admissible.
    destruct (pkg_extraneous p); [now apply IHps|].
    destruct (isTypesPackage ptype p); [now apply IHps|].
    cbn [negb andb].
    destruct (get l (purlString ptype p)) as [c|] eqn:Hg.
    + assert (Hin : includes seen (purlString ptype p) = true).
      { destruct (includes seen (purlString ptype p)) eqn:Hi; [reflexivity|].
        apply Hseen in Hi. congruence. }
      rewrite Hin. now apply IHps.
    + assert (Hin : includes seen (purlString ptype p) = false) by now apply Hseen.
      rewrite Hin. cbn [negb]. rewrite (traverse_leaf fuel p _ Hp).
      rewrite (IHps _ (purlString ptype p :: seen)); [|clear IHps|exact Hps].
      * cbn [map]. now rewrite <- app_assoc.
      * intros k. unfold includes. cbn [existsb]. rewrite get_app.
        fold (includes seen k). rewrite String.eqb_sym.
        destruct (get l k) as [c|] eqn:Hk.
        -- assert (Hi : includes seen k = true).
           { destruct (includes seen k) eqn:Hi; [reflexivity|].
             apply Hseen in Hi. congruence. }
           rewrite Hi, orb_true_r. split; discriminate.
        -- assert (Hi : includes seen k = false) by now apply Hseen.
           rewrite Hi, orb_false_r. simpl.
           destruct (String.eqb (purlString ptype p) k); split;
             (reflexivity || discriminate).
Qed.

End Arrays.

(** X3.  A flat array: when no record of the array has a dependency object,
    [listComponents] returns, in order, the components of the admissible
    records whose package-URL did not occur earlier in the array. *)
Theorem listComponents_flat_array `{Env}
    (store : Store) (allImports : option ImportMap) (ps : list PackageRecord)
    (ptype : string) (format : Format) :
  Forall (fun p => objects store (dependencyObjects p) = []) ps ->
  listComponents store allImports (PkgArray ps) ptype format
  = Some (map (fun p => item format (newComponent allImports p ptype format))
            (firstRecords ptype [] ps)).
Proof.
  intros Hflat. unfold listComponents, listComponents_fuel, walk_fuel, collect.
  rewrite (fold_add_flat store allImports ptype format _ ps [] []); [|tauto|exact Hflat].
  simpl. now rewrite items_entries.
Qed.

(** A Maven-style list in which [junit] occurs twice and one record is
    extraneous. *)
Lemma listComponents_flat_array_junit :
  Forall (fun p => @objects Sample.env [] (dependencyObjects p) = [])
    [Sample.package "junit" "4.13" None; Sample.package "guava" "30.0" None;
     Sample.with_extraneous (Sample.package "mockito" "3.0" None);
     Sample.package "junit" "4.13" None]
  /\ option_map item_purls
       (listComponents [] None
          (PkgArray
             [Sample.package "junit" "4.13" None; Sample.package "guava" "30.0" None;
              Sample.with_extraneous (Sample.package "mockito" "3.0" None);
              Sample.package "junit" "4.13" None]) "maven" json)
     = Some ["pkg:maven/junit@4.13"; "pkg:maven/guava@30.0"].
Proof.
  assert (Hflat : Forall (fun p => @objects Sample.env [] (dependencyObjects p) = [])
            [Sample.package "junit" "4.13" None; Sample.package "guava" "30.0" None;
             Sample.with_extraneous (Sample.package "mockito" "3.0" None);
             Sample.package "junit" "4.13" None])
    by (repeat constructor).
  split; [exact Hflat|].
  rewrite (listComponents_flat_array [] None _ "maven" json Hflat). reflexivity.
Defined.

(** X4.  Appending records to the array only appends to the list: the list
    for [ps1 ++ ps2] starts with the list for [ps1], unchanged. *)
Theorem listComponents_array_app `{Env}
    (store : Store) (allImports : option ImportMap) (ps1 ps2 : list PackageRecord)
    (ptype : string) (format : Format) :
  exists out1 more,
    listComponents store allImports (PkgArray ps1) ptype format = Some out1 /\
    listComponents store allImports (PkgArray (ps1 ++ ps2)) ptype format
    = Some (out1 ++ more).
Proof.
  destruct (listComponents_walked store allImports (PkgArray ps1) ptype format)
    as (l1 & Hl1 & Hout1 & _).
  destruct (listComponents_walked store allImports (PkgArray (ps1 ++ ps2)) ptype format)
    as (l & Hl & Hout & _).
  unfold collect in Hl1, Hl. rewrite fold_left_app, Hl1 in Hl.
  destruct (fold_add_extends store allImports ptype format _ ps2 l1 l Hl) as [ext ->].
  exists (items format l1), (items format ext).
  split; [exact Hout1|]. now rewrite Hout, items_app.
Qed.

(** X5.  Only [npm] has a root and a [@types] filter: for any other
    ecosystem every top-level record that is not flagged extraneous, whether
    passed alone or in an array and whatever its group and name, has its
    package-URL in the list. *)
Theorem listComponents_other_ecosystems `{Env}
    (store : Store) (allImports : option ImportMap) (pkg : PkgInfo)
    (ptype : string) (format : Format) :
  String.eqb ptype "npm" = false ->
  exists out,
    listComponents store allImports pkg ptype format = Some out /\
    forall p,
      In p (tops pkg) -> pkg_extraneous p = false ->
      In (purlString ptype p) (item_purls out).
Proof.
  intros Hnpm.
  destruct (listComponents_walked store allImports pkg ptype format)
    as (l & Hl & Hout & _ & _ & Hkeys).
  exists (items format l). split; [exact Hout|].
  intros p Hin Hex. rewrite Hkeys.
  assert (Had : admissible ptype p = true).
  { unfold admissible, isTypesPackage. now rewrite Hex, Hnpm. }
  assert (Hc : exists c, get l (purlString ptype p) = Some c).
  { destruct pkg as [ps|p0].
    - eapply collect_covers_array; eauto.
    - simpl in Hin. destruct Hin as [->|[]].
      unfold collect in Hl. rewrite Hnpm in Hl.
      rewrite (addComponent_stores _ _ _ _ _ _ _ _ Had Hl). eauto. }
  destruct Hc as [c Hc]. apply get_Some_In in Hc.
  change (purlString ptype p) with (fst (purlString ptype p, c)). now apply in_map.
Qed.

(** A Maven artifact whose name starts with [@types], passed alone. *)
Lemma listComponents_other_ecosystems_maven :
  String.eqb "maven" "npm" = false
  /\ exists out,
       listComponents [] None (PkgSingle (Sample.package "@types/node" "1.0" None))
         "maven" xml = Some out
       /\ In "pkg:maven/types/node@1.0" (item_purls out).
Proof.
  split; [reflexivity|].
  destruct (listComponents_other_ecosystems [] None
              (PkgSingle (Sample.package "@types/node" "1.0" None)) "maven" xml
              eq_refl) as (out & Hout & Hall).
  exists out. split; [exact Hout|].
  apply (Hall (Sample.package "@types/node" "1.0" None)); [now left|reflexivity].
Defined.

(** X6.  The walk is in pre-order: a record that passes the filters and
    whose package-URL is new is filed right after what [list] held, before
    anything that is reached through its dependencies. *)
Theorem addComponent_preorder `{Env}
    (store : Store) (allImports : option ImportMap) (ptype : string)
    (format : Format) (fuel : nat) (p : PackageRecord) (l l' : ListObj) :
  admissible ptype p = true ->
  get l (purlString ptype p) = None ->
  addComponent fuel store allImports p ptype l false format = Some l' ->
  exists below,
    l' = l ++ (purlString ptype p, newComponent allImports p ptype format) :: below.
Proof.
  unfold admissible. intros Had Hg Hrun.
  apply andb_prop in Had. destruct Had as [Hex Hty].
  apply negb_true_iff in Hex. apply negb_true_iff in Hty.
  destruct fuel as [|fuel]; [discriminate|].
  rewrite addComponent_S, Hex, Hty, Hg in Hrun.
  assert (Hroot : addComponent (S fuel) store allImports p ptype
                    (l ++ [(purlString ptype p, newComponent allImports p ptype format)])
                    true format = Some l')
    by now rewrite addComponent_S, Hex.
  destruct (addComponent_extends _ _ _ _ _ _ _ _ _ Hroot) as [below ->].
  exists below. now rewrite <- app_assoc.
Qed.

(** [left] is filed before [base], which is reached through it. *)
Lemma addComponent_preorder_left :
  admissible "npm" (Sample.package "left" "1.0.0" (Some [("base", DepObject 2)]))
  = true
  /\ exists below,
       @addComponent Sample.env 3 Sample.diamond_store None
         (Sample.package "left" "1.0.0" (Some [("base", DepObject 2)]))
         "npm" [] false json
       = Some ([] ++ ("pkg:npm/left@1.0.0",
                      newComponent None
                        (Sample.package "left" "1.0.0" (Some [("base", DepObject 2)]))
                        "npm" json) :: below).
Proof.
  split; [reflexivity|].
  destruct (addComponent_preorder Sample.diamond_store None "npm" json 3
              (Sample.package "left" "1.0.0" (Some [("base", DepObject 2)]))
              [] _ eq_refl eq_refl eq_refl) as [below Hbelow].
  exists below. exact (f_equal Some Hbelow).
Defined.

(** ** The shape of a component *)

Section Shape.

Context `{Env}.

Lemma omit_if_empty_nonempty {A : Type} (l : list A) : omit_if_empty l <> Some [].
Proof. now destruct l. Qed.

Lemma determinePackageType_cases (pkg : PackageRecord) :
  determinePackageType pkg = "framework" \/ determinePackageType pkg = "library".
Proof.
  unfold determinePackageType. destruct (pkg_keywords pkg) as [kws|]; [|now right].
  destruct (existsb _ kws); [now left|now right].
Qed.

Lemma newComponent_well_formed (allImports : option ImportMap)
    (pkg : PackageRecord) (ptype : string) (format : Format) :
  well_formed format (newComponent allImports pkg ptype format).
Proof.
  rewrite newComponent_fields. unfold well_formed.
  cbn [c_format c_bom_ref c_purl c_hashes c_externalReferences c_scope c_type].
  repeat split.
  - apply omit_if_empty_nonempty.
  - apply omit_if_empty_nonempty.
  - destruct (compScope allImports pkg) as [[|a s]|]; simpl; discriminate.
  - apply determinePackageType_cases.
Qed.

Lemma hashes_by_precedence_ok (pkg : PackageRecord) (format : Format) :
  NoDup (map hash_alg (hashes_by_precedence pkg format)) /\
  List.length (hashes_by_precedence pkg format) <= 4 /\
  forallb (hash_shape format) (hashes_by_precedence pkg format) = true.
Proof.
  unfold hashes_by_precedence.
  destruct (truthy (pkg_shasum pkg)).
  { destruct format; (split; [|split]); simpl; auto; repeat constructor; auto. }
  destruct (truthy (pkg_integrity pkg)).
  2:{ split; [constructor|split]; simpl; auto; lia. }
  unfold hashPriority. cbn [flat_map fst snd].
  destruct (own _ "sha512") as [[d1 o1]|], (own _ "sha384") as [[d2 o2]|],
    (own _ "sha256") as [[d3 o3]|], (own _ "sha1") as [[d4 o4]|];
    destruct format; (split; [|split]); simpl; try lia; try reflexivity;
    repeat constructor; simpl; intuition discriminate.
Qed.

Lemma newComponent_hashes_ok (allImports : option ImportMap)
    (pkg : PackageRecord) (ptype : string) (format : Format) :
  hashes_ok format (newComponent allImports pkg ptype format).
Proof.
  unfold hashes_ok. rewrite newComponent_hashes.
  pose proof (hashes_by_precedence_ok pkg format) as Hok.
  destruct (hashes_by_precedence pkg format); simpl; auto.
Qed.

(** A property of every component of a record holds of every listed item. *)
Lemma listComponents_Forall (store : Store) (allImports : option ImportMap)
    (pkg : PkgInfo) (ptype : string) (format : Format) (P : Component -> Prop) :
  (forall p, P (newComponent allImports p ptype format)) ->
  exists out,
    listComponents store allImports pkg ptype format = Some out /\
    Forall (fun i => P (item_component i)) out.
Proof.
  intros HP.
  destruct (listComponents_walked store allImports pkg ptype format)
    as (l & _ & Hout & _).
  exists (items format l). split; [exact Hout|].
  apply Forall_forall. intros i Hin.
  destruct (listComponents_provenance store allImports pkg ptype format _ i Hout Hin)
    as (p & _ & _ & ->).
  apply HP.
Qed.

Lemma purls_incl (store : Store) (allImports : option ImportMap)
    (pkg : PkgInfo) (ptype : string) (format : Format) (l : ListObj) :
  from_records allImports ptype format (fun p => In p (tops pkg ++ store)) l ->
  incl (Object_keys l) (map (purlString ptype) (tops pkg ++ store)).
Proof.
  intros Hfrom k Hk. unfold Object_keys in Hk.
  apply in_map_iff in Hk. destruct Hk as ([k' c] & <- & Hin).
  destruct (Hfrom k' c Hin) as (p & Hp & _ & -> & _).
  cbn [fst]. now apply (in_map (purlString ptype)).
Qed.

End Shape.

(** X7.  The list is never longer than the input: [listComponents] returns
    at most as many components as there are records among the top-level
    records and the objects they can refer to. *)
Theorem listComponents_length `{Env}
    (store : Store) (allImports : option ImportMap) (pkg : PkgInfo)
    (ptype : string) (format : Format) :
  exists out,
    listComponents store allImports pkg ptype format = Some out /\
    List.length out <= List.length (tops pkg) + List.length store.
Proof.
  destruct (listComponents_walked store allImports pkg ptype format)
    as (l & _ & Hout & Hnd & Hfrom & Hkeys).
  exists (items format l). split; [exact Hout|].
  pose proof (NoDup_incl_length Hnd
                (purls_incl store allImports pkg ptype format l Hfrom)) as Hle.
  unfold Object_keys in Hle. rewrite !length_map, length_app in Hle.
  unfold items. now rewrite length_map.
Qed.

(** X8.  Every listed component is complete and tidy: it carries the
    encoding it was built for, its bom-ref is its package-URL, its [hashes],
    [externalReferences] and [scope] are either absent or non-empty, and its
    type is [framework] or [library]; no two listed components share a
    bom-ref. *)
Theorem listComponents_well_formed `{Env}
    (store : Store) (allImports : option ImportMap) (pkg : PkgInfo)
    (ptype : string) (format : Format) :
  exists out,
    listComponents store allImports pkg ptype format = Some out /\
    Forall (fun i => well_formed format (item_component i)) out /\
    NoDup (map (fun i => c_bom_ref (item_component i)) out).
Proof.
  destruct (listComponents_Forall store allImports pkg ptype format
              (well_formed format)) as (out & Hout & Hall).
  { intros p. apply newComponent_well_formed. }
  exists out. split; [exact Hout|]. split; [exact Hall|].
  destruct (listComponents_walked store allImports pkg ptype format)
    as (l & _ & Hout' & Hnd & _ & Hkeys).
  rewrite Hout' in Hout. injection Hout as <-.
  rewrite <- Hkeys in Hnd. unfold item_purls in Hnd.
  erewrite map_ext_in; [exact Hnd|].
  intros i Hin. rewrite Forall_forall in Hall.
  now destruct (Hall i Hin) as (_ & -> & _).
Qed.

(** X10.  The hashes of a listed component name every algorithm at most
    once, are at most four, and all have the shape of the encoding
    ([{ hash: { "@alg", "#text" } }] for XML, [{ alg, content }] for
    JSON). *)
Theorem listComponents_hashes_ok `{Env}
    (store : Store) (allImports : option ImportMap) (pkg : PkgInfo)
    (ptype : string) (format : Format) :
  exists out,
    listComponents store allImports pkg ptype format = Some out /\
    Forall (fun i => hashes_ok format (item_component i)) out.
Proof.
  apply listComponents_Forall. intros p. apply newComponent_hashes_ok.
Qed.

(** X9.  A record that occurs again later in the array changes nothing:
    the second occurrence is either filtered out or dropped because its
    package-URL is already a key, and nothing below it is visited again. *)
Theorem listComponents_repeated_record `{Env}
    (store : Store) (allImports : option ImportMap) (ps1 ps2 : list PackageRecord)
    (p : PackageRecord) (ptype : string) (format : Format) :
  In p ps1 ->
  listComponents store allImports (PkgArray (ps1 ++ p :: ps2)) ptype format
  = listComponents store allImports (PkgArray (ps1 ++ ps2)) ptype format.
Proof.
  intros Hin. unfold listComponents, listComponents_fuel. f_equal.
  destruct (collect_total store allImports ptype format (walk_fuel store)
              (PkgArray ps1) (le_n _)) as [l1 Hl1].
  pose proof Hl1 as Hfold. unfold collect in Hfold |- *.
  rewrite !fold_left_app, Hfold. cbn [fold_left]. f_equal.
  unfold walk_fuel. rewrite addComponent_S.
  destruct (pkg_extraneous p) eqn:Hex; [reflexivity|].
  destruct (isTypesPackage ptype p) eqn:Hty; [reflexivity|].
  assert (Had : admissible ptype p = true)
    by (unfold admissible; now rewrite Hex, Hty).
  destruct (collect_covers_array store allImports ptype format _ ps1 l1 p Hl1 Hin Had)
    as [c Hc].
  now rewrite Hc.
Qed.

(** [guava] listed twice. *)
Lemma listComponents_repeated_record_guava :
  In (Sample.package "guava" "30.0" None)
    [Sample.package "junit" "4.13" None; Sample.package "guava" "30.0" None]
  /\ listComponents [] None
       (PkgArray ([Sample.package "junit" "4.13" None;
                   Sample.package "guava" "30.0" None]
                  ++ Sample.package "guava" "30.0" None
                  :: [Sample.package "asm" "9.0" None]))
       "maven" json
     = listComponents [] None
         (PkgArray ([Sample.package "junit" "4.13" None;
                     Sample.package "guava" "30.0" None]
                    ++ [Sample.package "asm" "9.0" None]))
         "maven" json.
Proof.
  split; [right; now left|].
  apply (listComponents_repeated_record [] None
           [Sample.package "junit" "4.13" None; Sample.package "guava" "30.0" None]
           [Sample.package "asm" "9.0" None]
           (Sample.package "guava" "30.0" None) "maven" json).
  right; now left.
Defined.

(** ** Digests *)

Section Digests.

Context `{Env}.

Lemma all_chars_impl (p q : ascii -> bool) (s : string) :
  (forall c, p c = true -> q c = true) ->
  all_chars p s = true -> all_chars q s = true.
Proof.
  intros Hpq. induction s as [|c s IH]; [reflexivity|].
  cbn [all_chars]. rewrite !andb_true_iff. intros [Hc Hs]. auto.
Qed.

Lemma is_lower_hex_hex (c : ascii) : is_lower_hex c = true -> is_hex_char c = true.
Proof.
  unfold is_lower_hex, is_hex_char. cbv zeta.
  rewrite !orb_true_iff. tauto.
Qed.

Lemma to_hex_hex (bs : list byte) :
  all_chars is_hex_char (Buffer.to_hex bs) = true.
Proof.
  apply (all_chars_impl is_lower_hex); [apply is_lower_hex_hex|apply to_hex_lower].
Qed.

Lemma to_hex_length (bs : list byte) :
  String.length (Buffer.to_hex bs) = 2 * List.length bs.
Proof.
  induction bs as [|b bs IH]; [reflexivity|].
  cbn [Buffer.to_hex String.length List.length]. rewrite IH. lia.
Qed.

(** The base64 text of a byte sequence whose length is not a multiple of
    three ends in padding, which is no hexadecimal character. *)
Lemma to_base64_padded (bs : list byte) :
  List.length bs mod 3 <> 0 ->
  all_chars is_hex_char (Buffer.to_base64 bs) = false.
Proof.
  induction bs as [|a|a b|a b c rest IH] using list_ind3; intros Hlen.
  - now elim Hlen.
  - cbn [Buffer.to_base64 all_chars].
    now rewrite !andb_false_r.
  - cbn [Buffer.to_base64 all_chars].
    now rewrite !andb_false_r.
  - cbn [Buffer.to_base64 all_chars]. rewrite IH; [now rewrite !andb_false_r|].
    cbn [List.length] in Hlen.
    replace (S (S (S (List.length rest)))) with (List.length rest + 1 * 3) in Hlen by lia.
    now rewrite Nat.Div0.mod_add in Hlen.
Qed.

Lemma normalizeDigest_to_base64 (bs : list byte) :
  normalizeDigest (Buffer.to_base64 bs) = Buffer.to_base64 bs /\
  HASH_PATTERN_test (Buffer.to_base64 bs) = true
  \/ normalizeDigest (Buffer.to_base64 bs) = Buffer.to_hex bs.
Proof.
  unfold normalizeDigest.
  destruct (HASH_PATTERN_test (Buffer.to_base64 bs)); [now left|right].
  now rewrite from_base64_to_base64, String.eqb_refl.
Qed.

End Digests.

(** X11.  A base64 digest that carries padding is always converted: for a
    byte sequence whose length is not a multiple of three (the 16, 20, 32
    and 64 bytes of MD5, SHA-1, SHA-256 and SHA-512 digests among them) the
    base64 text is emitted as the lowercase hex digits of the bytes, two per
    byte. *)
Theorem normalizeDigest_padded_base64 (bs : list byte) :
  List.length bs mod 3 <> 0 ->
  normalizeDigest (Buffer.to_base64 bs) = Buffer.to_hex bs
  /\ all_chars is_lower_hex (normalizeDigest (Buffer.to_base64 bs)) = true
  /\ String.length (normalizeDigest (Buffer.to_base64 bs)) = 2 * List.length bs.
Proof.
  intros Hlen.
  assert (Hn : normalizeDigest (Buffer.to_base64 bs) = Buffer.to_hex bs).
  { destruct (normalizeDigest_to_base64 bs) as [[_ Hpat]|Hhex]; [|exact Hhex].
    unfold HASH_PATTERN_test in Hpat.
    now rewrite (to_base64_padded bs Hlen) in Hpat. }
  rewrite Hn. split; [reflexivity|]. split; [apply to_hex_lower|apply to_hex_length].
Qed.

(** The two bytes of [fo]. *)
Lemma normalizeDigest_padded_base64_fo :
  List.length [x66; x6f] mod 3 <> 0
  /\ normalizeDigest "Zm8=" = "666f".
Proof.
  split; [discriminate|].
  apply (normalizeDigest_padded_base64 [x66; x6f]). discriminate.
Defined.

(** X12.  Whatever way a digest of a standard size arrives in base64, what
    is emitted has the shape of a hex digest: for 16, 20, 32, 48 or 64 bytes
    the emitted value consists of 32, 40, 64, 96 or 128 hexadecimal
    characters, and normalising it once more leaves it as it is. *)
Theorem normalizeDigest_standard_sizes (bs : list byte) :
  In (List.length bs) [16; 20; 32; 48; 64] ->
  HASH_PATTERN_test (normalizeDigest (Buffer.to_base64 bs)) = true
  /\ normalizeDigest (normalizeDigest (Buffer.to_base64 bs))
     = normalizeDigest (Buffer.to_base64 bs).
Proof.
  intros Hlen.
  assert (Hpat : HASH_PATTERN_test (normalizeDigest (Buffer.to_base64 bs)) = true).
  { destruct (normalizeDigest_to_base64 bs) as [[-> Hpat]| ->]; [exact Hpat|].
    unfold HASH_PATTERN_test. rewrite to_hex_hex, to_hex_length.
    simpl in Hlen.
    destruct Hlen as [<-|[<-|[<-|[<-|[<-|[]]]]]]; reflexivity. }
  split; [exact Hpat|].
  unfold normalizeDigest at 1. now rewrite Hpat.
Qed.

(** Sixteen zero bytes. *)
Lemma normalizeDigest_standard_sizes_zeros :
  In (List.length (repeat x00 16)) [16; 20; 32; 48; 64]
  /\ HASH_PATTERN_test (normalizeDigest "AAAAAAAAAAAAAAAAAAAAAA==") = true
  /\ normalizeDigest (normalizeDigest "AAAAAAAAAAAAAAAAAAAAAA==")
     = normalizeDigest "AAAAAAAAAAAAAAAAAAAAAA==".
Proof.
  split; [now left|].
  apply (normalizeDigest_standard_sizes (repeat x00 16)). now left.
Defined.

(** ** External references *)

Section References.

Context `{Env}.

Lemma addExternalReferences_ok (pkg : PackageRecord) (format : Format) :
  NoDup (map ref_type (addExternalReferences pkg format)) /\
  incl (map ref_type (addExternalReferences pkg format))
    ["website"; "issue-tracker"; "vcs"] /\
  Forall (fun r => ref_url r <> "") (addExternalReferences pkg format) /\
  forallb (ref_shape format) (addExternalReferences pkg format) = true.
Proof.
  unfold addExternalReferences.
  destruct (pkg_homepage pkg) as [[|a1 s1]|], (pkg_bugs_url pkg) as [[|a2 s2]|],
    (pkg_repository_url pkg) as [[|a3 s3]|], format;
    cbn [truthy or_empty app map ref_type ref_url forallb ref_shape andb];
    (split; [|split; [|split]]);
    try reflexivity;
    try (repeat constructor; cbn [In]; intuition discriminate);
    try (intros x Hx; cbn [In] in *; tauto).
Qed.

Lemma newComponent_references_ok (allImports : option ImportMap)
    (pkg : PackageRecord) (ptype : string) (format : Format) :
  references_ok format (newComponent allImports pkg ptype format).
Proof.
  unfold references_ok. rewrite newComponent_fields. cbn [c_externalReferences].
  pose proof (addExternalReferences_ok pkg format) as Hok.
  destruct (addExternalReferences pkg format); simpl; auto.
Qed.

End References.

(** X13.  The external references of a listed component are at most one per
    kind, of the kinds [website], [issue-tracker] and [vcs] only, each with
    a non-empty URL, and all in the shape of the encoding
    ([{ reference: { "@type", url } }] for XML, [{ type, url }] for
    JSON). *)
Theorem listComponents_references_ok `{Env}
    (store : Store) (allImports : option ImportMap) (pkg : PkgInfo)
    (ptype : string) (format : Format) :
  exists out,
    listComponents store allImports pkg ptype format = Some out /\
    Forall (fun i => references_ok format (item_component i)) out.
Proof.
  apply listComponents_Forall. intros p. apply newComponent_references_ok.
Qed.

(** ** The two documents of one run *)

Section Documents.

Context {E : Env} {P : Serializer}.

Lemma items_related (R : Component -> Component -> Prop) (l1 l2 : ListObj) :
  related R l1 l2 ->
  Forall2 (fun ix ij => R (item_component ix) (item_component ij))
    (items xml l1) (items json l2).
Proof.
  unfold related. intros Hrel.
  induction Hrel as [|[k1 c1] [k2 c2] l1' l2' [_ Hc] _ IH]; simpl;
    constructor; [exact Hc|exact IH].
Qed.

Lemma xmlDocument_deterministic_path (w1 w2 : World) (c1 c2 : BomContext)
    (components : list Item) :
  ctx_src c1 = ctx_src c2 ->
  truthy (ctx_filename c1) = truthy (ctx_filename c2) ->
  xmlDocument w1 true c1 components = xmlDocument w2 true c2 components.
Proof.
  unfold xmlDocument. cbn [negb]. now intros -> ->.
Qed.

End Documents.

(** X14.  The two documents of one run describe the same BOM: when
    [buildBomString] hands over its strings, they are the prints of an XML
    document and a JSON document with the same metadata and version, whose
    component lists are non-empty and of the same length, and in which
    corresponding components are the components of one and the same record,
    built for XML and for JSON: they differ in nothing but the encoding
    (their licenses are what [getLicenses] gives for that record in either
    format), and so agree on group, name, version, package-URL, bom-ref,
    scope, type, description, hash values and reference URLs.  Outside
    deterministic mode the XML serial number is the JSON one, in
    deterministic mode the XML document has none; the namespace mapping is
    the one of the context, or empty. *)
Theorem buildBomString_documents_agree {E : Env} {P : Serializer}
    (w : World) (store : Store) (deterministicForTests : bool)
    (pkgInfo : PkgInfo) (ptype : string) (context : BomContext)
    (bomString jsonString : string) (nsMapping : NsMapping) :
  buildBomString w store deterministicForTests pkgInfo ptype context
  = Some (BomArguments bomString jsonString nsMapping) ->
  exists dx dj,
    bomString = bom_end dx /\
    jsonString = JSON_stringify dj /\
    x_metadata dx = j_metadata dj /\
    x_version dx = j_version dj /\
    x_serialNumber dx
    = (if deterministicForTests then None else Some (j_serialNumber dj)) /\
    x_components dx <> [] /\
    Forall2
      (fun ix ij =>
         (exists p,
             item_component ix
             = newComponent (Some (contextImports context)) p ptype xml /\
             item_component ij
             = newComponent (Some (contextImports context)) p ptype json /\
             c_licenses (item_component ix) = getLicenses (pkg_license p) xml /\
             c_licenses (item_component ij) = getLicenses (pkg_license p) json) /\
         same_content (item_component ix) (item_component ij))
      (x_components dx) (j_components dj) /\
    nsMapping = match ctx_nsMapping context with Some m => m | None => [] end.
Proof.
  unfold buildBomString.
  destruct (listComponents_related store ptype (Some (contextImports context))
              (Some (contextImports context)) xml json
              (fun c1 c2 =>
                 (exists p,
                     c1 = newComponent (Some (contextImports context)) p ptype xml /\
                     c2 = newComponent (Some (contextImports context)) p ptype json /\
                     c_licenses c1 = getLicenses (pkg_license p) xml /\
                     c_licenses c2 = getLicenses (pkg_license p) json) /\
                 same_content c1 c2)) with (pkg := pkgInfo)
    as (l1 & l2 & -> & -> & Hrel).
  { intros p. split; [|apply newComponent_same_content].
    exists p. rewrite !newComponent_fields. repeat split. }
  apply items_related in Hrel.
  destruct (items xml l1) as [|c components] eqn:Hx; [discriminate|].
  intros [= <- <- <-].
  exists (xmlDocument w deterministicForTests context (c :: components)),
    (jsonTpl w deterministicForTests (items json l2)).
  repeat split; try exact Hrel; try discriminate.
  now destruct deterministicForTests.
Qed.

(** The diamond project, outside deterministic mode. *)
Lemma buildBomString_documents_agree_diamond :
  exists x j n,
    @buildBomString Sample.env Sample.printers
      {| uuidv4 := "11111111-1111-4111-8111-111111111111";
         Date_toISOString := "2021-01-01T00:00:00.000Z" |}
      Sample.diamond_store false (PkgSingle Sample.diamond_root) "npm"
      {| ctx_src := Some "/proj"; ctx_filename := Some "package.json";
         ctx_allImports := None; ctx_nsMapping := None |}
    = Some (BomArguments x j n)
    /\ exists dx dj,
         x = @bom_end Sample.env Sample.printers dx /\
         j = @JSON_stringify Sample.env Sample.printers dj /\
         @x_serialNumber Sample.env dx = Some (@j_serialNumber Sample.env dj) /\
         Forall2
           (fun ix ij =>
              exists p,
                item_component ix = @newComponent Sample.env (Some []) p "npm" xml /\
                item_component ij = @newComponent Sample.env (Some []) p "npm" json)
           (@x_components Sample.env dx) (@j_components Sample.env dj) /\
         n = [].
Proof.
  eexists. eexists. eexists. split; [reflexivity|].
  destruct (@buildBomString_documents_agree Sample.env Sample.printers
              {| uuidv4 := "11111111-1111-4111-8111-111111111111";
                 Date_toISOString := "2021-01-01T00:00:00.000Z" |}
              Sample.diamond_store false (PkgSingle Sample.diamond_root) "npm"
              {| ctx_src := Some "/proj"; ctx_filename := Some "package.json";
                 ctx_allImports := None; ctx_nsMapping := None |}
              _ _ _ eq_refl)
    as (dx & dj & Hx & Hj & _ & _ & Hserial & _ & Hcomps & Hn).
  exists dx, dj. repeat split; try assumption.
  clear - Hcomps. induction Hcomps as [|ix ij lx lj [(p & Hpx & Hpj & _) _] _ IH];
    constructor; [|exact IH].
  exists p. split; assumption.
Defined.

(** X15.  In deterministic mode the XML string gives away neither the draws
    of the run nor the path of the package file: two runs over the same
    records and imports, whose contexts have the same source directory and
    both (or neither) name a package file, print the same XML. *)
Theorem buildBomString_deterministic_xml_path {E : Env} {P : Serializer}
    (w1 w2 : World) (store : Store) (pkgInfo : PkgInfo) (ptype : string)
    (c1 c2 : BomContext) (x1 x2 j1 j2 : string) (n1 n2 : NsMapping) :
  ctx_src c1 = ctx_src c2 ->
  truthy (ctx_filename c1) = truthy (ctx_filename c2) ->
  contextImports c1 = contextImports c2 ->
  buildBomString w1 store true pkgInfo ptype c1 = Some (BomArguments x1 j1 n1) ->
  buildBomString w2 store true pkgInfo ptype c2 = Some (BomArguments x2 j2 n2) ->
  x1 = x2.
Proof.
  intros Hsrc Hfile Himports. unfold buildBomString. rewrite Himports.
  destruct (listComponents store (Some (contextImports c2)) pkgInfo ptype xml)
    as [[|c comps]|]; try discriminate.
  destruct (listComponents store (Some (contextImports c2)) pkgInfo ptype json);
    try discriminate.
  intros [= <- _ _] [= <- _ _].
  apply (f_equal bom_end). now apply xmlDocument_deterministic_path.
Qed.

(** Two deterministic runs that read different package files. *)
Lemma buildBomString_deterministic_xml_path_diamond :
  exists x1 j1 n1 x2 j2 n2,
    @buildBomString Sample.env Sample.printers
      {| uuidv4 := "11111111-1111-4111-8111-111111111111";
         Date_toISOString := "2021-01-01T00:00:00.000Z" |}
      Sample.diamond_store true (PkgSingle Sample.diamond_root) "npm"
      {| ctx_src := Some "/proj"; ctx_filename := Some "package.json";
         ctx_allImports := None; ctx_nsMapping := None |}
    = Some (BomArguments x1 j1 n1)
    /\ @buildBomString Sample.env Sample.printers
         {| uuidv4 := "22222222-2222-4222-8222-222222222222";
            Date_toISOString := "2021-02-02T00:00:00.000Z" |}
         Sample.diamond_store true (PkgSingle Sample.diamond_root) "npm"
         {| ctx_src := Some "/proj"; ctx_filename := Some "package-lock.json";
            ctx_allImports := Some []; ctx_nsMapping := None |}
       = Some (BomArguments x2 j2 n2)
    /\ x1 = x2.
Proof.
  do 6 eexists. split; [reflexivity|]. split; [reflexivity|].
  apply (@buildBomString_deterministic_xml_path Sample.env Sample.printers
           {| uuidv4 := "11111111-1111-4111-8111-111111111111";
              Date_toISOString := "2021-01-01T00:00:00.000Z" |}
           {| uuidv4 := "22222222-2222-4222-8222-222222222222";
              Date_toISOString := "2021-02-02T00:00:00.000Z" |}
           Sample.diamond_store (PkgSingle Sample.diamond_root) "npm"
           {| ctx_src := Some "/proj"; ctx_filename := Some "package.json";
              ctx_allImports := None; ctx_nsMapping := None |}
           {| ctx_src := Some "/proj"; ctx_filename := Some "package-lock.json";
              ctx_allImports := Some []; ctx_nsMapping := None |}
           _ _ _ _ _ _ eq_refl eq_refl eq_refl eq_refl eq_refl).
Defined.

(** ** The command line *)

Section CommandLine.

Context `{Node}.

Lemma String_replace_absent (s pattern replacement : string) :
  str_includes s pattern = false -> String_replace s pattern replacement = s.
Proof.
  induction s as [|c s IH]; cbn [str_includes String_replace]; intros Hno;
    apply orb_false_elim in Hno; destruct Hno as [Hp Hs]; rewrite Hp;
    [reflexivity|].
  now rewrite IH.
Qed.

Lemma prefix_other (c d : ascii) (p s : string) :
  negb (Ascii.eqb c d) = true -> String.prefix (String d p) (String c s) = false.
Proof.
  intros Hne. cbn [String.prefix].
  destruct (ascii_dec d c) as [->|_]; [|reflexivity].
  now rewrite Ascii.eqb_refl in Hne.
Qed.

(** The extension of a name whose stem holds no dot is the only place where
    [".xml"] or [".json"] can occur. *)
Lemma String_replace_extension (stem : string) :
  all_chars (fun c => negb (Ascii.eqb c ".")) stem = true ->
  String_replace (stem ++ ".json") ".json" ".xml" = (stem ++ ".xml")%string /\
  String_replace (stem ++ ".json") ".xml" ".json" = (stem ++ ".json")%string /\
  String_replace (stem ++ ".xml") ".xml" ".json" = (stem ++ ".json")%string /\
  String_replace (stem ++ ".xml") ".json" ".xml" = (stem ++ ".xml")%string.
Proof.
  induction stem as [|c stem IH]; [intros _; repeat split|].
  cbn [all_chars]. intros Hc. apply andb_prop in Hc. destruct Hc as [Hc Hstem].
  destruct (IH Hstem) as (H1 & H2 & H3 & H4).
  cbn [String.append String_replace].
  rewrite !(prefix_other c "." _ _ Hc), H1, H2, H3, H4. repeat split.
Qed.

Lemma written_app (e1 e2 : list Effect) : written (e1 ++ e2) = written e1 ++ written e2.
Proof. apply flat_map_app. Qed.


Lemma requests_app (e1 e2 : list Effect) :
  requests (e1 ++ e2) = requests e1 ++ requests e2.
Proof. apply flat_map_app. Qed.

(** Handling the answer of the server writes no file and posts nothing. *)
Lemma submitBom_callback_prints (err body : Value) :
  written (submitBom_callback err body) = [] /\
  requests (submitBom_callback err body) = [] /\
  printed (submitBom_callback err body)
  = (if value_truthy err then [[err]] else [])
    ++ [[Str "Response from server"; body]].
Proof. unfold submitBom_callback. now destruct (value_truthy err). Qed.

(** [submitBom] with that callback: one request, no file. *)
Lemma submitBom_written (args : CliArgs) (bom : Value) :
  written (submitBom args bom submitBom_callback) = [] /\
  exists r,
    submitBom args bom submitBom_callback
    = request r
      :: submitBom_callback (fst (request_answer r)) (snd (request_answer r)) /\
    requests (submitBom args bom submitBom_callback) = [r].
Proof.
  unfold submitBom.
  set (r := {| req_method := "POST"; req_url := _; req_port := _; req_json := _;
               req_X_Api_Key := _; req_Content_Type := _; req_formData := _ |}).
  destruct (submitBom_callback_prints (fst (request_answer r)) (snd (request_answer r)))
    as (Hw & Hr & _).
  split; [exact Hw|]. exists r. split; [reflexivity|].
  cbn [requests flat_map app]. fold (requests (submitBom_callback
    (fst (request_answer r)) (snd (request_answer r)))). now rewrite Hr.
Qed.

(** The callback leaves every option but the project name as it was. *)
Lemma createBom_callback_args (args : CliArgs) (filePath : string)
    (bomData bomJsonData : Value) (nsMapping : option NsMapping) :
  let args' := fst (createBom_callback args filePath bomData bomJsonData nsMapping) in
  args_output args' = args_output args /\
  args_serverUrl args' = args_serverUrl args /\
  args_apiKey args' = args_apiKey args /\
  args_projectVersion args' = args_projectVersion args /\
  args_projectId args' = args_projectId args /\
  args_projectName args'
  = (if truthy (args_projectName args) then args_projectName args
     else Some (path_basename (if String.eqb filePath "."
                               then path_resolve filePath else filePath))).
Proof.
  unfold createBom_callback. cbn [fst].
  destruct (truthy (args_projectName args)); cbn [negb]; [repeat split|].
  destruct (String.eqb filePath "."); cbn [negb]; repeat split.
Qed.

(** The files written for two documents and an output name. *)
Lemma createBom_callback_written (args : CliArgs) (filePath : string)
    (x j out : string) (nsMapping : option NsMapping) :
  args_output args = Some out ->
  truthy (Some out) = true ->
  truthy (Some x) = true ->
  truthy (Some j) = true ->
  written (snd (createBom_callback args filePath (Str x) (Str j) nsMapping))
  = [ (String_replace out ".xml" ".json", Str j);
      (String_replace out ".json" ".xml", Str x) ]
    ++ match nsMapping with
       | Some (_ :: _ as m) =>
           [((String_replace out ".xml" ".json" ++ ".map")%string,
             Str (JSON_stringify_mapping m))]
       | _ => []
       end.
Proof.
  intros Hout Hto Hx Hj.
  pose proof (createBom_callback_args args filePath (Str x) (Str j) nsMapping)
    as (Ho & _).
  unfold createBom_callback in *. cbn [fst snd] in *.
  set (args' := if negb (truthy (args_projectName args)) then _ else _) in *.
  rewrite written_app, Ho, Hout, Hto. cbn [value_truthy or_empty].
  rewrite Hx, Hj.
  assert (Hs : written (if truthy (args_serverUrl args') && truthy (args_apiKey args')
                        then submitBom args' (Str x) submitBom_callback else []) = []).
  { destruct (truthy (args_serverUrl args') && truthy (args_apiKey args'));
      [apply submitBom_written|reflexivity]. }
  rewrite Hs, app_nil_r.
  destruct nsMapping as [[|e m]|]; reflexivity.
Qed.

End CommandLine.

(** X16.  An output name that holds neither [.xml] nor [.json] makes the
    two documents collide: the JSON document and the XML document are both
    written to that very file, and the namespace mapping, when there is one,
    next to it under [.map]. *)
Theorem createBom_callback_output_without_extension `{Node}
    (args : CliArgs) (filePath : string) (x j out : string)
    (nsMapping : option NsMapping) :
  args_output args = Some out ->
  truthy (Some out) = true ->
  str_includes out ".xml" = false ->
  str_includes out ".json" = false ->
  truthy (Some x) = true ->
  truthy (Some j) = true ->
  written (snd (createBom_callback args filePath (Str x) (Str j) nsMapping))
  = [(out, Str j); (out, Str x)]
    ++ match nsMapping with
       | Some (_ :: _ as m) =>
           [((out ++ ".map")%string, Str (JSON_stringify_mapping m))]
       | _ => []
       end.
Proof.
  intros Hout Hto Hxml Hjson Hx Hj.
  rewrite (createBom_callback_written args filePath x j out nsMapping Hout Hto Hx Hj).
  now rewrite !String_replace_absent.
Qed.

(** [cdxgen -o sbom]. *)
Lemma createBom_callback_output_without_extension_sbom :
  written
    (snd (@createBom_callback Sample.node
            {| args_output := Some "sbom"; args_serverUrl := None;
               args_apiKey := None; args_projectName := None;
               args_projectVersion := Some "master"; args_projectId := None |}
            "/proj" (Str "<bom/>") (Str "{}") None))
  = [("sbom", Str "{}"); ("sbom", Str "<bom/>")].
Proof.
  exact (@createBom_callback_output_without_extension Sample.node
           {| args_output := Some "sbom"; args_serverUrl := None;
              args_apiKey := None; args_projectName := None;
              args_projectVersion := Some "master"; args_projectId := None |}
           "/proj" "<bom/>" "{}" "sbom" None
           eq_refl eq_refl eq_refl eq_refl eq_refl eq_refl).
Defined.

(** X17.  An output name made of a stem without a dot and the extension
    [.xml] or [.json] gives both files whichever of the two was asked for:
    the JSON document goes to the stem with [.json], the XML document to the
    stem with [.xml], and the namespace mapping, when there is one, to the
    stem with [.json.map]. *)
Theorem createBom_callback_output_extension `{Node}
    (args : CliArgs) (filePath : string) (x j stem ext : string)
    (nsMapping : option NsMapping) :
  all_chars (fun c => negb (Ascii.eqb c ".")) stem = true ->
  ext = ".xml" \/ ext = ".json" ->
  args_output args = Some (stem ++ ext)%string ->
  truthy (Some x) = true ->
  truthy (Some j) = true ->
  written (snd (createBom_callback args filePath (Str x) (Str j) nsMapping))
  = [((stem ++ ".json")%string, Str j); ((stem ++ ".xml")%string, Str x)]
    ++ match nsMapping with
       | Some (_ :: _ as m) =>
           [((stem ++ ".json" ++ ".map")%string, Str (JSON_stringify_mapping m))]
       | _ => []
       end.
Proof.
  intros Hstem Hext Hout Hx Hj.
  assert (Hto : truthy (Some (stem ++ ext)%string) = true).
  { destruct stem; [destruct Hext as [-> | ->]|]; reflexivity. }
  rewrite (createBom_callback_written args filePath x j _ nsMapping Hout Hto Hx Hj).
  destruct (String_replace_extension stem Hstem) as (H1 & H2 & H3 & H4).
  assert (Happ : forall a b c : string, ((a ++ b) ++ c = a ++ b ++ c)%string).
  { intros a b c. induction a as [|ch a IH]; [reflexivity|].
    cbn [String.append]. now rewrite IH. }
  destruct Hext as [-> | ->].
  - rewrite H3, H4, Happ. reflexivity.
  - rewrite H1, H2, Happ. reflexivity.
Qed.

(** [cdxgen -o bom.json]. *)
Lemma createBom_callback_output_extension_bom_json :
  written
    (snd (@createBom_callback Sample.node
            {| args_output := Some "bom.json"; args_serverUrl := None;
               args_apiKey := None; args_projectName := None;
               args_projectVersion := Some "master"; args_projectId := None |}
            "/proj" (Str "<bom/>") (Str "{}") (Some [("junit", ["org.junit"])])))
  = [("bom.json", Str "{}"); ("bom.xml", Str "<bom/>");
     ("bom.json.map", Str "{...}")].
Proof.
  exact (@createBom_callback_output_extension Sample.node
           {| args_output := Some "bom.json"; args_serverUrl := None;
              args_apiKey := None; args_projectName := None;
              args_projectVersion := Some "master"; args_projectId := None |}
           "/proj" "<bom/>" "{}" "bom" ".json" (Some [("junit", ["org.junit"])])
           eq_refl (or_intror eq_refl) eq_refl eq_refl eq_refl).
Defined.


(** X19.  With a server URL and an API key the callback posts exactly one
    request: a POST to the URL followed by [/api/v1/bom], carrying the API
    key and, as [bom], the XML document (never the JSON one).  A project id
    wins over a project name: with an id the form names the project by it
    and carries no name; without one it carries the project name (the one
    given, or else the base name of the path, when that is not empty)
    together with [autoCreate]. *)
Theorem createBom_callback_submits `{Node}
    (args : CliArgs) (filePath : string) (bomData bomJsonData : Value)
    (nsMapping : option NsMapping) :
  truthy (args_serverUrl args) = true ->
  truthy (args_apiKey args) = true ->
  exists r,
    requests (snd (createBom_callback args filePath bomData bomJsonData nsMapping))
    = [r] /\
    req_method r = "POST" /\
    req_url r = (or_empty (args_serverUrl args) ++ "/api/v1/bom")%string /\
    req_X_Api_Key r = args_apiKey args /\
    form_bom_value (req_formData r) = bomData /\
    (truthy (args_projectId args) = true ->
     form_project (req_formData r) = args_projectId args /\
     form_projectName (req_formData r) = None /\
     form_autoCreate (req_formData r) = None) /\
    (truthy (args_projectId args) = false ->
     form_project (req_formData r) = None /\
     (truthy (args_projectName args) = true ->
      form_projectName (req_formData r) = args_projectName args /\
      form_autoCreate (req_formData r) = Some "true") /\
     (truthy (args_projectName args) = false ->
      String.eqb filePath "." = false ->
      truthy (Some (path_basename filePath)) = true ->
      form_projectName (req_formData r) = Some (path_basename filePath) /\
      form_autoCreate (req_formData r) = Some "true")).
Proof.
  intros Hurl Hkey.
  pose proof (createBom_callback_args args filePath bomData bomJsonData nsMapping)
    as (Ho & Hs & Hk & Hv & Hi & Hn).
  unfold createBom_callback in *. cbn [fst snd] in *.
  set (args' := if negb (truthy (args_projectName args)) then _ else _) in *.
  rewrite requests_app, Hs, Hk, Hurl, Hkey. cbn [andb].
  assert (Hnone : forall e, requests e = [] ->
                    requests e ++ requests (submitBom args' bomData submitBom_callback)
                    = requests (submitBom args' bomData submitBom_callback))
    by (now intros e ->).
  rewrite Hnone.
  2:{ destruct (truthy (args_output args')); [|].
      - destruct bomData as [|s|files]; try reflexivity;
          destruct (value_truthy bomJsonData), nsMapping as [[|e m]|];
          cbn [value_truthy]; try destruct (truthy (Some s)); reflexivity.
      - destruct (value_truthy bomJsonData); [reflexivity|].
        destruct (value_truthy bomData); reflexivity. }
  destruct (submitBom_written args' bomData) as (_ & r & Hsub & Hreq).
  rewrite Hreq. unfold submitBom in Hreq. cbn [requests flat_map app] in Hreq.
  apply (f_equal (hd r)) in Hreq. cbn [hd] in Hreq. rewrite <- Hreq.
  eexists. split; [reflexivity|].
  cbn [req_method req_url req_X_Api_Key req_formData form_bom_value form_project
         form_projectName form_autoCreate].
  rewrite Hs, Hk, Hi, Hn.
  destruct (args_serverUrl args) as [url|]; [|discriminate].
  split; [reflexivity|]. split; [reflexivity|]. split; [reflexivity|].
  split; [reflexivity|]. split.
  - intros Hid. rewrite Hid. repeat split.
  - intros Hid. rewrite Hid. split; [reflexivity|]. split.
    + intros Hname. rewrite !Hname. split; reflexivity.
    + intros Hname Hdot Hbase. rewrite !Hname, !Hdot, !Hbase. split; reflexivity.
Qed.

(** [cdxgen --server-url https://dt.example --api-key k] in [/work/shop]. *)
Lemma createBom_callback_submits_shop :
  truthy (Some "https://dt.example") = true
  /\ truthy (Some "k") = true
  /\ exists r,
       requests
         (snd (@createBom_callback Sample.node
                 {| args_output := None; args_serverUrl := Some "https://dt.example";
                    args_apiKey := Some "k"; args_projectName := None;
                    args_projectVersion := Some "master"; args_projectId := None |}
                 "/work/shop" (Str "<bom/>") (Str "{}") None))
       = [r]
       /\ req_url r = "https://dt.example/api/v1/bom"
       /\ form_bom_value (req_formData r) = Str "<bom/>"
       /\ form_projectName (req_formData r) = Some "shop".
Proof.
  split; [reflexivity|]. split; [reflexivity|].
  destruct (@createBom_callback_submits Sample.node
              {| args_output := None; args_serverUrl := Some "https://dt.example";
                 args_apiKey := Some "k"; args_projectName := None;
                 args_projectVersion := Some "master"; args_projectId := None |}
              "/work/shop" (Str "<bom/>") (Str "{}") None eq_refl eq_refl)
    as (r & Hr & _ & Hurl & _ & Hbom & _ & Hname).
  exists r. split; [exact Hr|]. split; [exact Hurl|]. split; [exact Hbom|].
  destruct (Hname eq_refl) as (_ & _ & Hbase).
  exact (proj1 (Hbase eq_refl eq_refl eq_refl)).
Defined.

